(** * The language-server client registry of spyder

    A shallow embedding of [LanguageServerPlugin]
    (spyder/plugins/languageserver/plugin.py): the per-language registry
    [clients], the queue of file registrations [register_queue], and the
    operations that start, stop, reconfigure and address the clients.

    Python dictionaries keep their keys in insertion order and the loops of
    the plugin run over them in that order, so a dictionary is an
    association list here.  The LSP client objects, the main window and
    the configuration system live outside the plugin: a client is an object
    identifier, every call made on an outside object is appended to a
    trace, and what the configuration system and the process environment
    answer is read from an [Env] record handed to each operation.

    One dictionary outside the plugin is shared: the plugin settings
    [PYTHON_CONFIG['configurations']], which every Python configuration
    refers to and [generate_python_config] writes in place.  A
    configuration holds a reference to it, and the writes are entries of
    the trace, so that what a stored Python record shows under
    ['configurations'] is what was written last. *)

From Stdlib Require Import String Ascii List ZArith Bool Arith Lia.
Import ListNotations.

Local Open Scope string_scope.
Local Open Scope list_scope.

Set Implicit Arguments.

(* ================================================================== *)
(** ** Python dictionaries with string keys *)

Module PyDict.

Section Dict.
Variable V : Type.

Definition t := list (string * V).

Definition empty : t := [].

(** [d.get(k)]: the value bound to [k], if any. *)
Fixpoint get (k : string) (d : t) : option V :=
  match d with
  | [] => None
  | (k', v) :: rest => if String.eqb k k' then Some v else get k rest
  end.

(** [k in d]. *)
Definition contains (k : string) (d : t) : bool :=
  match get k d with Some _ => true | None => false end.

(** [d[k] = v]: a bound key keeps its place, a new key goes last. *)
Fixpoint set (k : string) (v : V) (d : t) : t :=
  match d with
  | [] => [(k, v)]
  | (k', v') :: rest =>
      if String.eqb k k' then (k', v) :: rest
      else (k', v') :: set k v rest
  end.

(** The dictionary without the key [k]. *)
Fixpoint remove (k : string) (d : t) : t :=
  match d with
  | [] => []
  | (k', v') :: rest =>
      if String.eqb k k' then remove k rest else (k', v') :: remove k rest
  end.

(** The keys, in iteration order. *)
Definition keys (d : t) : list string := map fst d.

End Dict.

Arguments empty {V}.

End PyDict.

(* ================================================================== *)
(** ** Values, configurations, registry records *)

(** The scalar Python values that travel in request parameters. *)
Inductive pyval : Type :=
| PNone
| PBool (b : bool)
| PInt (n : Z)
| PStr (s : string).

(** Truth value of a Python value, as [if v:] tests it. *)
Definition truthy (v : pyval) : bool :=
  match v with
  | PNone => false
  | PBool b => b
  | PInt n => negb (Z.eqb n 0)
  | PStr s => negb (String.eqb s "")
  end.

(** What a configuration holds under ['configurations']: a reference to
    a dictionary of plugin settings.  [PYTHON_CONFIG] has one such
    dictionary, and [generate_python_config] starts from
    [PYTHON_CONFIG.copy()], a shallow copy: every Python configuration,
    stored or new, refers to that one dictionary, which the method writes
    in place.  The configuration of another language has a dictionary of
    its own, given here with its content. *)
Inductive settings : Type :=
| PYTHON_CONFIG_configurations
| own_settings (content : string).

(** A server configuration: the dictionary the configuration system hands
    out for one language.  [generate_python_config] assigns the six server
    keys; the plugin reads and writes the keys by name only, so the
    dictionary is a record.  The plugin settings under ['configurations']
    are passed on by reference and never inspected. *)
Record config : Type := mk_config {
  cmd : string;
  args : string;
  host : string;
  port : Z;
  external : bool;
  stdio : bool;
  configurations : settings
}.

Definition set_port (p : Z) (c : config) : config :=
  {| cmd := cmd c; args := args c; host := host c; port := p;
     external := external c; stdio := stdio c;
     configurations := configurations c |}.

(** The keys of a configuration that [update_server_list] compares. *)
Inductive config_key : Type :=
| Kcmd | Kargs | Khost | Kport | Kexternal | Kstdio.

(** [current_config[x] != new_config[x]]. *)
Definition differs_at (x : config_key) (current_config new_config : config)
  : bool :=
  match x with
  | Kcmd => negb (String.eqb (cmd current_config) (cmd new_config))
  | Kargs => negb (String.eqb (args current_config) (args new_config))
  | Khost => negb (String.eqb (host current_config) (host new_config))
  | Kport => negb (Z.eqb (port current_config) (port new_config))
  | Kexternal => negb (Bool.eqb (external current_config) (external new_config))
  | Kstdio => negb (Bool.eqb (stdio current_config) (stdio new_config))
  end.

Definition STOPPED : string := "stopped".
Definition RUNNING : string := "running".
Definition LOCALHOST : list string := ["127.0.0.1"; "localhost"].

(** One record of [clients]: the dictionary
    [{'status': ..., 'config': ..., 'instance': ...}].  The status is the
    Python string; [instance] is [None] or a reference to a client object. *)
Record client : Type := mk_client {
  status : string;
  config_of : config;
  instance : option nat
}.

Definition set_status (s : string) (c : client) : client :=
  {| status := s; config_of := config_of c; instance := instance c |}.

Definition set_config (cfg : config) (c : client) : client :=
  {| status := status c; config_of := cfg; instance := instance c |}.

Definition set_instance (i : option nat) (c : client) : client :=
  {| status := status c; config_of := config_of c; instance := i |}.

(** A queued registration [(filename, codeeditor)]; the editor is an
    object reference. *)
Definition registration : Type := (string * nat)%type.

(** Request parameters: a dictionary of values. *)
Definition params_t : Type := PyDict.t pyval.

(* ================================================================== *)
(** ** The world outside the plugin *)

(** The main window the plugin is attached to, as far as the plugin looks
    at it: which of its plugins are there, and the active project path. *)
Record main_window : Type := mk_main {
  editor : bool;
  console : bool;
  projects : bool;
  active_project_path : option string
}.

(** What the configuration system, the process environment and the port
    selection answer while one operation runs. *)
Record Env : Type := mk_env {
  main : option main_window;
  (* CONF.options('lsp-server') *)
  conf_options : list string;
  (* the constant LSP_LANGUAGES *)
  LSP_LANGUAGES : list string;
  (* CONF.get('lsp-server', 'advanced/command_launch') and the like *)
  opt_command_launch : string;
  opt_host : string;
  opt_port : Z;
  opt_external : bool;
  opt_stdio : bool;
  (* the plugin settings generate_python_config assembles from the
     options and writes into PYTHON_CONFIG['configurations'] *)
  python_configurations : string;
  (* CONF.get('lsp-server', language) for the other languages *)
  get_option : string -> config;
  running_under_pytest : bool;
  (* os.environ.get('SPY_TEST_USE_INTROSPECTION') *)
  SPY_TEST_USE_INTROSPECTION : option string;
  select_port : Z -> Z;
  (* get_conf_path('lsp_root_path') *)
  lsp_root_path : string
}.

(** Calls that leave the plugin, and its writes into the dictionary
    [PYTHON_CONFIG['configurations']], which belongs to the configuration
    module and is shared by everything that holds a Python
    configuration. *)
Inductive event : Type :=
| PYTHON_CONFIG_write (plugin_settings : string)
| LSPClient_new (obj : nat) (server_settings : config) (folder : string)
                (language : string)
| sig_initialize_connect_editor (obj : nat)
| sig_server_error_connect (obj : nat)
| sig_initialize_connect_projects (obj : nat)
| client_start (obj : nat)
| client_stop (obj : nat)
| client_register_file (obj : nat) (filename : string) (codeeditor : nat)
| client_perform_request (obj : nat) (request : string) (params : params_t)
| client_send_plugin_configurations (obj : nat) (configurations : settings)
| client_set_folder (obj : nat) (folder : string)
| client_initialize (obj : nat)
| editor_stop_lsp_services (language : string)
| projects_stop_lsp_services
| console_exception_occurred (error : string).

Inductive exn : Type :=
| KeyError (key : string)
| AttributeError (attribute : string).

(** The plugin object.  [next_obj] is the identity the next created client
    object gets; [trace] lists the outside calls made so far, and the
    writes into the shared plugin settings. *)
Record manager : Type := mk_manager {
  clients : PyDict.t client;
  register_queue : PyDict.t (list registration);
  next_obj : nat;
  trace : list event
}.

(* ================================================================== *)
(** ** State and exception monad *)

Inductive result (A : Type) : Type :=
| Ok (a : A)
| Raise (e : exn).

Arguments Ok {A} a.
Arguments Raise {A} e.

(** A method of the plugin: it may change the plugin and either returns
    or raises; what it changed before raising stays changed. *)
Definition M (A : Type) : Type := manager -> result A * manager.

Definition ret {A} (a : A) : M A := fun s => (Ok a, s).

Definition raise {A} (e : exn) : M A := fun s => (Raise e, s).

Definition bind {A B} (m : M A) (k : A -> M B) : M B :=
  fun s =>
    match m s with
    | (Ok a, s') => k a s'
    | (Raise e, s') => (Raise e, s')
    end.

Notation "x <- m ;; k" := (bind m (fun x => k))
  (at level 61, m at next level, right associativity).
Notation "m ;; k" := (bind m (fun _ => k))
  (at level 61, right associativity).

(** [for x in xs: body(x)]. *)
Fixpoint for_each {A} (xs : list A) (body : A -> M unit) : M unit :=
  match xs with
  | [] => ret tt
  | x :: rest => body x ;; for_each rest body
  end.

Definition gets {A} (f : manager -> A) : M A := fun s => (Ok (f s), s).

Definition put_clients (cs : PyDict.t client) : M unit :=
  fun s => (Ok tt, {| clients := cs; register_queue := register_queue s;
                      next_obj := next_obj s; trace := trace s |}).

Definition put_register_queue (q : PyDict.t (list registration)) : M unit :=
  fun s => (Ok tt, {| clients := clients s; register_queue := q;
                      next_obj := next_obj s; trace := trace s |}).

(** A call on an outside object. *)
Definition call (e : event) : M unit :=
  fun s => (Ok tt, {| clients := clients s; register_queue := register_queue s;
                      next_obj := next_obj s; trace := trace s ++ [e] |}).

(** The identity of a newly created object. *)
Definition new_obj : M nat :=
  fun s => (Ok (next_obj s),
            {| clients := clients s; register_queue := register_queue s;
               next_obj := S (next_obj s); trace := trace s |}).

(** [self.clients[language]], a reference to the record: the record is
    read again through the key each time it is used. *)
Definition clients_getitem (language : string) : M client :=
  cs <- gets clients ;;
  match PyDict.get language cs with
  | Some c => ret c
  | None => raise (KeyError language)
  end.

(** [self.clients[language] = c]. *)
Definition clients_setitem (language : string) (c : client) : M unit :=
  cs <- gets clients ;;
  put_clients (PyDict.set language c cs).

(** [self.register_queue[language]]. *)
Definition register_queue_getitem (language : string) : M (list registration) :=
  q <- gets register_queue ;;
  match PyDict.get language q with
  | Some l => ret l
  | None => raise (KeyError language)
  end.

(** [self.register_queue[language] = l]. *)
Definition register_queue_setitem (language : string) (l : list registration)
  : M unit :=
  q <- gets register_queue ;;
  put_register_queue (PyDict.set language l q).

(** [language_client[field] = value] on the record [language_client] that
    [self.clients[language]] refers to. *)
Definition client_update (language : string) (f : client -> client) : M unit :=
  c <- clients_getitem language ;;
  clients_setitem language (f c).

(* ================================================================== *)
(** ** The methods of [LanguageServerPlugin] *)

Definition lower_ascii (c : ascii) : ascii :=
  let n := nat_of_ascii c in
  if ((65 <=? n) && (n <=? 90))%nat then ascii_of_nat (n + 32) else c.

(** [l.lower()] on the ASCII names of [LSP_LANGUAGES]. *)
Fixpoint lower (s : string) : string :=
  match s with
  | EmptyString => EmptyString
  | String c rest => String (lower_ascii c) (lower rest)
  end.

(** [x in xs] for a list of strings. *)
Definition in_list (x : string) (xs : list string) : bool :=
  existsb (String.eqb x) xs.

Definition get_languages (env : Env) : list string :=
  "python" ::
  filter (fun option => in_list option (map lower (LSP_LANGUAGES env)))
         (conf_options env).

(** The dictionary [python_config] that [generate_python_config]
    returns: a copy of [PYTHON_CONFIG] with the six server keys assigned.
    The copy is shallow, so its ['configurations'] is the dictionary of
    [PYTHON_CONFIG] itself. *)
Definition python_config (env : Env) : config :=
  let host := opt_host env in
  let stdio := opt_stdio env in
  {| cmd := opt_command_launch env;
     args := if in_list host LOCALHOST && negb stdio
             then "--host {host} --port {port} --tcp" else "";
     host := host;
     port := opt_port env;
     external := opt_external env;
     stdio := stdio;
     configurations := PYTHON_CONFIG_configurations |}.

(** [generate_python_config]: the plugin settings assembled from the
    options are written in place into [PYTHON_CONFIG['configurations']],
    through the copy. *)
Definition generate_python_config (env : Env) : M config :=
  call (PYTHON_CONFIG_write (python_configurations env)) ;;
  ret (python_config env).

Definition get_language_config (env : Env) (language : string) : M config :=
  if String.eqb language "python" then generate_python_config env
  else ret (get_option env language).

(** The configuration that [get_language_config] returns. *)
Definition language_config (env : Env) (language : string) : config :=
  if String.eqb language "python" then python_config env
  else get_option env language.

(** The folder handed to a new client (the directory is created when it is
    missing; the file system is not part of the model). *)
Definition get_root_path (env : Env) (language : string) : string :=
  let path :=
    match main env with
    | Some m => if projects m then active_project_path m else None
    | None => None
    end in
  match path with
  | Some p => if String.eqb p "" then lsp_root_path env else p
  | None => lsp_root_path env
  end.

(** The record a language is registered with. *)
Definition fresh_record (env : Env) (language : string) : client :=
  {| status := STOPPED;
     config_of := language_config env language;
     instance := None |}.

(** [__init__], on the attributes of a plugin object under construction. *)
Definition __init__ (env : Env) : M unit :=
  put_clients PyDict.empty ;;
  put_register_queue PyDict.empty ;;
  for_each (get_languages env) (fun language =>
    config <- get_language_config env language ;;
    clients_setitem language {| status := STOPPED;
                                config_of := config;
                                instance := None |} ;;
    register_queue_setitem language []).

Definition blank : manager :=
  {| clients := []; register_queue := []; next_obj := 0; trace := [] |}.

(** The plugin as [LanguageServerPlugin(parent)] returns it. *)
Definition new_plugin (env : Env) : manager := snd (__init__ env blank).

Definition register_file (language filename : string) (codeeditor : nat)
  : M unit :=
  cs <- gets clients ;;
  match PyDict.get language cs with
  | Some entry =>
      match instance entry with
      | None =>
          queue <- register_queue_getitem language ;;
          register_queue_setitem language (queue ++ [(filename, codeeditor)])
      | Some language_client =>
          call (client_register_file language_client filename codeeditor)
      end
  | None => ret tt
  end.

Definition register_client_instance (env : Env) (obj : nat) : M unit :=
  match main env with
  | Some m =>
      (if editor m then call (sig_initialize_connect_editor obj) else ret tt) ;;
      (if console m then call (sig_server_error_connect obj) else ret tt) ;;
      (if projects m then call (sig_initialize_connect_projects obj) else ret tt)
  | None => ret tt
  end.

(** [os.environ.get(name)] as a condition. *)
Definition environ_set (v : option string) : bool :=
  match v with
  | Some s => negb (String.eqb s "")
  | None => false
  end.

(** The test gate of [start_client]: under pytest, and introspection not
    asked for. *)
Definition pytest_gate (env : Env) : bool :=
  running_under_pytest env
  && negb (environ_set (SPY_TEST_USE_INTROSPECTION env)).

(** [language_client.register_file(filename, codeeditor)] where
    [language_client] is the record of [clients], a plain dictionary: a
    dictionary has no such attribute. *)
Definition record_register_file (entry : registration) : M unit :=
  raise (AttributeError "register_file").

Definition start_client (env : Env) (language : string) : M bool :=
  cs <- gets clients ;;
  if PyDict.contains language cs then
    queue <- register_queue_getitem language ;;
    if running_under_pytest env
       && negb (environ_set (SPY_TEST_USE_INTROSPECTION env))
    then ret false
    else
      language_client <- clients_getitem language ;;
      let started := String.eqb (status language_client) RUNNING in
      if String.eqb (status language_client) STOPPED then
        let config := config_of language_client in
        (if negb (external config) then
           client_update language
             (set_config (set_port (select_port env (port config)) config))
         else ret tt) ;;
        language_client <- clients_getitem language ;;
        obj <- new_obj ;;
        call (LSPClient_new obj (config_of language_client)
                (get_root_path env language) language) ;;
        client_update language (set_instance (Some obj)) ;;
        register_client_instance env obj ;;
        call (client_start obj) ;;
        client_update language (set_status RUNNING) ;;
        for_each queue record_register_file ;;
        register_queue_setitem language [] ;;
        ret started
      else ret started
  else ret false.

Definition close_client (language : string) : M unit :=
  cs <- gets clients ;;
  match PyDict.get language cs with
  | Some language_client =>
      (if String.eqb (status language_client) RUNNING then
         match instance language_client with
         | Some obj => call (client_stop obj)
         | None => raise (AttributeError "stop")
         end
       else ret tt) ;;
      client_update language (set_status STOPPED)
  | None => ret tt
  end.

Definition shutdown : M unit :=
  cs <- gets clients ;;
  for_each (PyDict.keys cs) close_client.

(** [self.main.editor.stop_lsp_services(language)]. *)
Definition main_editor_stop_lsp_services (env : Env) (language : string)
  : M unit :=
  match main env with
  | Some m =>
      if editor m then call (editor_stop_lsp_services language)
      else raise (AttributeError "stop_lsp_services")
  | None => raise (AttributeError "editor")
  end.

(** [self.main.projects.stop_lsp_services()]. *)
Definition main_projects_stop_lsp_services (env : Env) : M unit :=
  match main env with
  | Some m =>
      if projects m then call projects_stop_lsp_services
      else raise (AttributeError "stop_lsp_services")
  | None => raise (AttributeError "projects")
  end.

(** [instance.folder = folder; instance.initialize()] on the object the
    record holds. *)
Definition client_reinitialize (instance : option nat) (folder : string)
  : M unit :=
  match instance with
  | Some obj =>
      call (client_set_folder obj folder) ;;
      call (client_initialize obj)
  | None => raise (AttributeError "folder")
  end.

Definition reinitialize_all_clients (env : Env) : M unit :=
  main_projects_stop_lsp_services env ;;
  cs <- gets clients ;;
  for_each (PyDict.keys cs) (fun language =>
    language_client <- clients_getitem language ;;
    if String.eqb (status language_client) RUNNING then
      main_editor_stop_lsp_services env language ;;
      client_reinitialize (instance language_client)
        (get_root_path env language)
    else ret tt).

Definition report_server_error (env : Env) (error : string) : M unit :=
  match main env with
  | Some m =>
      if console m then call (console_exception_occurred error)
      else raise (AttributeError "exception_occurred")
  | None => raise (AttributeError "console")
  end.

Definition restart_diff : list config_key :=
  [Kcmd; Kargs; Khost; Kport; Kexternal; Kstdio].

(** [any([current_config[x] != new_config[x] for x in restart_diff])]. *)
Definition restart_needed (current_config new_config : config) : bool :=
  existsb (fun b : bool => b)
    (map (fun x => differs_at x current_config new_config) restart_diff).

Arguments restart_needed : simpl never.

(** The body of the loop of [update_server_list]. *)
Definition update_server (env : Env) (language : string) : M unit :=
  new_config <- get_language_config env language ;;
  let config := {| status := STOPPED;
                   config_of := new_config;
                   instance := None |} in
  cs <- gets clients ;;
  if negb (PyDict.contains language cs) then
    clients_setitem language config ;;
    register_queue_setitem language []
  else
    entry <- clients_getitem language ;;
    let current_config := config_of entry in
    let new_config := config_of config in
    let restart := restart_needed current_config new_config in
    if restart then
      if String.eqb (status entry) STOPPED then
        clients_setitem language config
      else if String.eqb (status entry) RUNNING then
        main_editor_stop_lsp_services env language ;;
        main_projects_stop_lsp_services env ;;
        close_client language ;;
        clients_setitem language config ;;
        _ <- start_client env language ;;
        ret tt
      else ret tt
    else
      if String.eqb (status entry) RUNNING then
        match instance entry with
        | Some client =>
            call (client_send_plugin_configurations client
                    (configurations new_config))
        | None => raise (AttributeError "send_plugin_configurations")
        end
      else ret tt.

Definition update_server_list (env : Env) : M unit :=
  for_each (get_languages env) (update_server env).

Definition update_client_status (active_set : list string) : M unit :=
  cs <- gets clients ;;
  for_each (PyDict.keys cs) (fun language =>
    if negb (in_list language active_set) then close_client language
    else ret tt).

(** The record a value addresses as a key of [clients]; only a string is
    equal to a key. *)
Definition clients_lookup (language : pyval) (cs : PyDict.t client)
  : option client :=
  match language with
  | PStr l => PyDict.get l cs
  | _ => None
  end.

Definition send_request (language : pyval) (request : string)
  (params : params_t) : M unit :=
  cs <- gets clients ;;
  match clients_lookup language cs with
  | Some language_client =>
      if String.eqb (status language_client) RUNNING then
        match instance language_client with
        | Some client => call (client_perform_request client request params)
        | None => raise (AttributeError "perform_request")
        end
      else ret tt
  | None => ret tt
  end.

(** [broadcast_request] changes the dictionary [params] of its caller; the
    dictionary as it is left is the result here. *)
Definition broadcast_request (request : string) (params : params_t)
  : M params_t :=
  let language :=
    match PyDict.get "language" params with
    | Some v => v
    | None => PNone
    end in
  let params := PyDict.remove "language" params in
  (if truthy language then send_request language request params
   else
     cs <- gets clients ;;
     for_each (PyDict.keys cs) (fun language =>
       send_request (PStr language) request params)) ;;
  ret params.

(** The methods are unfolded by name in the proofs, not by [simpl]. *)
Arguments register_file : simpl never.
Arguments register_client_instance : simpl never.
Arguments start_client : simpl never.
Arguments close_client : simpl never.
Arguments shutdown : simpl never.
Arguments update_server : simpl never.
Arguments update_server_list : simpl never.
Arguments update_client_status : simpl never.
Arguments send_request : simpl never.
Arguments broadcast_request : simpl never.
Arguments reinitialize_all_clients : simpl never.
Arguments report_server_error : simpl never.

(* ================================================================== *)
(** ** The registry invariant and the states a plugin goes through *)

(** The invariant of the registry: one record per registered language,
    a status that is ['stopped'] or ['running'], and a queue for every
    registered language. *)
Definition registry_inv (s : manager) : Prop :=
  NoDup (PyDict.keys (clients s)) /\
  (forall l c, PyDict.get l (clients s) = Some c ->
               status c = STOPPED \/ status c = RUNNING) /\
  (forall l, PyDict.contains l (clients s) = true ->
             PyDict.contains l (register_queue s) = true).

(** The same three conditions, with the condition on a record left open:
    [P n c] is read with [n] the number of client objects created so
    far. *)
Definition dict_inv (P : nat -> client -> Prop) (cs : PyDict.t client)
  (q : PyDict.t (list registration)) (n : nat) : Prop :=
  NoDup (PyDict.keys cs) /\
  (forall l c, PyDict.get l cs = Some c -> P n c) /\
  (forall l, PyDict.contains l cs = true -> PyDict.contains l q = true).

Definition status_ok (n : nat) (c : client) : Prop :=
  status c = STOPPED \/ status c = RUNNING.

(** What holds of a record when [n] client objects have been created: a
    running client has its object, and the object is one of those
    created. *)
Definition client_ok (n : nat) (c : client) : Prop :=
  (status c = STOPPED \/ status c = RUNNING) /\
  (status c = RUNNING -> instance c <> None) /\
  (forall obj, instance c = Some obj -> obj < n).

(** The registry invariant together with what the proofs need about the
    client objects. *)
Definition well_formed (s : manager) : Prop :=
  dict_inv client_ok (clients s) (register_queue s) (next_obj s).

(** The states of a plugin: as constructed, and after any public method
    has run on it with any arguments and in any environment, whether the
    method returned or raised. *)
Inductive reachable : manager -> Prop :=
| reach_init env :
    reachable (new_plugin env)
| reach_register_file s language filename codeeditor :
    reachable s ->
    reachable (snd (register_file language filename codeeditor s))
| reach_start_client s env language :
    reachable s -> reachable (snd (start_client env language s))
| reach_close_client s language :
    reachable s -> reachable (snd (close_client language s))
| reach_shutdown s :
    reachable s -> reachable (snd (shutdown s))
| reach_update_server_list s env :
    reachable s -> reachable (snd (update_server_list env s))
| reach_update_client_status s active_set :
    reachable s -> reachable (snd (update_client_status active_set s))
| reach_send_request s language request params :
    reachable s -> reachable (snd (send_request language request params s))
| reach_broadcast_request s request params :
    reachable s -> reachable (snd (broadcast_request request params s))
| reach_reinitialize_all_clients s env :
    reachable s -> reachable (snd (reinitialize_all_clients env s))
| reach_report_server_error s env error :
    reachable s -> reachable (snd (report_server_error env error s))
| reach_register_client_instance s env obj :
    reachable s -> reachable (snd (register_client_instance env obj s)).

(* ================================================================== *)
(** ** What the methods leave behind, in closed form *)

(** What [get_language_config] writes: for Python, the plugin settings
    into the shared dictionary. *)
Definition config_writes (env : Env) (language : string) : list event :=
  if String.eqb language "python"
  then [PYTHON_CONFIG_write (python_configurations env)]
  else [].

(** The plugin after [get_language_config] has run. *)
Definition wrote (env : Env) (language : string) (s : manager) : manager :=
  {| clients := clients s;
     register_queue := register_queue s;
     next_obj := next_obj s;
     trace := trace s ++ config_writes env language |}.

(** What [PYTHON_CONFIG['configurations']] holds after the calls of a
    trace: the plugin settings written last.  This is what every Python
    configuration shows under ['configurations'], whenever it was
    stored. *)
Fixpoint shared_settings (t : list event) : option string :=
  match t with
  | [] => None
  | e :: rest =>
      match shared_settings rest with
      | Some written => Some written
      | None =>
          match e with
          | PYTHON_CONFIG_write written => Some written
          | _ => None
          end
      end
  end.

(** The signal connections [register_client_instance] makes. *)
Definition signal_connections (env : Env) (obj : nat) : list event :=
  match main env with
  | Some m =>
      (if editor m then [sig_initialize_connect_editor obj] else []) ++
      (if console m then [sig_server_error_connect obj] else []) ++
      (if projects m then [sig_initialize_connect_projects obj] else [])
  | None => []
  end.

(** The outside calls of [start_client] when it creates the client [obj]
    with the settings [cfg]. *)
Definition start_events (env : Env) (language : string) (cfg : config)
  (obj : nat) : list event :=
  LSPClient_new obj cfg (get_root_path env language) language
  :: signal_connections env obj ++ [client_start obj].

(** The configuration of a record after [start_client] has chosen the
    port. *)
Definition started_config (env : Env) (cfg : config) : config :=
  if external cfg then cfg else set_port (select_port env (port cfg)) cfg.

(** Where the restart of a running client stands when [update_server]
    reaches its call of [start_client]: the state at that point, or the
    outcome when a step before it raised. *)
Definition restart_state (env : Env) (language : string) (c : client)
  (s : manager) : manager + (result unit * manager) :=
  match main env with
  | None => inr (Raise (AttributeError "editor"), s)
  | Some m =>
      if editor m then
        if projects m then
          match instance c with
          | Some obj =>
              inl {| clients := PyDict.set language (fresh_record env language)
                                  (clients s);
                     register_queue := register_queue s;
                     next_obj := next_obj s;
                     trace := trace s
                              ++ [editor_stop_lsp_services language;
                                  projects_stop_lsp_services;
                                  client_stop obj] |}
          | None =>
              inr (Raise (AttributeError "stop"),
                   {| clients := clients s;
                      register_queue := register_queue s;
                      next_obj := next_obj s;
                      trace := trace s
                               ++ [editor_stop_lsp_services language;
                                   projects_stop_lsp_services] |})
          end
        else
          inr (Raise (AttributeError "stop_lsp_services"),
               {| clients := clients s;
                  register_queue := register_queue s;
                  next_obj := next_obj s;
                  trace := trace s ++ [editor_stop_lsp_services language] |})
      else inr (Raise (AttributeError "stop_lsp_services"), s)
  end.

(** The call [close_client] makes for a language whose record is [entry]:
    [stop()] on the client of a running record. *)
Definition stop_calls (entry : option client) : list event :=
  match entry with
  | Some c =>
      if String.eqb (status c) RUNNING then
        match instance c with
        | Some obj => [client_stop obj]
        | None => []
        end
      else []
  | None => []
  end.

(** The call [send_request] makes for a language whose record is [entry]:
    [perform_request(request, params)] on the client of a running
    record. *)
Definition perform_calls (entry : option client) (request : string)
  (params : params_t) : list event :=
  match entry with
  | Some c =>
      if String.eqb (status c) RUNNING then
        match instance c with
        | Some obj => [client_perform_request obj request params]
        | None => []
        end
      else []
  | None => []
  end.

(** The calls with which [update_server_list] stops the running client
    [old] of a language before it replaces the record. *)
Definition restart_events (language : string) (old : nat) : list event :=
  [editor_stop_lsp_services language; projects_stop_lsp_services;
   client_stop old].

(** The restart of a running language goes through: the main window has
    its editor and its projects plugin, and no registration is waiting in
    the queue of the language unless the test gate keeps [start_client]
    from starting anything. *)
Definition restart_goes_through (env : Env) (language : string)
  (s : manager) : Prop :=
  forall c,
    PyDict.get language (clients s) = Some c ->
    status c = RUNNING ->
    restart_needed (config_of c) (language_config env language) = true ->
    (exists m, main env = Some m /\ editor m = true /\ projects m = true) /\
    (pytest_gate env = true \/
     PyDict.get language (register_queue s) = Some []).

(** What a pass of the loop leaves alone: the record and the queue of
    every other language. *)
Definition same_at (l : string) (s s' : manager) : Prop :=
  PyDict.get l (clients s') = PyDict.get l (clients s) /\
  PyDict.get l (register_queue s') = PyDict.get l (register_queue s).

(** What a method that only talks to the outside leaves alone: the two
    dictionaries and the count of objects. *)
Definition same_registry (s s' : manager) : Prop :=
  clients s' = clients s /\
  register_queue s' = register_queue s /\
  next_obj s' = next_obj s.


(* ================================================================== *)
(** ** Concrete scenarios *)

(** A configuration for an R server, as the preferences store it. *)
Definition r_config : config :=
  {| cmd := "R --slave -e languageserver::run()"; args := "";
     host := "127.0.0.1"; port := 2088%Z; external := false; stdio := false;
     configurations := own_settings "{}" |}.

Definition demo_main : main_window :=
  {| editor := true; console := true; projects := true;
     active_project_path := None |}.

(** A session with the Python server and an R server configured, outside
    the test suite; the configured ports are free, so [select_port] keeps
    them. *)
Definition demo_env : Env :=
  {| main := Some demo_main;
     conf_options := ["pycodestyle"; "advanced/port"; "r"];
     LSP_LANGUAGES := ["Bash"; "Java"; "R"];
     opt_command_launch := "pyls";
     opt_host := "127.0.0.1";
     opt_port := 2087%Z;
     opt_external := false;
     opt_stdio := false;
     python_configurations := "{pyls}";
     get_option := fun _ => r_config;
     running_under_pytest := false;
     SPY_TEST_USE_INTROSPECTION := None;
     select_port := fun p => p;
     lsp_root_path := "/home/user/.config/spyder/lsp_root_path" |}.

(** The same session after the user has changed the launch command of the
    Python server in the preferences. *)
Definition demo_env_edited : Env :=
  {| main := main demo_env;
     conf_options := conf_options demo_env;
     LSP_LANGUAGES := LSP_LANGUAGES demo_env;
     opt_command_launch := "python -m pyls";
     opt_host := opt_host demo_env;
     opt_port := opt_port demo_env;
     opt_external := opt_external demo_env;
     opt_stdio := opt_stdio demo_env;
     python_configurations := python_configurations demo_env;
     get_option := get_option demo_env;
     running_under_pytest := running_under_pytest demo_env;
     SPY_TEST_USE_INTROSPECTION := SPY_TEST_USE_INTROSPECTION demo_env;
     select_port := select_port demo_env;
     lsp_root_path := lsp_root_path demo_env |}.

(** The demo session inside the test suite, with introspection asked
    for. *)
Definition test_env : Env :=
  {| main := main demo_env;
     conf_options := conf_options demo_env;
     LSP_LANGUAGES := LSP_LANGUAGES demo_env;
     opt_command_launch := opt_command_launch demo_env;
     opt_host := opt_host demo_env;
     opt_port := opt_port demo_env;
     opt_external := opt_external demo_env;
     opt_stdio := opt_stdio demo_env;
     python_configurations := python_configurations demo_env;
     get_option := get_option demo_env;
     running_under_pytest := true;
     SPY_TEST_USE_INTROSPECTION := Some "True";
     select_port := select_port demo_env;
     lsp_root_path := lsp_root_path demo_env |}.

(** The test session later on: the launch command of the Python server
    was changed and [SPY_TEST_USE_INTROSPECTION] is no longer set. *)
Definition test_env_gated : Env :=
  {| main := main demo_env;
     conf_options := conf_options demo_env;
     LSP_LANGUAGES := LSP_LANGUAGES demo_env;
     opt_command_launch := "python -m pyls";
     opt_host := opt_host demo_env;
     opt_port := opt_port demo_env;
     opt_external := opt_external demo_env;
     opt_stdio := opt_stdio demo_env;
     python_configurations := python_configurations demo_env;
     get_option := get_option demo_env;
     running_under_pytest := true;
     SPY_TEST_USE_INTROSPECTION := None;
     select_port := select_port demo_env;
     lsp_root_path := lsp_root_path demo_env |}.

(** The plugin as constructed in the demo session. *)
Definition demo_plugin : manager := new_plugin demo_env.

(** The plugin after a file of the editor was registered for Python
    before any client was started. *)
Definition demo_queued : manager :=
  snd (register_file "python" "script.py" 7 demo_plugin).

(** The plugin with its Python client started. *)
Definition demo_started : manager :=
  snd (start_client demo_env "python" demo_plugin).

(** The plugin of the test session with its Python client started. *)
Definition test_started : manager :=
  snd (start_client test_env "python" (new_plugin test_env)).

(* ================================================================== *)
(** ** The public methods as calls, and the steps they are made of *)

Unset Implicit Arguments.

(** A call of a public method, with its arguments and the environment it
    runs in. *)
Inductive method_call : Type :=
| call_register_file (language filename : string) (codeeditor : nat)
| call_start_client (env : Env) (language : string)
| call_close_client (language : string)
| call_shutdown
| call_update_server_list (env : Env)
| call_update_client_status (active_set : list string)
| call_send_request (language : pyval) (request : string) (params : params_t)
| call_broadcast_request (request : string) (params : params_t)
| call_reinitialize_all_clients (env : Env)
| call_report_server_error (env : Env) (error : string)
| call_register_client_instance (env : Env) (obj : nat).

(** The plugin after the call, whether the method returned or raised. *)
Definition after (m : method_call) (s : manager) : manager :=
  match m with
  | call_register_file language filename codeeditor =>
      snd (register_file language filename codeeditor s)
  | call_start_client env language => snd (start_client env language s)
  | call_close_client language => snd (close_client language s)
  | call_shutdown => snd (shutdown s)
  | call_update_server_list env => snd (update_server_list env s)
  | call_update_client_status active_set =>
      snd (update_client_status active_set s)
  | call_send_request language request params =>
      snd (send_request language request params s)
  | call_broadcast_request request params =>
      snd (broadcast_request request params s)
  | call_reinitialize_all_clients env => snd (reinitialize_all_clients env s)
  | call_report_server_error env error =>
      snd (report_server_error env error s)
  | call_register_client_instance env obj =>
      snd (register_client_instance env obj s)
  end.

(** The calls that concern the life of a client object or hand it a
    file. *)
Definition registry_event (e : event) : bool :=
  match e with
  | LSPClient_new _ _ _ _ => true
  | client_start _ => true
  | client_stop _ => true
  | client_register_file _ _ _ => true
  | _ => false
  end.

(** A stretch of execution that only talks to the outside: the registry
    is as before, and the calls appended to the trace are none of the
    above. *)
Definition talks (s s' : manager) : Prop :=
  same_registry s s' /\
  exists evs,
    trace s' = trace s ++ evs /\
    forallb (fun e => negb (registry_event e)) evs = true.

(** One step of the plugin on its registry. *)
Inductive elem : manager -> manager -> Prop :=
| elem_talk s s' :
    talks s s' -> elem s s'
| elem_queue l c q entry s :
    (* register_file, no client object yet *)
    PyDict.get l (clients s) = Some c ->
    instance c = None ->
    PyDict.get l (register_queue s) = Some q ->
    elem s {| clients := clients s;
              register_queue := PyDict.set l (q ++ [entry]) (register_queue s);
              next_obj := next_obj s;
              trace := trace s |}
| elem_forward l c obj filename codeeditor s :
    (* register_file, on the client object of the record *)
    PyDict.get l (clients s) = Some c ->
    instance c = Some obj ->
    elem s {| clients := clients s;
              register_queue := register_queue s;
              next_obj := next_obj s;
              trace := trace s
                       ++ [client_register_file obj filename codeeditor] |}
| elem_start env l c q s :
    (* start_client creating, starting and marking a client *)
    PyDict.get l (clients s) = Some c ->
    status c = STOPPED ->
    PyDict.get l (register_queue s) = Some q ->
    elem s {| clients :=
                PyDict.set l {| status := RUNNING;
                                config_of := started_config env (config_of c);
                                instance := Some (next_obj s) |} (clients s);
              register_queue := register_queue s;
              next_obj := S (next_obj s);
              trace := trace s
                       ++ start_events env l (started_config env (config_of c))
                            (next_obj s) |}
| elem_stop l c obj s :
    (* close_client on a running client *)
    PyDict.get l (clients s) = Some c ->
    status c = RUNNING ->
    instance c = Some obj ->
    elem s {| clients := PyDict.set l (set_status STOPPED c) (clients s);
              register_queue := register_queue s;
              next_obj := next_obj s;
              trace := trace s ++ [client_stop obj] |}
| elem_mark l c s :
    (* close_client on a record that is not running *)
    PyDict.get l (clients s) = Some c ->
    status c <> RUNNING ->
    elem s {| clients := PyDict.set l (set_status STOPPED c) (clients s);
              register_queue := register_queue s;
              next_obj := next_obj s;
              trace := trace s |}
| elem_register env l s :
    (* update_server_list registering a new language *)
    PyDict.get l (clients s) = None ->
    elem s {| clients := PyDict.set l (fresh_record env l) (clients s);
              register_queue := PyDict.set l [] (register_queue s);
              next_obj := next_obj s;
              trace := trace s |}
| elem_replace env l c s :
    (* update_server_list replacing a stopped record *)
    PyDict.get l (clients s) = Some c ->
    status c = STOPPED ->
    elem s {| clients := PyDict.set l (fresh_record env l) (clients s);
              register_queue := register_queue s;
              next_obj := next_obj s;
              trace := trace s |}.

(** Any number of steps in a row. *)
Inductive steps : manager -> manager -> Prop :=
| steps_refl s : steps s s
| steps_cons s1 s2 s3 : elem s1 s2 -> steps s2 s3 -> steps s1 s3.

(* ================================================================== *)
(** ** The calls made on one client object *)

(** How many calls of a trace satisfy a test. *)
Definition count (f : event -> bool) (t : list event) : nat :=
  length (filter f t).

(** The creation of the client object [obj]. *)
Definition creates (obj : nat) (e : event) : bool :=
  match e with
  | LSPClient_new o _ _ _ => Nat.eqb o obj
  | _ => false
  end.

(** [start()] on the client object [obj]. *)
Definition starts (obj : nat) (e : event) : bool :=
  match e with
  | client_start o => Nat.eqb o obj
  | _ => false
  end.

(** [stop()] on the client object [obj]. *)
Definition stops (obj : nat) (e : event) : bool :=
  match e with
  | client_stop o => Nat.eqb o obj
  | _ => false
  end.

(** The bookkeeping of the plugin agrees with the calls it has made:
    - the registry is well formed, and [register_queue] has no key that
      [clients] lacks;
    - no two languages hold the same client object;
    - the object a record holds was created for the language of the
      record, with the configuration the record holds;
    - every object created so far was created once and started once, no
      other object has been created, started or stopped, and no object
      was stopped more often than started;
    - the object of a running record has not been stopped, the object of
      any other record has been stopped once. *)
Definition sound (s : manager) : Prop :=
  well_formed s /\
  (forall l, PyDict.contains l (register_queue s) = true ->
             PyDict.contains l (clients s) = true) /\
  (forall l1 l2 c1 c2 obj,
      PyDict.get l1 (clients s) = Some c1 ->
      PyDict.get l2 (clients s) = Some c2 ->
      instance c1 = Some obj -> instance c2 = Some obj -> l1 = l2) /\
  (forall l c obj,
      PyDict.get l (clients s) = Some c -> instance c = Some obj ->
      exists folder,
        In (LSPClient_new obj (config_of c) folder l) (trace s)) /\
  (forall obj,
      count (creates obj) (trace s) = (if Nat.ltb obj (next_obj s) then 1 else 0) /\
      count (starts obj) (trace s) = (if Nat.ltb obj (next_obj s) then 1 else 0) /\
      (count (stops obj) (trace s) <= count (starts obj) (trace s))%nat) /\
  (forall l c obj,
      PyDict.get l (clients s) = Some c -> instance c = Some obj ->
      count (stops obj) (trace s) =
      (if String.eqb (status c) RUNNING then 0 else 1)).

(* ================================================================== *)
(** ** More scenarios *)

(** The demo session with the clients of both languages started. *)
Definition demo_both : manager :=
  snd (start_client demo_env "r" demo_started).

(** The demo session with both clients started and the Python client
    closed again. *)
Definition demo_closed : manager :=
  snd (close_client "python" demo_both).

(** The calls that hand a file to a client object. *)
Definition hands_file (e : event) : bool :=
  match e with
  | client_register_file _ _ _ => true
  | _ => false
  end.

(** [l'] is [l] with more elements after it. *)
Definition extends {A : Type} (l l' : list A) : Prop :=
  exists more, l' = l ++ more.

(** A call of any method but [register_file]. *)
Definition not_register_file (m : method_call) : bool :=
  match m with
  | call_register_file _ _ _ => false
  | _ => true
  end.

(** A call that runs under the test gate of [start_client], if it runs
    in an environment at all. *)
Definition under_gate (m : method_call) : bool :=
  match m with
  | call_start_client env _ => pytest_gate env
  | call_update_server_list env => pytest_gate env
  | _ => true
  end.

(** What a method has handed to clients is what it had handed before. *)
Definition hands_nothing (s s' : manager) : Prop :=
  count hands_file (trace s') = count hands_file (trace s).

(** No object was created. *)
Definition creates_nothing (s s' : manager) : Prop :=
  next_obj s' = next_obj s.

(** The calls [reinitialize_all_clients] makes for a language whose
    record is [entry]. *)
Definition reinitialize_calls (env : Env) (language : string)
  (entry : option client) : list event :=
  match entry with
  | Some c =>
      if String.eqb (status c) RUNNING then
        match instance c with
        | Some obj =>
            [editor_stop_lsp_services language;
             client_set_folder obj (get_root_path env language);
             client_initialize obj]
        | None => []
        end
      else []
  | None => []
  end.

(** The call [update_server_list] makes for a language whose record is
    [entry] when the configuration needs no restart. *)
Definition configuration_calls (env : Env) (language : string)
  (entry : option client) : list event :=
  match entry with
  | Some c =>
      if String.eqb (status c) RUNNING then
        match instance c with
        | Some obj =>
            [client_send_plugin_configurations obj
               (configurations (language_config env language))]
        | None => []
        end
      else []
  | None => []
  end.

(** The demo session after the user has removed the R server from the
    preferences. *)
Definition demo_env_without_r : Env :=
  {| main := main demo_env;
     conf_options := ["pycodestyle"; "advanced/port"];
     LSP_LANGUAGES := LSP_LANGUAGES demo_env;
     opt_command_launch := "python -m pyls";
     opt_host := opt_host demo_env;
     opt_port := opt_port demo_env;
     opt_external := opt_external demo_env;
     opt_stdio := opt_stdio demo_env;
     python_configurations := python_configurations demo_env;
     get_option := get_option demo_env;
     running_under_pytest := running_under_pytest demo_env;
     SPY_TEST_USE_INTROSPECTION := SPY_TEST_USE_INTROSPECTION demo_env;
     select_port := select_port demo_env;
     lsp_root_path := lsp_root_path demo_env |}.

(** The demo session after the user has changed a plugin setting of the
    Python server, and nothing else. *)
Definition demo_env_retuned : Env :=
  {| main := main demo_env;
     conf_options := conf_options demo_env;
     LSP_LANGUAGES := LSP_LANGUAGES demo_env;
     opt_command_launch := opt_command_launch demo_env;
     opt_host := opt_host demo_env;
     opt_port := opt_port demo_env;
     opt_external := opt_external demo_env;
     opt_stdio := opt_stdio demo_env;
     python_configurations := "{pyls: {pyflakes: off}}";
     get_option := get_option demo_env;
     running_under_pytest := running_under_pytest demo_env;
     SPY_TEST_USE_INTROSPECTION := SPY_TEST_USE_INTROSPECTION demo_env;
     select_port := select_port demo_env;
     lsp_root_path := lsp_root_path demo_env |}.

(* ================================================================== *)
(** ** Brace matching in the editor

    [TextEditBaseWidget.find_brace_match]
    (spyder/plugins/editor/widgets/base.py).  The method reads the text
    to search with [get_text], which is not part of this file: [text] is
    what [get_text] returned, the list of its characters. *)

(** [str.find] and [str.rfind] bring their bounds into the string the
    way a slice does. *)
Definition adjust_start (len start : Z) : Z :=
  if (start <? 0)%Z then Z.max 0 (start + len) else start.

Definition adjust_end (len stop : Z) : Z :=
  if (stop >? len)%Z then len
  else if (stop <? 0)%Z then Z.max 0 (stop + len)
  else stop.

(** The least index in [[start, stop)] at which the text holds [c], or
    [-1]; the first character of [text] has the index [at_]. *)
Fixpoint first_index (c : ascii) (text : list ascii) (at_ start stop : nat)
  : Z :=
  match text with
  | [] => (-1)%Z
  | x :: rest =>
      if (start <=? at_)%nat && (at_ <? stop)%nat && Ascii.eqb x c
      then Z.of_nat at_
      else first_index c rest (S at_) start stop
  end.

(** The greatest such index, or [-1]. *)
Fixpoint last_index (c : ascii) (text : list ascii) (at_ start stop : nat)
  : Z :=
  match text with
  | [] => (-1)%Z
  | x :: rest =>
      let later := last_index c rest (S at_) start stop in
      if (later >? -1)%Z then later
      else if (start <=? at_)%nat && (at_ <? stop)%nat && Ascii.eqb x c
           then Z.of_nat at_
           else (-1)%Z
  end.

(** [text.find(c, start, stop)] for a character [c]. *)
Definition str_find (text : list ascii) (c : ascii) (start stop : Z) : Z :=
  let len := Z.of_nat (length text) in
  first_index c text 0 (Z.to_nat (adjust_start len start))
    (Z.to_nat (adjust_end len stop)).

(** [text.rfind(c, start, stop)] for a character [c]. *)
Definition str_rfind (text : list ascii) (c : ascii) (start stop : Z) : Z :=
  let len := Z.of_nat (length text) in
  last_index c text 0 (Z.to_nat (adjust_start len start))
    (Z.to_nat (adjust_end len stop)).

(** The two dictionaries [bracemap]. *)
Definition bracemap (forward : bool) (brace : ascii) : option ascii :=
  if forward then
    if Ascii.eqb brace "(" then Some ")"%char
    else if Ascii.eqb brace "[" then Some "]"%char
    else if Ascii.eqb brace "{" then Some "}"%char
    else None
  else
    if Ascii.eqb brace ")" then Some "("%char
    else if Ascii.eqb brace "]" then Some "["%char
    else if Ascii.eqb brace "}" then Some "{"%char
    else None.

(** The [while True] loop, run for at most [fuel] passes; [None] when the
    passes did not suffice, [Some r] when the loop returned [r].  [other]
    is [bracemap[brace]]. *)
Fixpoint brace_loop (fuel : nat) (forward : bool) (text : list ascii)
  (position : Z) (brace other : ascii) (i_start_open i_start_close : Z)
  : option (option Z) :=
  match fuel with
  | O => None
  | S fuel' =>
      let len := Z.of_nat (length text) in
      let i_close :=
        if forward then str_find text other i_start_close len
        else str_rfind text other 0 (i_start_close + 1) in
      if (i_close >? -1)%Z then
        let i_start_close' :=
          if forward then (i_close + 1)%Z else (i_close - 1)%Z in
        let i_open :=
          if forward then str_find text brace i_start_open i_close
          else str_rfind text brace i_close (i_start_open + 1) in
        if (i_open >? -1)%Z then
          let i_start_open' :=
            if forward then (i_open + 1)%Z else (i_open - 1)%Z in
          brace_loop fuel' forward text position brace other
            i_start_open' i_start_close'
        else
          Some (Some (if forward then (position + i_close)%Z
                      else (position - (len - i_close))%Z))
      else Some None
  end.

(** [find_brace_match], the loop being given as many passes as the text
    has characters, and one more.  The result is [Raise (KeyError _)] for
    a brace that [bracemap] does not know, [Ok None] when no matching
    brace is found and [Ok (Some p)] for the match at the position [p]. *)
Definition find_brace_match (text : list ascii) (position : Z)
  (brace : ascii) (forward : bool) : option (result (option Z)) :=
  let len := Z.of_nat (length text) in
  let i_start := if forward then 1%Z else (len - 1)%Z in
  match bracemap forward brace with
  | None => Some (Raise (KeyError (String brace EmptyString)))
  | Some other =>
      match brace_loop (S (length text)) forward text position brace other
              i_start i_start with
      | Some r => Some (Ok r)
      | None => None
      end
  end.

(** The textbook matcher, against which the search is compared: it reads
    the characters in turn, counts the braces of the kind [brace] that are
    still open, and stops at the first [other] brace it meets with none
    open.  [i] is the number of the character read. *)
Fixpoint depth_scan (brace other : ascii) (rest : list ascii) (i depth : nat)
  : option nat :=
  match rest with
  | [] => None
  | x :: rest' =>
      if Ascii.eqb x other then
        match depth with
        | O => Some i
        | S depth' => depth_scan brace other rest' (S i) depth'
        end
      else if Ascii.eqb x brace then depth_scan brace other rest' (S i) (S depth)
      else depth_scan brace other rest' (S i) depth
  end.

(** The first occurrence of [c] in a list: what is before it and what is
    after it. *)
Fixpoint split_first (c : ascii) (l : list ascii)
  : option (list ascii * list ascii) :=
  match l with
  | [] => None
  | x :: rest =>
      if Ascii.eqb x c then Some ([], rest)
      else match split_first c rest with
           | Some (pre, post) => Some (x :: pre, post)
           | None => None
           end
  end.

(** The last occurrence of [c] in a list. *)
Fixpoint split_last (c : ascii) (l : list ascii)
  : option (list ascii * list ascii) :=
  match l with
  | [] => None
  | x :: rest =>
      match split_last c rest with
      | Some (pre, post) => Some (x :: pre, post)
      | None => if Ascii.eqb x c then Some ([], rest) else None
      end
  end.

(** The number of [o] braces in a list of characters. *)
Definition opens (o : ascii) (l : list ascii) : nat := count_occ ascii_dec l o.

(* ================================================================== *)
(** ** What [update_server_list] does about one language *)

(** The calls by which the restart of [language] shows: the services of
    the editor are stopped for it, or a client object is created for
    it. *)
Definition restarts (language : string) (e : event) : bool :=
  match e with
  | LSPClient_new _ _ _ l => String.eqb l language
  | editor_stop_lsp_services l => String.eqb l language
  | _ => false
  end.

(** What [update_server_list] has done about a language it lists, when
    it has returned.  [s] is the plugin when the method was called, [evs]
    the calls the method made, in their order, and [s'] the plugin when
    it returned.
    - A language that was not registered has a stopped record with the
      new configuration and no client object, and an empty queue.
    - A language whose client [old] was running, and whose new
      configuration differs from the stored one at one of the six server
      keys: the services of the editor were stopped for it, those of the
      projects were stopped, and [stop()] was called on [old], once.
      Under the test gate the record is a stopped one with the new
      configuration and no client object.  Otherwise the record is
      running and holds an object [obj] that did not exist before, which
      was created for the language with the new configuration, its port
      chosen by [start_client], and on which [start()] was called once.
    - A language whose client [old] was running, and whose new
      configuration differs at none of the keys: the record is the one
      it was, [stop()] was not called on [old], the services of the
      editor were not stopped for the language and no client object was
      created for it, and [old] was handed the ['configurations'] of the
      new configuration. *)
Definition language_updated (env : Env) (language : string)
  (s : manager) (evs : list event) (s' : manager) : Prop :=
  let new_config := language_config env language in
  match PyDict.get language (clients s) with
  | None =>
      PyDict.get language (clients s') = Some (fresh_record env language) /\
      PyDict.get language (register_queue s') = Some []
  | Some c =>
      status c = RUNNING ->
      exists old,
        instance c = Some old /\
        if restart_needed (config_of c) new_config then
          In (editor_stop_lsp_services language) evs /\
          In projects_stop_lsp_services evs /\
          count (stops old) evs = 1 /\
          if pytest_gate env then
            PyDict.get language (clients s')
            = Some (fresh_record env language)
          else
            exists obj folder,
              next_obj s <= obj /\
              PyDict.get language (clients s') =
                Some {| status := RUNNING;
                        config_of := started_config env new_config;
                        instance := Some obj |} /\
              In (LSPClient_new obj (started_config env new_config) folder
                    language) evs /\
              count (starts obj) evs = 1
        else
          PyDict.get language (clients s') = Some c /\
          count (stops old) evs = 0 /\
          count (restarts language) evs = 0 /\
          In (client_send_plugin_configurations old
                (configurations new_config)) evs
  end.

(** What one pass of the loop, run for the language [x], has done about
    [x]: [t] is the plugin before the pass, [evs] the calls of the pass
    and [t'] the plugin after it. *)
Definition pass_result (env : Env) (x : string)
  (t : manager) (evs : list event) (t' : manager) : Prop :=
  let new_config := language_config env x in
  match PyDict.get x (clients t) with
  | None =>
      PyDict.get x (clients t') = Some (fresh_record env x) /\
      PyDict.get x (register_queue t') = Some []
  | Some c =>
      if restart_needed (config_of c) new_config then
        if String.eqb (status c) RUNNING then
          exists old,
            instance c = Some old /\
            In (editor_stop_lsp_services x) evs /\
            In projects_stop_lsp_services evs /\
            In (client_stop old) evs /\
            if pytest_gate env then
              PyDict.get x (clients t') = Some (fresh_record env x)
            else
              PyDict.get x (clients t') =
                Some {| status := RUNNING;
                        config_of := started_config env new_config;
                        instance := Some (next_obj t) |} /\
              PyDict.get x (register_queue t') = Some []
        else
          PyDict.get x (clients t') = Some (fresh_record env x) /\
          PyDict.get x (register_queue t')
          = PyDict.get x (register_queue t)
      else
        PyDict.get x (clients t') = Some c /\
        PyDict.get x (register_queue t') = PyDict.get x (register_queue t) /\
        count (restarts x) evs = 0 /\
        (status c = RUNNING ->
         exists old,
           instance c = Some old /\
           In (client_send_plugin_configurations old
                 (configurations new_config)) evs)
  end.

(** How far the loop has come with the language [l]: [s] is the plugin
    when [update_server_list] was called, [t] the plugin now, [evs] the
    calls made since, and [passed] tells whether a pass for [l] has been
    made. *)
Definition progress (env : Env) (l : string) (s : manager) (passed : bool)
  (t : manager) (evs : list event) : Prop :=
  let new_config := language_config env l in
  match PyDict.get l (clients s) with
  | None =>
      if passed then
        PyDict.get l (clients t) = Some (fresh_record env l) /\
        PyDict.get l (register_queue t) = Some []
      else PyDict.get l (clients t) = None
  | Some c =>
      if restart_needed (config_of c) new_config then
        status c = RUNNING ->
        if passed then
          exists old,
            instance c = Some old /\
            In (editor_stop_lsp_services l) evs /\
            In projects_stop_lsp_services evs /\
            In (client_stop old) evs /\
            if pytest_gate env then
              PyDict.get l (clients t) = Some (fresh_record env l)
            else
              exists obj,
                next_obj s <= obj /\
                PyDict.get l (clients t) =
                  Some {| status := RUNNING;
                          config_of := started_config env new_config;
                          instance := Some obj |} /\
                PyDict.get l (register_queue t) = Some []
        else PyDict.get l (clients t) = Some c
      else
        PyDict.get l (clients t) = Some c /\
        count (restarts l) evs = 0 /\
        (passed = true -> status c = RUNNING ->
         exists old,
           instance c = Some old /\
           In (client_send_plugin_configurations old
                 (configurations new_config)) evs)
  end.

(** What holds while the loop of [update_server_list] runs; [all] are the
    languages the loop is run for and [done] those it has passed. *)
Definition loop_inv (env : Env) (all : list string) (s : manager)
  (done : list string) (t : manager) : Prop :=
  well_formed t /\
  (forall l, In l all -> restart_goes_through env l t) /\
  exists evs,
    trace t = trace s ++ evs /\
    next_obj s <= next_obj t /\
    (pytest_gate env = true -> next_obj t = next_obj s) /\
    shared_settings evs =
      (if in_list "python" done then Some (python_configurations env)
       else None) /\
    forall l, progress env l s (in_list l done) t evs.

(* ================================================================== *)
(** ** Facts about dictionaries *)

Unset Implicit Arguments.

Module PyDictFacts.
Import PyDict.

Section Facts.
Variable V : Type.
Implicit Types (d : PyDict.t V) (v : V).

Lemma get_set_same (k : string) v d :
  get k (set k v d) = Some v.
Proof.
  induction d as [|[k' v'] rest IH]; simpl.
  - now rewrite String.eqb_refl.
  - destruct (String.eqb k k') eqn:E; simpl; rewrite E; auto.
Qed.

Lemma get_set_other (k k' : string) v d :
  k <> k' -> get k (set k' v d) = get k d.
Proof.
  intros Hne. induction d as [|[k0 v0] rest IH]; simpl.
  - apply String.eqb_neq in Hne. now rewrite Hne.
  - destruct (String.eqb k' k0) eqn:E; simpl.
    + apply String.eqb_eq in E. subst k0.
      apply String.eqb_neq in Hne. now rewrite Hne.
    + now rewrite IH.
Qed.

Lemma get_set (k k' : string) v d :
  get k (set k' v d) = if String.eqb k k' then Some v else get k d.
Proof.
  destruct (String.eqb k k') eqn:E.
  - apply String.eqb_eq in E. subst. apply get_set_same.
  - apply String.eqb_neq in E. now apply get_set_other.
Qed.

Lemma contains_set (k k' : string) v d :
  contains k (set k' v d) = String.eqb k k' || contains k d.
Proof.
  unfold contains. rewrite get_set. now destruct (String.eqb k k').
Qed.

Lemma get_In_keys (k : string) d :
  In k (keys d) <-> get k d <> None.
Proof.
  induction d as [|[k' v'] rest IH]; simpl.
  - split; [tauto | congruence].
  - destruct (String.eqb k k') eqn:E.
    + apply String.eqb_eq in E. subst. split; [congruence | auto].
    + apply String.eqb_neq in E. rewrite <- IH. split; [|tauto].
      intros [H|H]; [congruence | exact H].
Qed.

Lemma contains_In_keys (k : string) d :
  contains k d = true <-> In k (keys d).
Proof.
  rewrite get_In_keys. unfold contains.
  destruct (get k d); split; congruence.
Qed.

Lemma keys_set_bound (k : string) v d :
  get k d <> None -> keys (set k v d) = keys d.
Proof.
  induction d as [|[k' v'] rest IH]; simpl; [congruence|].
  destruct (String.eqb k k') eqn:E; simpl; [reflexivity|].
  intros H. now rewrite IH.
Qed.

Lemma keys_set_new (k : string) v d :
  get k d = None -> keys (set k v d) = keys d ++ [k].
Proof.
  induction d as [|[k' v'] rest IH]; simpl; [reflexivity|].
  destruct (String.eqb k k') eqn:E; simpl; [congruence|].
  intros H. now rewrite IH.
Qed.

Lemma NoDup_keys_set (k : string) v d :
  NoDup (keys d) -> NoDup (keys (set k v d)).
Proof.
  intros Hd. destruct (get k d) eqn:E.
  - rewrite keys_set_bound; [exact Hd | congruence].
  - rewrite keys_set_new by exact E.
    apply NoDup_app; [exact Hd | repeat constructor; simpl; tauto |].
    intros x Hx [<-|[]]. apply get_In_keys in Hx. congruence.
Qed.

Lemma get_remove_same (k : string) d : get k (remove k d) = None.
Proof.
  induction d as [|[k' v'] rest IH]; simpl; [reflexivity|].
  destruct (String.eqb k k') eqn:E; simpl; [exact IH|].
  now rewrite E.
Qed.

Lemma get_remove_other (k k' : string) d :
  k <> k' -> get k (remove k' d) = get k d.
Proof.
  intros Hne. induction d as [|[k0 v0] rest IH]; simpl; [reflexivity|].
  destruct (String.eqb k' k0) eqn:E; simpl.
  - apply String.eqb_eq in E. subst k0.
    apply String.eqb_neq in Hne. now rewrite Hne.
  - now rewrite IH.
Qed.

End Facts.

End PyDictFacts.

(* ================================================================== *)
(** ** The methods in closed form *)

Import PyDictFacts.

Lemma set_set (V : Type) (k : string) (v v' : V) (d : PyDict.t V) :
  PyDict.set k v' (PyDict.set k v d) = PyDict.set k v' d.
Proof.
  induction d as [|[k0 v0] rest IH]; simpl.
  - now rewrite String.eqb_refl.
  - destruct (String.eqb k k0) eqn:E; simpl; rewrite E;
      [reflexivity | now rewrite IH].
Qed.

(** Unfolding of the monad and of the accesses to the two dictionaries. *)
Ltac unfold_prims :=
  unfold client_update, clients_getitem, clients_setitem,
    register_queue_getitem, register_queue_setitem, put_clients,
    put_register_queue, new_obj, call, gets, bind, ret, raise in *.

Lemma register_client_instance_eq env obj s :
  register_client_instance env obj s =
  (Ok tt, {| clients := clients s; register_queue := register_queue s;
             next_obj := next_obj s;
             trace := trace s ++ signal_connections env obj |}).
Proof.
  unfold register_client_instance, signal_connections, bind, call, ret.
  destruct s as [cs q n t].
  destruct (main env) as [[[] [] [] p]|]; cbn;
    rewrite <- ?app_assoc, ?app_nil_r; reflexivity.
Qed.

Lemma close_client_eq l s :
  close_client l s =
  match PyDict.get l (clients s) with
  | None => (Ok tt, s)
  | Some c =>
      if String.eqb (status c) RUNNING then
        match instance c with
        | Some obj =>
            (Ok tt, {| clients := PyDict.set l (set_status STOPPED c) (clients s);
                       register_queue := register_queue s;
                       next_obj := next_obj s;
                       trace := trace s ++ [client_stop obj] |})
        | None => (Raise (AttributeError "stop"), s)
        end
      else
        (Ok tt, {| clients := PyDict.set l (set_status STOPPED c) (clients s);
                   register_queue := register_queue s;
                   next_obj := next_obj s;
                   trace := trace s |})
  end.
Proof.
  unfold close_client, client_update, clients_getitem, bind, gets. cbn.
  destruct (PyDict.get l (clients s)) as [c|] eqn:Hg; cbn; auto.
  destruct (String.eqb (status c) RUNNING); cbn.
  - destruct (instance c); cbn; [rewrite Hg|]; reflexivity.
  - rewrite Hg. reflexivity.
Qed.
Lemma start_client_eq env l s :
  start_client env l s =
  match PyDict.get l (clients s) with
  | None => (Ok false, s)
  | Some c =>
      match PyDict.get l (register_queue s) with
      | None => (Raise (KeyError l), s)
      | Some queue =>
          if pytest_gate env then (Ok false, s)
          else if String.eqb (status c) STOPPED then
            let obj := next_obj s in
            let cfg := started_config env (config_of c) in
            let cs := PyDict.set l {| status := RUNNING; config_of := cfg;
                                     instance := Some obj |} (clients s) in
            let t := trace s ++ start_events env l cfg obj in
            match queue with
            | [] =>
                (Ok false, {| clients := cs;
                              register_queue := PyDict.set l [] (register_queue s);
                              next_obj := S obj; trace := t |})
            | _ :: _ =>
                (Raise (AttributeError "register_file"),
                 {| clients := cs; register_queue := register_queue s;
                    next_obj := S obj; trace := t |})
            end
          else (Ok (String.eqb (status c) RUNNING), s)
      end
  end.
Proof.
  unfold start_client, pytest_gate, PyDict.contains. unfold_prims. cbn.
  destruct (PyDict.get l (clients s)) as [c|] eqn:Hg; cbn; auto.
  destruct (PyDict.get l (register_queue s)) as [queue|] eqn:Hq; cbn; auto.
  destruct (running_under_pytest env
            && negb (environ_set (SPY_TEST_USE_INTROSPECTION env)));
    cbn; auto.
  rewrite Hg.
  destruct (String.eqb (status c) STOPPED) eqn:Hst; cbn; auto.
  apply String.eqb_eq in Hst.
  unfold started_config, start_events.
  destruct (external (config_of c)) eqn:Hext; cbn;
    repeat first [ progress cbn | rewrite Hg | rewrite get_set_same
                 | rewrite register_client_instance_eq | rewrite set_set ].
  all: destruct queue as [|entry queue]; cbn; rewrite ?Hst; cbn;
    unfold set_status, set_instance, set_config; cbn;
    rewrite <- !app_assoc; reflexivity.
Qed.

Lemma register_file_eq l f e s :
  register_file l f e s =
  match PyDict.get l (clients s) with
  | None => (Ok tt, s)
  | Some c =>
      match instance c with
      | None =>
          match PyDict.get l (register_queue s) with
          | Some queue =>
              (Ok tt, {| clients := clients s;
                         register_queue :=
                           PyDict.set l (queue ++ [(f, e)]) (register_queue s);
                         next_obj := next_obj s;
                         trace := trace s |})
          | None => (Raise (KeyError l), s)
          end
      | Some obj =>
          (Ok tt, {| clients := clients s;
                     register_queue := register_queue s;
                     next_obj := next_obj s;
                     trace := trace s ++ [client_register_file obj f e] |})
      end
  end.
Proof.
  unfold register_file. unfold_prims. cbn.
  destruct (PyDict.get l (clients s)) as [c|]; cbn; auto.
  destruct (instance c); cbn; auto.
  destruct (PyDict.get l (register_queue s)); reflexivity.
Qed.

Lemma send_request_eq language request params s :
  send_request language request params s =
  match clients_lookup language (clients s) with
  | None => (Ok tt, s)
  | Some c =>
      if String.eqb (status c) RUNNING then
        match instance c with
        | Some obj =>
            (Ok tt, {| clients := clients s;
                       register_queue := register_queue s;
                       next_obj := next_obj s;
                       trace := trace s
                                ++ [client_perform_request obj request params] |})
        | None => (Raise (AttributeError "perform_request"), s)
        end
      else (Ok tt, s)
  end.
Proof.
  unfold send_request. unfold_prims. cbn.
  destruct (clients_lookup language (clients s)) as [c|]; cbn; auto.
  destruct (String.eqb (status c) RUNNING); cbn; auto.
  destruct (instance c); reflexivity.
Qed.

(** [get_language_config] returns [language_config] and leaves the
    plugin as [wrote] has it. *)
Lemma get_language_config_eq env l s :
  get_language_config env l s = (Ok (language_config env l), wrote env l s).
Proof.
  unfold get_language_config, generate_python_config, language_config, wrote,
    config_writes.
  destruct (String.eqb l "python"); unfold_prims; [reflexivity|].
  destruct s. cbn. rewrite app_nil_r. reflexivity.
Qed.

Lemma bind_ok (A B : Type) (m : M A) (k : A -> M B) s a s1 :
  m s = (Ok a, s1) -> bind m k s = k a s1.
Proof. intros H. unfold bind. rewrite H. reflexivity. Qed.

(** [update_server] in closed form, on the plugin [s] as
    [get_language_config] has left it; the restart of a running client
    ends in [start_client] on the state [restart_state]. *)
Lemma update_server_eq env l s0 :
  update_server env l s0 =
  let s := wrote env l s0 in
  match PyDict.get l (clients s) with
  | None =>
      (Ok tt, {| clients := PyDict.set l (fresh_record env l) (clients s);
                 register_queue := PyDict.set l [] (register_queue s);
                 next_obj := next_obj s; trace := trace s |})
  | Some c =>
      if restart_needed (config_of c) (language_config env l) then
        if String.eqb (status c) STOPPED then
          (Ok tt, {| clients := PyDict.set l (fresh_record env l) (clients s);
                     register_queue := register_queue s;
                     next_obj := next_obj s; trace := trace s |})
        else if String.eqb (status c) RUNNING then
          match restart_state env l c s with
          | inl s1 =>
              (match fst (start_client env l s1) with
               | Ok _ => Ok tt
               | Raise e => Raise e
               end, snd (start_client env l s1))
          | inr failed => failed
          end
        else (Ok tt, s)
      else if String.eqb (status c) RUNNING then
        match instance c with
        | Some obj =>
            (Ok tt, {| clients := clients s;
                       register_queue := register_queue s;
                       next_obj := next_obj s;
                       trace := trace s
                                ++ [client_send_plugin_configurations obj
                                      (configurations (language_config env l))] |})
        | None => (Raise (AttributeError "send_plugin_configurations"), s)
        end
      else (Ok tt, s)
  end.
Proof.
  unfold update_server.
  rewrite (bind_ok _ _ _ _ _ _ _ (get_language_config_eq env l s0)).
  change {| status := STOPPED; config_of := language_config env l;
            instance := None |} with (fresh_record env l).
  cbv zeta. generalize (wrote env l s0). clear s0. intros s.
  unfold restart_state, main_editor_stop_lsp_services,
    main_projects_stop_lsp_services, PyDict.contains.
  unfold_prims. cbn.
  destruct (PyDict.get l (clients s)) as [c|] eqn:Hg; cbn; [|reflexivity].
  rewrite ?Hg; cbn.
  destruct (restart_needed (config_of c) (language_config env l)); cbn.
  - destruct (String.eqb (status c) STOPPED); cbn; [reflexivity|].
    destruct (String.eqb (status c) RUNNING) eqn:Hr; cbn; [|reflexivity].
    destruct (main env) as [[[] co [] p]|]; cbn; try reflexivity.
    rewrite close_client_eq. cbn. rewrite Hg, Hr.
    destruct (instance c) as [obj|]; cbn;
      [|rewrite <- !app_assoc; reflexivity].
    rewrite set_set, <- !app_assoc. cbn.
    match goal with |- context [start_client env l ?st] =>
      destruct (start_client env l st) as [[b|e] s2] end; reflexivity.
  - destruct (String.eqb (status c) RUNNING); cbn; [|reflexivity].
    destruct (instance c); reflexivity.
Qed.

(* ================================================================== *)
(** ** Every method keeps the registry invariant *)

Lemma snd_bind_ret (A B : Type) (m : M A) (b : B) s :
  snd ((m ;; ret b) s) = snd (m s).
Proof. unfold bind, ret. destruct (m s) as [[a|e] s1]; reflexivity. Qed.

Lemma fst_bind_ret (A B : Type) (m : M A) (b : B) s :
  fst ((m ;; ret b) s) =
  match fst (m s) with Ok _ => Ok b | Raise e => Raise e end.
Proof. unfold bind, ret. destruct (m s) as [[a|e] s1]; reflexivity. Qed.

Lemma new_plugin_eq env :
  new_plugin env =
  snd (for_each (get_languages env) (fun language =>
         config <- get_language_config env language ;;
         clients_setitem language {| status := STOPPED;
                                     config_of := config;
                                     instance := None |} ;;
         register_queue_setitem language []) blank).
Proof. reflexivity. Qed.

(** One pass of the loop of [__init__], in closed form. *)
Lemma init_pass_eq env l s :
  (config <- get_language_config env l ;;
   clients_setitem l {| status := STOPPED; config_of := config;
                        instance := None |} ;;
   register_queue_setitem l []) s =
  (Ok tt, {| clients := PyDict.set l (fresh_record env l) (clients s);
             register_queue := PyDict.set l [] (register_queue s);
             next_obj := next_obj s;
             trace := trace s ++ config_writes env l |}).
Proof.
  rewrite (bind_ok _ _ _ _ _ _ _ (get_language_config_eq env l s)).
  reflexivity.
Qed.

(** The methods that only talk to the outside. *)
Lemma same_registry_refl s : same_registry s s.
Proof. repeat split. Qed.

Lemma same_registry_trans s1 s2 s3 :
  same_registry s1 s2 -> same_registry s2 s3 -> same_registry s1 s3.
Proof.
  intros (H1 & H2 & H3) (H4 & H5 & H6). repeat split; congruence.
Qed.

Lemma for_each_same_registry (A : Type) (body : A -> M unit) (xs : list A) :
  (forall x s, same_registry s (snd (body x s))) ->
  forall s, same_registry s (snd (for_each xs body s)).
Proof.
  intros Hbody. induction xs as [|x rest IH]; intros s; cbn;
    [apply same_registry_refl|].
  unfold bind. specialize (Hbody x s).
  destruct (body x s) as [[[]|e] s1]; cbn in *; [|exact Hbody].
  eapply same_registry_trans; [exact Hbody | apply IH].
Qed.

Lemma register_client_instance_same env obj s :
  same_registry s (snd (register_client_instance env obj s)).
Proof. rewrite register_client_instance_eq. repeat split. Qed.

Lemma report_server_error_same env error s :
  same_registry s (snd (report_server_error env error s)).
Proof.
  unfold report_server_error.
  destruct (main env) as [[ed [] pr p]|]; cbn; repeat split.
Qed.

Lemma reinitialize_pass_same env x s :
  same_registry s
    (snd ((language_client <- clients_getitem x ;;
           if String.eqb (status language_client) RUNNING then
             main_editor_stop_lsp_services env x ;;
             client_reinitialize (instance language_client)
               (get_root_path env x)
           else ret tt) s)).
Proof.
  unfold main_editor_stop_lsp_services, client_reinitialize.
  unfold_prims. cbn.
  destruct (PyDict.get x (clients s)) as [c|]; [|repeat split].
  destruct (String.eqb (status c) RUNNING); [|repeat split].
  destruct (main env) as [[[] co pr p]|]; cbn; try solve [repeat split].
  destruct (instance c); repeat split.
Qed.

Lemma reinitialize_all_clients_same env s :
  same_registry s (snd (reinitialize_all_clients env s)).
Proof.
  unfold reinitialize_all_clients, main_projects_stop_lsp_services.
  destruct (main env) as [[ed co [] p]|] eqn:Hm; try solve [repeat split].
  unfold bind at 1. unfold call at 1. unfold bind at 1. unfold gets at 1.
  cbn [projects clients].
  match goal with |- same_registry s (snd (for_each ?ls ?b ?st)) =>
    apply (same_registry_trans s st);
      [repeat split | apply for_each_same_registry] end.
  intros x s0. apply reinitialize_pass_same.
Qed.

Section Preservation.

(** The condition on the records: kept when more objects exist, by
    stopping, and true of the records the plugin builds. *)
Variable P : nat -> client -> Prop.
Hypothesis P_mono : forall n n' c, n <= n' -> P n c -> P n' c.
Hypothesis P_stopped : forall n c, P n c -> P n (set_status STOPPED c).
Hypothesis P_fresh : forall n env l, P n (fresh_record env l).
Hypothesis P_started : forall n cfg,
  P (S n) {| status := RUNNING; config_of := cfg; instance := Some n |}.

Let inv (s : manager) : Prop :=
  dict_inv P (clients s) (register_queue s) (next_obj s).

Lemma parts_mono cs q n n' : n <= n' -> dict_inv P cs q n -> dict_inv P cs q n'.
Proof.
  intros Hle (Hnd & Hok & Hsub). split; [|split]; auto.
  intros l c Hg. eapply P_mono; eauto.
Qed.

Lemma parts_set_queue cs q n l x :
  dict_inv P cs q n -> dict_inv P cs (PyDict.set l x q) n.
Proof.
  intros (Hnd & Hok & Hsub). split; [|split]; auto.
  intros k Hk. rewrite contains_set, (Hsub _ Hk). apply orb_true_r.
Qed.

Lemma parts_set_client cs q n l c :
  dict_inv P cs q n -> P n c -> PyDict.contains l q = true ->
  dict_inv P (PyDict.set l c cs) q n.
Proof.
  intros (Hnd & Hok & Hsub) Hc Hq. split; [|split].
  - now apply NoDup_keys_set.
  - intros k c'. rewrite get_set.
    destruct (String.eqb k l); [intros [= <-]; auto | apply Hok].
  - intros k. rewrite contains_set.
    destruct (String.eqb k l) eqn:E; simpl; auto.
    apply String.eqb_eq in E. now subst.
Qed.

Lemma parts_queue_bound cs q n l c :
  dict_inv P cs q n -> PyDict.get l cs = Some c -> PyDict.contains l q = true.
Proof.
  intros (_ & _ & Hsub) Hg. apply Hsub. unfold PyDict.contains. now rewrite Hg.
Qed.

Lemma parts_client cs q n l c :
  dict_inv P cs q n -> PyDict.get l cs = Some c -> P n c.
Proof. intros (_ & Hok & _) Hg. eauto. Qed.

(** Registering a language: the record, then its queue. *)
Lemma parts_register cs q n l c x :
  dict_inv P cs q n -> P n c ->
  dict_inv P (PyDict.set l c cs) (PyDict.set l x q) n.
Proof.
  intros H Hc. apply parts_set_client; auto using parts_set_queue.
  rewrite contains_set, String.eqb_refl. reflexivity.
Qed.

Lemma register_file_inv l f e s : inv s -> inv (snd (register_file l f e s)).
Proof.
  intros H. rewrite register_file_eq.
  destruct (PyDict.get l (clients s)) as [c|]; auto.
  destruct (instance c); auto.
  destruct (PyDict.get l (register_queue s)); auto.
  now apply parts_set_queue.
Qed.

Lemma close_client_inv l s : inv s -> inv (snd (close_client l s)).
Proof.
  intros H. rewrite close_client_eq.
  destruct (PyDict.get l (clients s)) as [c|] eqn:Hg; auto.
  assert (Hc : P (next_obj s) (set_status STOPPED c))
    by (apply P_stopped; eapply parts_client; eauto).
  assert (Hq := parts_queue_bound _ _ _ _ _ H Hg).
  destruct (String.eqb (status c) RUNNING); [destruct (instance c)|]; auto;
    now apply parts_set_client.
Qed.

Lemma start_client_inv env l s : inv s -> inv (snd (start_client env l s)).
Proof.
  intros H. rewrite start_client_eq.
  destruct (PyDict.get l (clients s)) as [c|] eqn:Hg; auto.
  destruct (PyDict.get l (register_queue s)) as [queue|] eqn:Hq; auto.
  destruct (pytest_gate env); auto.
  destruct (String.eqb (status c) STOPPED); auto.
  assert (Hb := parts_queue_bound _ _ _ _ _ H Hg).
  assert (H' : dict_inv P (clients s) (register_queue s) (S (next_obj s)))
    by (eapply parts_mono; [|exact H]; lia).
  destruct queue; unfold inv; cbn.
  - apply parts_register; auto.
  - apply parts_set_client; auto.
Qed.

Lemma send_request_inv language request params s :
  inv s -> inv (snd (send_request language request params s)).
Proof.
  intros H. rewrite send_request_eq.
  destruct (clients_lookup language (clients s)) as [c|]; auto.
  destruct (String.eqb (status c) RUNNING); auto.
  destruct (instance c); auto.
Qed.

Lemma update_server_inv env l s : inv s -> inv (snd (update_server env l s)).
Proof.
  intros H0. rewrite update_server_eq. cbv zeta.
  assert (H : inv (wrote env l s)) by exact H0.
  clear H0. revert H. generalize (wrote env l s). clear s. intros s H.
  destruct (PyDict.get l (clients s)) as [c|] eqn:Hg.
  2:{ apply parts_register; auto. }
  assert (Hb := parts_queue_bound _ _ _ _ _ H Hg).
  destruct (restart_needed _ _).
  - destruct (String.eqb (status c) STOPPED).
    { apply parts_set_client; auto. }
    destruct (String.eqb (status c) RUNNING); auto.
    unfold restart_state.
    destruct (main env) as [[[] co [] p]|]; auto.
    destruct (instance c); auto. cbn.
    apply start_client_inv.
    apply parts_set_client; auto.
  - destruct (String.eqb (status c) RUNNING); auto.
    destruct (instance c); auto.
Qed.

Lemma for_each_inv (A : Type) (body : A -> M unit) (xs : list A) :
  (forall x s, inv s -> inv (snd (body x s))) ->
  forall s, inv s -> inv (snd (for_each xs body s)).
Proof.
  intros Hbody. induction xs as [|x rest IH]; intros s H; cbn; auto.
  unfold bind. specialize (Hbody x s H).
  destruct (body x s) as [[[]|e] s1]; cbn in *; auto.
Qed.

Lemma shutdown_inv s : inv s -> inv (snd (shutdown s)).
Proof.
  intros H. unfold shutdown, bind, gets.
  apply for_each_inv; auto using close_client_inv.
Qed.

Lemma update_client_status_inv active_set s :
  inv s -> inv (snd (update_client_status active_set s)).
Proof.
  intros H. unfold update_client_status, bind, gets.
  apply for_each_inv; auto.
  intros l s0 H0.
  destruct (negb (in_list l active_set)); auto using close_client_inv.
Qed.

Lemma update_server_list_inv env s :
  inv s -> inv (snd (update_server_list env s)).
Proof.
  intros H. unfold update_server_list.
  apply for_each_inv; auto using update_server_inv.
Qed.

Lemma broadcast_request_inv request params s :
  inv s -> inv (snd (broadcast_request request params s)).
Proof.
  intros H. unfold broadcast_request. rewrite snd_bind_ret.
  destruct (truthy _); [now apply send_request_inv|].
  unfold bind, gets. apply for_each_inv; auto using send_request_inv.
Qed.

Lemma same_registry_inv s s' : same_registry s s' -> inv s -> inv s'.
Proof.
  intros (Hc & Hq & Hn) H. unfold inv. now rewrite Hc, Hq, Hn.
Qed.

Lemma reinitialize_all_clients_inv env s :
  inv s -> inv (snd (reinitialize_all_clients env s)).
Proof. apply same_registry_inv, reinitialize_all_clients_same. Qed.

Lemma report_server_error_inv env error s :
  inv s -> inv (snd (report_server_error env error s)).
Proof. apply same_registry_inv, report_server_error_same. Qed.

Lemma register_client_instance_inv env obj s :
  inv s -> inv (snd (register_client_instance env obj s)).
Proof. apply same_registry_inv, register_client_instance_same. Qed.

Lemma blank_inv : inv blank.
Proof.
  split; [|split]; cbn; [constructor | intros; discriminate ..].
Qed.

Lemma new_plugin_inv env : inv (new_plugin env).
Proof.
  rewrite new_plugin_eq. apply for_each_inv; [|exact blank_inv].
  intros l s H. rewrite init_pass_eq. cbn [snd].
  apply parts_register; auto.
Qed.

Lemma reachable_inv s : reachable s -> inv s.
Proof.
  induction 1;
    auto using new_plugin_inv, register_file_inv, start_client_inv,
      close_client_inv, shutdown_inv, update_server_list_inv,
      update_client_status_inv, send_request_inv, broadcast_request_inv,
      reinitialize_all_clients_inv, report_server_error_inv,
      register_client_instance_inv.
Qed.

End Preservation.

Lemma status_ok_mono n n' c : n <= n' -> status_ok n c -> status_ok n' c.
Proof. auto. Qed.

Lemma status_ok_stopped n c : status_ok n c -> status_ok n (set_status STOPPED c).
Proof. intros _. now left. Qed.

Lemma status_ok_fresh n env l : status_ok n (fresh_record env l).
Proof. now left. Qed.

Lemma status_ok_started n cfg :
  status_ok (S n) {| status := RUNNING; config_of := cfg; instance := Some n |}.
Proof. now right. Qed.

Lemma client_ok_mono n n' c : n <= n' -> client_ok n c -> client_ok n' c.
Proof.
  intros Hle (Hs & Hr & Hi). split; [|split]; auto.
  intros obj Ho. specialize (Hi _ Ho). lia.
Qed.

Lemma client_ok_stopped n c : client_ok n c -> client_ok n (set_status STOPPED c).
Proof.
  intros (Hs & Hr & Hi). split; [|split]; cbn; auto. discriminate.
Qed.

Lemma client_ok_fresh n env l : client_ok n (fresh_record env l).
Proof.
  split; [|split]; cbn; auto; discriminate.
Qed.

Lemma client_ok_started n cfg :
  client_ok (S n) {| status := RUNNING; config_of := cfg; instance := Some n |}.
Proof.
  split; [|split]; cbn; auto.
  - discriminate.
  - intros obj [= <-]. lia.
Qed.

Lemma registry_inv_dict_inv s :
  registry_inv s <->
  dict_inv status_ok (clients s) (register_queue s) (next_obj s).
Proof. reflexivity. Qed.

Lemma well_formed_registry_inv s : well_formed s -> registry_inv s.
Proof.
  intros (Hnd & Hok & Hsub). split; [|split]; auto.
  intros l c Hg. apply (Hok l c Hg).
Qed.

Lemma reachable_well_formed s : reachable s -> well_formed s.
Proof.
  apply (reachable_inv client_ok).
  - exact client_ok_mono.
  - exact client_ok_stopped.
  - exact client_ok_fresh.
  - exact client_ok_started.
Qed.

(** Closing hints for the two instances of the preservation lemmas. *)
Create HintDb registry.
#[local] Hint Resolve status_ok_mono status_ok_stopped status_ok_fresh
  status_ok_started client_ok_mono client_ok_stopped client_ok_fresh
  client_ok_started : registry.

(* ================================================================== *)
(** ** Registration, requests and closing, language by language *)

(** C10: for a language that is no key of [clients], [register_file],
    [send_request], [close_client] and [start_client] return without
    raising, [start_client] returns [False], and the plugin (its
    [clients], its [register_queue], and the calls made so far) is left as
    it was. *)
Theorem unregistered_language_is_ignored
  (env : Env) (s : manager) (language filename request : string)
  (codeeditor : nat) (params : params_t) :
  PyDict.get language (clients s) = None ->
  register_file language filename codeeditor s = (Ok tt, s) /\
  send_request (PStr language) request params s = (Ok tt, s) /\
  close_client language s = (Ok tt, s) /\
  start_client env language s = (Ok false, s).
Proof.
  intros Hg.
  rewrite register_file_eq, send_request_eq, close_client_eq, start_client_eq.
  cbn. rewrite Hg. auto.
Qed.

Lemma unregistered_language_is_ignored_witness :
  PyDict.get "julia" (clients demo_started) = None /\
  register_file "julia" "a.jl" 3 demo_started = (Ok tt, demo_started) /\
  send_request (PStr "julia") "textDocument/didOpen" [("file", PStr "a.jl")]
    demo_started = (Ok tt, demo_started) /\
  close_client "julia" demo_started = (Ok tt, demo_started) /\
  start_client demo_env "julia" demo_started = (Ok false, demo_started).
Proof.
  split; [reflexivity|].
  apply (unregistered_language_is_ignored demo_env demo_started "julia" "a.jl"
           "textDocument/didOpen" 3 [("file", PStr "a.jl")]).
  reflexivity.
Defined.

Lemma demo_plugin_reachable : reachable demo_plugin.
Proof. apply reach_init. Qed.

Lemma demo_queued_reachable : reachable demo_queued.
Proof. apply reach_register_file, demo_plugin_reachable. Qed.

Lemma demo_started_reachable : reachable demo_started.
Proof. apply reach_start_client, demo_plugin_reachable. Qed.

(** C2: for a language that is a key of [clients], [register_file]
    appends [(filename, codeeditor)] to the language's queue when the
    record's ['instance'] is [None]; otherwise it calls [register_file]
    on the instance and leaves [register_queue] as it was.  In both cases
    [clients] is untouched and the method returns. *)
Theorem register_file_queues_or_forwards
  (s : manager) (language filename : string) (codeeditor : nat)
  (entry : client) :
  reachable s ->
  PyDict.get language (clients s) = Some entry ->
  match instance entry with
  | None =>
      exists queue,
        PyDict.get language (register_queue s) = Some queue /\
        register_file language filename codeeditor s =
        (Ok tt,
         {| clients := clients s;
            register_queue :=
              PyDict.set language (queue ++ [(filename, codeeditor)])
                (register_queue s);
            next_obj := next_obj s;
            trace := trace s |})
  | Some obj =>
      register_file language filename codeeditor s =
      (Ok tt,
       {| clients := clients s;
          register_queue := register_queue s;
          next_obj := next_obj s;
          trace := trace s ++ [client_register_file obj filename codeeditor] |})
  end.
Proof.
  intros Hr Hg. apply reachable_well_formed in Hr.
  rewrite register_file_eq, Hg.
  destruct (instance entry) as [obj|]; [reflexivity|].
  pose proof (parts_queue_bound _ _ _ _ _ _ Hr Hg) as Hq.
  unfold PyDict.contains in Hq.
  destruct (PyDict.get language (register_queue s)) as [queue|];
    [|discriminate].
  exists queue. split; reflexivity.
Qed.

Lemma register_file_queues_or_forwards_witness :
  PyDict.get "python" (register_queue
    (snd (register_file "python" "script.py" 7 demo_plugin)))
  = Some [("script.py", 7)].
Proof.
  pose proof (register_file_queues_or_forwards demo_plugin "python"
                "script.py" 7 (fresh_record demo_env "python")
                demo_plugin_reachable eq_refl) as H.
  cbn in H. destruct H as (queue & Hq & ->).
  cbn. injection Hq as <-. reflexivity.
Defined.

(** C5: [send_request] calls [perform_request (request, params)] on the
    client of [language] exactly when [language] is a key of [clients]
    whose record has status ['running']; in every other case it makes no
    call and leaves the plugin as it was.  In either case [clients] and
    [register_queue] are unchanged and the method returns. *)
Theorem send_request_guard
  (s : manager) (language : pyval) (request : string) (params : params_t) :
  reachable s ->
  (forall c,
      clients_lookup language (clients s) = Some c ->
      status c = RUNNING ->
      exists obj,
        instance c = Some obj /\
        send_request language request params s =
        (Ok tt,
         {| clients := clients s;
            register_queue := register_queue s;
            next_obj := next_obj s;
            trace := trace s ++ [client_perform_request obj request params] |}))
  /\
  ((forall c, clients_lookup language (clients s) = Some c ->
              status c <> RUNNING) ->
   send_request language request params s = (Ok tt, s))
  /\
  ((exists obj,
       trace (snd (send_request language request params s)) =
       trace s ++ [client_perform_request obj request params])
   <->
   (exists c, clients_lookup language (clients s) = Some c /\
              status c = RUNNING)).
Proof.
  intros Hr. apply reachable_well_formed in Hr.
  rewrite send_request_eq.
  destruct (clients_lookup language (clients s)) as [c|] eqn:Hg.
  - assert (Hc : client_ok (next_obj s) c).
    { destruct language; try discriminate.
      eapply parts_client; eauto. }
    destruct Hc as (_ & Hrun & _).
    destruct (String.eqb (status c) RUNNING) eqn:E.
    + apply String.eqb_eq in E. specialize (Hrun E).
      destruct (instance c) as [obj|] eqn:Hi; [|congruence].
      split; [|split].
      * intros c' [= <-] _. exists obj. rewrite Hi. auto.
      * intros H. destruct (H c eq_refl E).
      * split; [intros _; exists c; auto | intros _; exists obj; reflexivity].
    + apply String.eqb_neq in E. split; [|split].
      * intros c' [= <-] E'. contradiction.
      * reflexivity.
      * split.
        -- intros (obj & H). cbn in H.
           rewrite <- (app_nil_r (trace s)) in H at 1.
           apply app_inv_head in H. discriminate.
        -- intros (c' & [= <-] & E'). contradiction.
  - split; [|split].
    + intros c [=].
    + reflexivity.
    + split.
      * intros (obj & H). cbn in H.
        rewrite <- (app_nil_r (trace s)) in H at 1.
        apply app_inv_head in H. discriminate.
      * intros (c & [=] & _).
Qed.

Lemma send_request_guard_witness :
  send_request (PStr "python") "textDocument/didOpen" [("file", PStr "a.py")]
    demo_started =
  (Ok tt,
   {| clients := clients demo_started;
      register_queue := register_queue demo_started;
      next_obj := next_obj demo_started;
      trace := trace demo_started
               ++ [client_perform_request 0 "textDocument/didOpen"
                     [("file", PStr "a.py")]] |})
  /\
  send_request (PStr "r") "textDocument/didOpen" [("file", PStr "a.R")]
    demo_started = (Ok tt, demo_started).
Proof.
  split.
  - destruct (proj1 (send_request_guard demo_started (PStr "python")
                       "textDocument/didOpen" [("file", PStr "a.py")]
                       demo_started_reachable)
                _ eq_refl eq_refl) as (obj & Hi & H).
    injection Hi as <-. exact H.
  - apply (proj1 (proj2 (send_request_guard demo_started (PStr "r")
                           "textDocument/didOpen" [("file", PStr "a.R")]
                           demo_started_reachable))).
    intros c [= <-]. discriminate.
Defined.

(** C9: for a language that is a key of [clients], [close_client] sets
    the ['status'] of its record to ['stopped'] and changes nothing else:
    the record keeps its ['config'] and ['instance'], the records of the
    other languages and [register_queue] are as before, and a second
    [close_client] on the same language leaves the plugin exactly as the
    first one left it. *)
Theorem close_client_changes_status_only
  (s : manager) (language : string) (entry : client) :
  reachable s ->
  PyDict.get language (clients s) = Some entry ->
  exists s',
    close_client language s = (Ok tt, s') /\
    PyDict.get language (clients s') =
      Some {| status := STOPPED; config_of := config_of entry;
              instance := instance entry |} /\
    (forall other, other <> language ->
                   PyDict.get other (clients s') = PyDict.get other (clients s)) /\
    PyDict.keys (clients s') = PyDict.keys (clients s) /\
    register_queue s' = register_queue s /\
    close_client language s' = (Ok tt, s').
Proof.
  intros Hr Hg. apply reachable_well_formed in Hr.
  destruct (parts_client _ _ _ _ _ _ Hr Hg) as (_ & Hrun & _).
  assert (Hshape : exists t,
    close_client language s =
    (Ok tt, {| clients := PyDict.set language (set_status STOPPED entry) (clients s);
               register_queue := register_queue s;
               next_obj := next_obj s; trace := t |})).
  { rewrite close_client_eq, Hg.
    destruct (String.eqb (status entry) RUNNING) eqn:E; [|eauto].
    apply String.eqb_eq in E. specialize (Hrun E).
    destruct (instance entry); [eauto | congruence]. }
  destruct Hshape as (t & Heq). rewrite Heq.
  eexists. split; [reflexivity|]. cbn.
  split; [apply get_set_same|].
  split; [intros other Hne; now apply get_set_other|].
  split; [apply keys_set_bound; congruence|].
  split; [reflexivity|].
  rewrite close_client_eq. cbn. rewrite get_set_same. cbn.
  now rewrite set_set.
Qed.

Lemma close_client_changes_status_only_witness :
  exists s',
    close_client "python" demo_started = (Ok tt, s') /\
    PyDict.get "python" (clients s') =
      Some {| status := STOPPED;
              config_of := python_config demo_env;
              instance := Some 0 |} /\
    close_client "python" s' = (Ok tt, s').
Proof.
  destruct (close_client_changes_status_only demo_started "python"
              {| status := RUNNING;
                 config_of := python_config demo_env;
                 instance := Some 0 |}
              demo_started_reachable eq_refl)
    as (s' & H1 & H2 & _ & _ & _ & H3).
  exists s'. auto.
Defined.

(* ================================================================== *)
(** ** The loops that close clients *)

Lemma flat_map_ext_In (A B : Type) (f g : A -> list B) (xs : list A) :
  (forall x, In x xs -> f x = g x) -> flat_map f xs = flat_map g xs.
Proof.
  induction xs as [|x rest IH]; intros H; cbn; [reflexivity|].
  rewrite H by (now left). rewrite IH; auto.
  intros y Hy. apply H. now right.
Qed.

Lemma for_each_ext (A : Type) (f g : A -> M unit) (xs : list A) s :
  (forall x s0, f x s0 = g x s0) -> for_each xs f s = for_each xs g s.
Proof.
  intros H. revert s. induction xs as [|x rest IH]; intros s; cbn;
    [reflexivity|].
  unfold bind. rewrite H. destruct (g x s) as [[[]|e] s1]; auto.
Qed.

(** The goals left when a loop has not touched the plugin: what it did
    to the records, and what it called. *)
Ltac unchanged :=
  split; [reflexivity|];
  split; [assumption|];
  split; [reflexivity|];
  split; [reflexivity|];
  split.

(** One pass of a closing loop over the language [x]; [f] is the test
    the loop makes before it closes. *)
Lemma close_step (f : string -> bool) (x : string) (s : manager) :
  well_formed s ->
  exists s1,
    (if f x then close_client x else ret tt) s = (Ok tt, s1) /\
    well_formed s1 /\
    register_queue s1 = register_queue s /\
    PyDict.keys (clients s1) = PyDict.keys (clients s) /\
    (forall l, PyDict.get l (clients s1) =
               option_map (fun c => if String.eqb l x && f x
                                    then set_status STOPPED c else c)
                          (PyDict.get l (clients s))) /\
    trace s1 = trace s ++ (if f x then stop_calls (PyDict.get x (clients s))
                           else []).
Proof.
  intros Hwf. destruct (f x) eqn:Hf.
  2:{ exists s. unchanged.
      - intros l. rewrite andb_false_r. now destruct (PyDict.get l (clients s)).
      - now rewrite app_nil_r. }
  pose proof (close_client_inv client_ok client_ok_stopped x s Hwf) as Hwf1.
  rewrite close_client_eq in *.
  destruct (PyDict.get x (clients s)) as [c|] eqn:Hg.
  2:{ exists s. unchanged.
      - intros l. rewrite andb_true_r.
        destruct (String.eqb_spec l x) as [->|Hne]; [now rewrite Hg|].
        now destruct (PyDict.get l (clients s)).
      - cbn. now rewrite app_nil_r. }
  assert (Hget : forall l,
    PyDict.get l (PyDict.set x (set_status STOPPED c) (clients s)) =
    option_map (fun c0 => if String.eqb l x && true
                          then set_status STOPPED c0 else c0)
               (PyDict.get l (clients s))).
  { intros l. rewrite get_set, andb_true_r.
    destruct (String.eqb_spec l x) as [->|Hne]; [now rewrite Hg|].
    now destruct (PyDict.get l (clients s)). }
  assert (Hkeys : PyDict.keys (PyDict.set x (set_status STOPPED c) (clients s))
                  = PyDict.keys (clients s))
    by (apply keys_set_bound; congruence).
  destruct (parts_client _ _ _ _ _ _ Hwf Hg) as (_ & Hrun & _).
  unfold stop_calls.
  destruct (String.eqb (status c) RUNNING) eqn:E.
  - apply String.eqb_eq in E. specialize (Hrun E).
    destruct (instance c) as [obj|]; [|congruence].
    eexists. split; [reflexivity|]. cbn. auto.
  - eexists. split; [reflexivity|]. cbn. rewrite app_nil_r. auto.
Qed.

Lemma close_loop (f : string -> bool) (ls : list string) :
  NoDup ls ->
  forall s, well_formed s ->
  exists s',
    for_each ls (fun l => if f l then close_client l else ret tt) s
    = (Ok tt, s') /\
    well_formed s' /\
    register_queue s' = register_queue s /\
    PyDict.keys (clients s') = PyDict.keys (clients s) /\
    (forall l, PyDict.get l (clients s') =
               option_map (fun c => if in_list l ls && f l
                                    then set_status STOPPED c else c)
                          (PyDict.get l (clients s))) /\
    trace s' = trace s ++ flat_map (fun l => if f l
                                             then stop_calls (PyDict.get l (clients s))
                                             else []) ls.
Proof.
  induction 1 as [|x rest Hx Hnd IH]; intros s Hwf.
  - exists s. cbn. unchanged.
    + intros l. now destruct (PyDict.get l (clients s)).
    + now rewrite app_nil_r.
  - destruct (close_step f x s Hwf) as (s1 & Hrun & Hwf1 & Hq1 & Hk1 & Hg1 & Ht1).
    destruct (IH s1 Hwf1) as (s' & Hrun' & Hwf' & Hq' & Hk' & Hg' & Ht').
    exists s'. cbn. unfold bind. rewrite Hrun. cbn.
    split; [exact Hrun'|]. split; [exact Hwf'|].
    split; [congruence|]. split; [congruence|]. split.
    + intros l. rewrite Hg', Hg1.
      destruct (PyDict.get l (clients s)) as [c|]; [|reflexivity]. cbn.
      unfold in_list. cbn.
      destruct (String.eqb_spec l x) as [->|Hne]; cbn;
        destruct (existsb (String.eqb _) rest), (f _); reflexivity.
    + rewrite Ht', Ht1, <- app_assoc. f_equal. f_equal.
      apply flat_map_ext_In. intros l Hl. rewrite Hg1.
      destruct (String.eqb_spec l x) as [->|Hne]; [contradiction|].
      cbn. now destruct (PyDict.get l (clients s)).
Qed.

Lemma in_list_In (x : string) (xs : list string) :
  in_list x xs = true <-> In x xs.
Proof.
  unfold in_list. rewrite existsb_exists. split.
  - intros (y & Hy & E). apply String.eqb_eq in E. now subst.
  - intros H. exists x. split; [exact H | apply String.eqb_refl].
Qed.

Lemma in_list_keys (V : Type) (l : string) (d : PyDict.t V) (v : V) :
  PyDict.get l d = Some v -> in_list l (PyDict.keys d) = true.
Proof.
  intros H. apply in_list_In, get_In_keys. congruence.
Qed.

(** C7: [shutdown] runs [close_client] on every language of [clients]
    and returns; afterwards every record has status ['stopped'] (and is
    otherwise as before), and [stop()] has been called once on the client
    of every record that was running, in the order of [clients].
    [update_client_status] returns as well, and afterwards every language
    of [clients] that is not in [active_set] has status ['stopped'], the
    records of the languages in [active_set] being untouched. *)
Theorem shutdown_stops_every_client (s : manager) (active_set : list string) :
  reachable s ->
  (exists s',
      shutdown s = (Ok tt, s') /\
      shutdown s = for_each (PyDict.keys (clients s)) close_client s /\
      PyDict.keys (clients s') = PyDict.keys (clients s) /\
      (forall l c, PyDict.get l (clients s') = Some c -> status c = STOPPED) /\
      (forall l, PyDict.get l (clients s') =
                 option_map (set_status STOPPED) (PyDict.get l (clients s))) /\
      register_queue s' = register_queue s /\
      trace s' = trace s ++ flat_map (fun l => stop_calls (PyDict.get l (clients s)))
                                     (PyDict.keys (clients s)))
  /\
  (exists s',
      update_client_status active_set s = (Ok tt, s') /\
      PyDict.keys (clients s') = PyDict.keys (clients s) /\
      (forall l c, PyDict.get l (clients s') = Some c ->
                   in_list l active_set = false -> status c = STOPPED) /\
      (forall l, in_list l active_set = true ->
                 PyDict.get l (clients s') = PyDict.get l (clients s)) /\
      register_queue s' = register_queue s).
Proof.
  intros Hr. apply reachable_well_formed in Hr.
  assert (Hnd : NoDup (PyDict.keys (clients s))) by apply Hr.
  split.
  - destruct (close_loop (fun _ => true) _ Hnd s Hr)
      as (s' & Hrun & _ & Hq & Hk & Hg & Ht).
    assert (Heq : shutdown s = for_each (PyDict.keys (clients s)) close_client s)
      by reflexivity.
    exists s'. split; [|split; [exact Heq|]].
    { rewrite Heq, <- Hrun. now apply for_each_ext. }
    assert (Hg' : forall l, PyDict.get l (clients s') =
                   option_map (set_status STOPPED) (PyDict.get l (clients s))).
    { intros l. rewrite Hg.
      destruct (PyDict.get l (clients s)) as [c|] eqn:E; [|reflexivity].
      cbn. now rewrite (in_list_keys _ _ _ _ E). }
    split; [exact Hk|]. split; [|split; [exact Hg'|split; [exact Hq|exact Ht]]].
    intros l c. rewrite Hg'.
    destruct (PyDict.get l (clients s)); cbn; [|discriminate].
    now intros [= <-].
  - destruct (close_loop (fun l => negb (in_list l active_set)) _ Hnd s Hr)
      as (s' & Hrun & _ & Hq & Hk & Hg & _).
    exists s'. split; [exact Hrun|]. split; [exact Hk|].
    split; [|split; [|exact Hq]].
    + intros l c. rewrite Hg. intros Hc Hl. rewrite Hl in Hc.
      destruct (PyDict.get l (clients s)) as [c0|] eqn:E; [|discriminate].
      cbn in Hc. rewrite (in_list_keys _ _ _ _ E) in Hc. cbn in Hc.
      now injection Hc as <-.
    + intros l Hl. rewrite Hg, Hl, andb_false_r.
      now destruct (PyDict.get l (clients s)).
Qed.

(** The session with both clients started. *)
Lemma demo_both_reachable :
  reachable (snd (start_client demo_env "r" demo_started)).
Proof. apply reach_start_client, demo_started_reachable. Qed.

Lemma shutdown_stops_every_client_witness :
  (exists s',
      shutdown (snd (start_client demo_env "r" demo_started)) = (Ok tt, s') /\
      (forall l c, PyDict.get l (clients s') = Some c -> status c = STOPPED) /\
      trace s' = trace (snd (start_client demo_env "r" demo_started))
                 ++ [client_stop 0; client_stop 1])
  /\
  (exists s',
      update_client_status ["python"]
        (snd (start_client demo_env "r" demo_started)) = (Ok tt, s') /\
      (forall c, PyDict.get "r" (clients s') = Some c -> status c = STOPPED)).
Proof.
  destruct (shutdown_stops_every_client
              (snd (start_client demo_env "r" demo_started)) ["python"]
              demo_both_reachable)
    as ((s1 & H1 & _ & _ & Hs1 & _ & _ & Ht1) & (s2 & H2 & _ & Hs2 & _)).
  split.
  - exists s1. split; [exact H1|]. split; [exact Hs1|exact Ht1].
  - exists s2. split; [exact H2|]. intros c Hc. now apply (Hs2 "r" c Hc).
Defined.

(* ================================================================== *)
(** ** Routing of requests *)

Lemma send_request_calls language request params s :
  well_formed s ->
  send_request language request params s =
  (Ok tt,
   {| clients := clients s; register_queue := register_queue s;
      next_obj := next_obj s;
      trace := trace s
               ++ perform_calls (clients_lookup language (clients s))
                    request params |}).
Proof.
  intros Hwf. rewrite send_request_eq. unfold perform_calls.
  destruct (clients_lookup language (clients s)) as [c|] eqn:Hg.
  - assert (Hc : client_ok (next_obj s) c).
    { destruct language; try discriminate. eapply parts_client; eauto. }
    destruct Hc as (_ & Hrun & _).
    destruct (String.eqb (status c) RUNNING) eqn:E.
    + apply String.eqb_eq in E. specialize (Hrun E).
      destruct (instance c); [reflexivity | congruence].
    + destruct s; cbn. now rewrite app_nil_r.
  - destruct s; cbn. now rewrite app_nil_r.
Qed.

Lemma send_loop (ls : list string) request params :
  forall s, well_formed s ->
  for_each ls (fun l => send_request (PStr l) request params) s =
  (Ok tt,
   {| clients := clients s; register_queue := register_queue s;
      next_obj := next_obj s;
      trace := trace s
               ++ flat_map (fun l => perform_calls (PyDict.get l (clients s))
                                       request params) ls |}).
Proof.
  induction ls as [|x rest IH]; intros s Hwf; cbn.
  - destruct s; unfold ret; cbn. now rewrite app_nil_r.
  - unfold bind. rewrite send_request_calls by exact Hwf.
    rewrite IH by exact Hwf. cbn. now rewrite <- app_assoc.
Qed.

(** C6: [broadcast_request] takes the key ['language'] out of [params].
    When the key was bound to a true value, the request goes, with the
    remaining parameters, to [send_request] for that language alone;
    otherwise it goes to [send_request] for every language of [clients],
    in their order.  Either way a call of [perform_request] is made only
    on the client of a record whose status is ['running'], and the method
    returns with [clients] and [register_queue] unchanged. *)
Theorem broadcast_request_routing
  (s : manager) (request : string) (params : params_t) :
  reachable s ->
  let language := match PyDict.get "language" params with
                  | Some v => v
                  | None => PNone
                  end in
  let rest := PyDict.remove "language" params in
  PyDict.get "language" rest = None /\
  (forall k, k <> "language" -> PyDict.get k rest = PyDict.get k params) /\
  (truthy language = true ->
   fst (send_request language request rest s) = Ok tt /\
   broadcast_request request params s =
   (Ok rest, snd (send_request language request rest s))) /\
  broadcast_request request params s =
  (Ok rest,
   {| clients := clients s; register_queue := register_queue s;
      next_obj := next_obj s;
      trace := trace s
               ++ (if truthy language
                   then perform_calls (clients_lookup language (clients s))
                          request rest
                   else flat_map (fun l => perform_calls
                                             (PyDict.get l (clients s))
                                             request rest)
                                 (PyDict.keys (clients s))) |}).
Proof.
  intros Hr language rest. apply reachable_well_formed in Hr.
  split; [apply get_remove_same|].
  split; [intros k Hk; now apply get_remove_other|].
  assert (Hb : broadcast_request request params s =
               ((if truthy language
                 then send_request language request rest
                 else cs <- gets clients ;;
                      for_each (PyDict.keys cs) (fun l =>
                        send_request (PStr l) request rest)) ;;
                ret rest) s) by reflexivity.
  split.
  - intros Ht. rewrite Hb, Ht. unfold bind, ret.
    rewrite (send_request_calls language request rest s Hr). auto.
  - rewrite Hb. destruct (truthy language).
    + unfold bind, ret.
      now rewrite (send_request_calls language request rest s Hr).
    + unfold bind, gets, ret. cbn.
      now rewrite (send_loop _ request rest s Hr).
Qed.

Lemma broadcast_request_routing_witness :
  broadcast_request "textDocument/didOpen"
    [("file", PStr "a.py"); ("language", PStr "python")] demo_started =
  (Ok [("file", PStr "a.py")],
   {| clients := clients demo_started;
      register_queue := register_queue demo_started;
      next_obj := next_obj demo_started;
      trace := trace demo_started
               ++ [client_perform_request 0 "textDocument/didOpen"
                     [("file", PStr "a.py")]] |}).
Proof.
  exact (proj2 (proj2 (proj2
           (broadcast_request_routing demo_started "textDocument/didOpen"
              [("file", PStr "a.py"); ("language", PStr "python")]
              demo_started_reachable)))).
Defined.

(* ================================================================== *)
(** ** The invariant of the registry *)

(** C3: the registry invariant -- [clients] holds one record per
    registered language, every record's ['status'] is ['stopped'] or
    ['running'], and every key of [clients] is a key of [register_queue]
    -- holds of the plugin as [__init__] leaves it and is kept by
    [register_file], [start_client], [close_client], [shutdown],
    [update_server_list], [update_client_status], [send_request] and
    [broadcast_request], whether they return or raise; so it holds in
    every state the plugin goes through.  (That a record has exactly the
    fields ['status'], ['config'] and ['instance'] is the type [client].) *)
Theorem registry_invariant :
  (forall env, registry_inv (new_plugin env)) /\
  (forall s, registry_inv s ->
     (forall language filename codeeditor,
         registry_inv (snd (register_file language filename codeeditor s))) /\
     (forall env language, registry_inv (snd (start_client env language s))) /\
     (forall language, registry_inv (snd (close_client language s))) /\
     registry_inv (snd (shutdown s)) /\
     (forall env, registry_inv (snd (update_server_list env s))) /\
     (forall active_set,
         registry_inv (snd (update_client_status active_set s))) /\
     (forall language request params,
         registry_inv (snd (send_request language request params s))) /\
     (forall request params,
         registry_inv (snd (broadcast_request request params s)))) /\
  (forall s, reachable s -> registry_inv s).
Proof.
  split; [|split].
  - intros env. apply registry_inv_dict_inv.
    apply (new_plugin_inv status_ok); auto with registry.
  - intros s H. apply registry_inv_dict_inv in H.
    repeat match goal with |- _ /\ _ => split end; intros;
      apply registry_inv_dict_inv.
    + apply (register_file_inv status_ok); auto.
    + apply (start_client_inv status_ok); auto with registry.
    + apply (close_client_inv status_ok); auto with registry.
    + apply (shutdown_inv status_ok); auto with registry.
    + apply (update_server_list_inv status_ok); auto with registry.
    + apply (update_client_status_inv status_ok); auto with registry.
    + apply (send_request_inv status_ok); auto.
    + apply (broadcast_request_inv status_ok); auto.
  - intros s H. apply registry_inv_dict_inv.
    apply (reachable_inv status_ok); auto with registry.
Qed.

Lemma registry_invariant_witness :
  registry_inv demo_plugin /\
  registry_inv (snd (start_client demo_env "python" demo_queued)) /\
  registry_inv (snd (update_server_list demo_env_edited demo_started)).
Proof.
  destruct registry_invariant as (Hinit & Hstep & Hreach).
  split; [exact (Hinit demo_env)|]. split.
  - destruct (Hstep demo_queued (Hreach _ demo_queued_reachable))
      as (_ & Hstart & _).
    exact (Hstart demo_env "python").
  - destruct (Hstep demo_started (Hreach _ demo_started_reachable))
      as (_ & _ & _ & _ & Hupdate & _).
    exact (Hupdate demo_env_edited).
Defined.

(* ================================================================== *)
(** ** Starting a client *)

(** When [start_client] starts the client of a stopped language whose
    queue is empty, it returns [False] with the record running and the
    queue still empty. *)
Lemma start_client_empty_queue env l s c :
  PyDict.get l (clients s) = Some c ->
  PyDict.get l (register_queue s) = Some [] ->
  pytest_gate env = false ->
  status c = STOPPED ->
  start_client env l s =
  (Ok false,
   {| clients :=
        PyDict.set l {| status := RUNNING;
                        config_of := started_config env (config_of c);
                        instance := Some (next_obj s) |} (clients s);
      register_queue := PyDict.set l [] (register_queue s);
      next_obj := S (next_obj s);
      trace := trace s
               ++ start_events env l (started_config env (config_of c))
                    (next_obj s) |}).
Proof.
  intros Hg Hq Hgate Hst. rewrite start_client_eq, Hg, Hq, Hgate, Hst.
  reflexivity.
Qed.

(** With a registration in the queue the replay loop raises on its first
    pass: the client is created, started and marked running, no
    registration reaches it, and the queue is not reset. *)
Lemma start_client_queued_raises env l s c entry queue :
  PyDict.get l (clients s) = Some c ->
  PyDict.get l (register_queue s) = Some (entry :: queue) ->
  pytest_gate env = false ->
  status c = STOPPED ->
  start_client env l s =
  (Raise (AttributeError "register_file"),
   {| clients :=
        PyDict.set l {| status := RUNNING;
                        config_of := started_config env (config_of c);
                        instance := Some (next_obj s) |} (clients s);
      register_queue := register_queue s;
      next_obj := S (next_obj s);
      trace := trace s
               ++ start_events env l (started_config env (config_of c))
                    (next_obj s) |}).
Proof.
  intros Hg Hq Hgate Hst. rewrite start_client_eq, Hg, Hq, Hgate, Hst.
  reflexivity.
Qed.

(** C1, on the session in which a file was registered for Python before
    its client was started: the language is registered with status
    ['stopped'], the test gate does not apply and one registration is
    queued; [start_client] creates and starts the client and marks the
    record running, and then raises [AttributeError] on the first queued
    registration.  The registration never reaches the client and the
    queue is not reset. *)
Theorem start_client_replay_raises :
  PyDict.get "python" (clients demo_queued)
    = Some (fresh_record demo_env "python") /\
  PyDict.get "python" (register_queue demo_queued) = Some [("script.py", 7)] /\
  pytest_gate demo_env = false /\
  fst (start_client demo_env "python" demo_queued)
    = Raise (AttributeError "register_file") /\
  PyDict.get "python" (clients (snd (start_client demo_env "python" demo_queued)))
    = Some {| status := RUNNING;
              config_of := python_config demo_env;
              instance := Some 0 |} /\
  trace (snd (start_client demo_env "python" demo_queued))
    = PYTHON_CONFIG_write (python_configurations demo_env)
      :: start_events demo_env "python" (python_config demo_env) 0 /\
  (forall obj, ~ In (client_register_file obj "script.py" 7)
                   (trace (snd (start_client demo_env "python" demo_queued)))) /\
  PyDict.get "python"
    (register_queue (snd (start_client demo_env "python" demo_queued)))
    = Some [("script.py", 7)].
Proof.
  assert (H : start_client demo_env "python" demo_queued = _)
    by (apply (start_client_queued_raises demo_env "python" demo_queued
                 (fresh_record demo_env "python") ("script.py", 7) []);
        reflexivity).
  rewrite H. cbn [fst snd clients register_queue trace].
  repeat split; try reflexivity.
  intros obj Hin. vm_compute in Hin.
  repeat (destruct Hin as [Hin|Hin]; [discriminate|]). exact Hin.
Qed.

(** C8: [start_client] returns [True] exactly when the language is
    registered (with its queue), the test gate does not apply and the
    record was already running.  When it creates and starts a client it
    returns [False] if the queue of the language is empty; in the session
    with a queued registration it creates and starts the client and then
    raises instead of returning. *)
Theorem start_client_return_value :
  (forall env language s,
      fst (start_client env language s) = Ok true <->
      exists c queue,
        PyDict.get language (clients s) = Some c /\
        PyDict.get language (register_queue s) = Some queue /\
        pytest_gate env = false /\
        status c = RUNNING) /\
  (fst (start_client demo_env "python" demo_plugin) = Ok false /\
   In (client_start 0) (trace (snd (start_client demo_env "python" demo_plugin)))) /\
  (fst (start_client demo_env "python" demo_queued)
     = Raise (AttributeError "register_file") /\
   fst (start_client demo_env "python" demo_queued) <> Ok false /\
   In (client_start 0) (trace (snd (start_client demo_env "python" demo_queued)))).
Proof.
  split; [|split].
  - intros env language s. rewrite start_client_eq. split.
    + destruct (PyDict.get language (clients s)) as [c|]; [|discriminate].
      destruct (PyDict.get language (register_queue s)) as [queue|];
        [|discriminate].
      destruct (pytest_gate env); [discriminate|].
      destruct (String.eqb (status c) STOPPED).
      { destruct queue; discriminate. }
      cbn. intros [= E]. apply String.eqb_eq in E.
      exists c, queue. auto.
    + intros (c & queue & -> & -> & -> & E). rewrite E. reflexivity.
  - rewrite (start_client_empty_queue demo_env "python" demo_plugin
               (fresh_record demo_env "python")) by reflexivity.
    split; [reflexivity|]. vm_compute. tauto.
  - rewrite (start_client_queued_raises demo_env "python" demo_queued
               (fresh_record demo_env "python") ("script.py", 7) [])
      by reflexivity.
    split; [reflexivity|]. split; [discriminate|]. vm_compute. tauto.
Qed.

(* ================================================================== *)
(** ** Updating the list of servers *)

Lemma start_client_same_at env x l s :
  l <> x -> same_at l s (snd (start_client env x s)).
Proof.
  intros Hne. rewrite start_client_eq.
  destruct (PyDict.get x (clients s)); [|split; reflexivity].
  destruct (PyDict.get x (register_queue s)) as [queue|]; [|split; reflexivity].
  destruct (pytest_gate env); [split; reflexivity|].
  destruct (String.eqb _ STOPPED); [|split; reflexivity].
  destruct queue; split; cbn; rewrite ?get_set_other by exact Hne; reflexivity.
Qed.

Lemma same_at_wrote env x l s s' :
  same_at l (wrote env x s) s' -> same_at l s s'.
Proof. intros H. exact H. Qed.

Lemma update_server_same_at env x l s :
  l <> x -> same_at l s (snd (update_server env x s)).
Proof.
  intros Hne. rewrite update_server_eq. cbv zeta.
  apply (same_at_wrote env x).
  generalize (wrote env x s). clear s. intros s.
  destruct (PyDict.get x (clients s)) as [c|].
  2:{ split; cbn; now rewrite get_set_other. }
  destruct (restart_needed _ _).
  - destruct (String.eqb _ STOPPED).
    { split; cbn; rewrite ?get_set_other by exact Hne; reflexivity. }
    destruct (String.eqb _ RUNNING); [|split; reflexivity].
    unfold restart_state.
    destruct (main env) as [[[] co [] p]|]; try (split; reflexivity).
    destruct (instance c); cbn; [|split; reflexivity].
    match goal with |- same_at l s (snd (start_client env x ?st)) =>
      destruct (start_client_same_at env x l st Hne) as (H1 & H2) end.
    split; [rewrite H1 | rewrite H2]; cbn;
      rewrite ?get_set_other by exact Hne; reflexivity.
  - destruct (String.eqb _ RUNNING); [|split; reflexivity].
    destruct (instance c); split; reflexivity.
Qed.

Lemma update_loop_same_at env ls l :
  ~ In l ls ->
  forall s, same_at l s (snd (for_each ls (update_server env) s)).
Proof.
  induction ls as [|x rest IH]; intros Hl s; cbn; [split; reflexivity|].
  assert (Hne : l <> x) by (intros ->; apply Hl; now left).
  assert (Hrest : ~ In l rest) by (intros H; apply Hl; now right).
  unfold bind. pose proof (update_server_same_at env x l s Hne) as H.
  destruct (update_server env x s) as [[[]|e] s1]; cbn in *; [|exact H].
  destruct (IH Hrest s1) as (H1 & H2). destruct H as (H3 & H4).
  split; congruence.
Qed.


(* ================================================================== *)
(** ** Every public method is a sequence of steps *)

Lemma set_get_same (V : Type) (k : string) (v : V) (d : PyDict.t V) :
  PyDict.get k d = Some v -> PyDict.set k v d = d.
Proof.
  induction d as [|[k0 v0] rest IH]; simpl; [discriminate|].
  destruct (String.eqb k k0) eqn:E.
  - now intros [= ->].
  - intros H. now rewrite IH.
Qed.

Lemma steps_one s s' : elem s s' -> steps s s'.
Proof. intros H. eapply steps_cons; [exact H | apply steps_refl]. Qed.

Lemma steps_trans s1 s2 s3 : steps s1 s2 -> steps s2 s3 -> steps s1 s3.
Proof.
  induction 1 as [|a b c Hab Hbc IH]; intros H; [exact H|].
  eapply steps_cons; [exact Hab | now apply IH].
Qed.

Lemma for_each_steps (A : Type) (body : A -> M unit) (xs : list A) :
  (forall x s, steps s (snd (body x s))) ->
  forall s, steps s (snd (for_each xs body s)).
Proof.
  intros Hbody. induction xs as [|x rest IH]; intros s; cbn;
    [apply steps_refl|].
  unfold bind. specialize (Hbody x s).
  destruct (body x s) as [[[]|e] s1]; cbn in *; [|exact Hbody].
  eapply steps_trans; [exact Hbody | apply IH].
Qed.

Lemma talks_refl s : talks s s.
Proof.
  split; [apply same_registry_refl|].
  exists []. now rewrite app_nil_r.
Qed.

Lemma talks_trans s1 s2 s3 : talks s1 s2 -> talks s2 s3 -> talks s1 s3.
Proof.
  intros (H1 & e1 & T1 & F1) (H2 & e2 & T2 & F2). split.
  - eapply same_registry_trans; eauto.
  - exists (e1 ++ e2). split; [now rewrite T2, T1, app_assoc|].
    now rewrite forallb_app, F1, F2.
Qed.

Lemma talks_call cs q n t evs :
  forallb (fun e => negb (registry_event e)) evs = true ->
  talks (mk_manager cs q n t) (mk_manager cs q n (t ++ evs)).
Proof. intros H. split; [repeat split | now exists evs]. Qed.

Lemma for_each_talks (A : Type) (body : A -> M unit) (xs : list A) :
  (forall x s, talks s (snd (body x s))) ->
  forall s, talks s (snd (for_each xs body s)).
Proof.
  intros Hbody. induction xs as [|x rest IH]; intros s; cbn;
    [apply talks_refl|].
  unfold bind. specialize (Hbody x s).
  destruct (body x s) as [[[]|e] s1]; cbn in *; [|exact Hbody].
  eapply talks_trans; [exact Hbody | apply IH].
Qed.

Lemma send_request_talks language request params s :
  talks s (snd (send_request language request params s)).
Proof.
  rewrite send_request_eq.
  destruct (clients_lookup language (clients s)) as [c|]; [|apply talks_refl].
  destruct (String.eqb (status c) RUNNING); [|apply talks_refl].
  destruct (instance c); [|apply talks_refl].
  destruct s. now apply talks_call.
Qed.

Lemma broadcast_request_talks request params s :
  talks s (snd (broadcast_request request params s)).
Proof.
  unfold broadcast_request. rewrite snd_bind_ret.
  destruct (truthy _); [apply send_request_talks|].
  unfold bind, gets. apply for_each_talks. intros x s0.
  apply send_request_talks.
Qed.

Lemma register_client_instance_talks env obj s :
  talks s (snd (register_client_instance env obj s)).
Proof.
  rewrite register_client_instance_eq. destruct s. apply talks_call.
  unfold signal_connections.
  now destruct (main env) as [[[] [] [] p]|].
Qed.

Lemma report_server_error_talks env error s :
  talks s (snd (report_server_error env error s)).
Proof.
  unfold report_server_error.
  destruct (main env) as [[ed [] pr p]|]; try apply talks_refl.
  destruct s. now apply talks_call.
Qed.

Lemma reinitialize_pass_talks env x s :
  talks s
    (snd ((language_client <- clients_getitem x ;;
           if String.eqb (status language_client) RUNNING then
             main_editor_stop_lsp_services env x ;;
             client_reinitialize (instance language_client)
               (get_root_path env x)
           else ret tt) s)).
Proof.
  unfold main_editor_stop_lsp_services, client_reinitialize.
  unfold_prims. cbn.
  destruct (PyDict.get x (clients s)) as [c|]; [|apply talks_refl].
  destruct (String.eqb (status c) RUNNING); [|apply talks_refl].
  destruct (main env) as [[[] co pr p]|]; cbn; try apply talks_refl.
  destruct (instance c); cbn.
  - destruct s. cbn. rewrite <- !app_assoc. now apply talks_call.
  - destruct s. now apply talks_call.
Qed.

Lemma reinitialize_all_clients_talks env s :
  talks s (snd (reinitialize_all_clients env s)).
Proof.
  unfold reinitialize_all_clients, main_projects_stop_lsp_services.
  destruct (main env) as [[ed co [] p]|] eqn:Hm; try apply talks_refl.
  unfold bind at 1. unfold call at 1. unfold bind at 1. unfold gets at 1.
  cbn [projects clients].
  match goal with |- talks s (snd (for_each ?ls ?b ?st)) =>
    apply (talks_trans s st);
      [destruct s; now apply talks_call | apply for_each_talks] end.
  intros x s0. apply reinitialize_pass_talks.
Qed.

Lemma register_file_steps l f e s : steps s (snd (register_file l f e s)).
Proof.
  rewrite register_file_eq.
  destruct (PyDict.get l (clients s)) as [c|] eqn:Hg; [|apply steps_refl].
  destruct (instance c) as [obj|] eqn:Hi.
  - apply steps_one. now apply (elem_forward l c obj).
  - destruct (PyDict.get l (register_queue s)) as [q|] eqn:Hq;
      [|apply steps_refl].
    apply steps_one. now apply (elem_queue l c).
Qed.

Lemma start_client_steps env l s : steps s (snd (start_client env l s)).
Proof.
  rewrite start_client_eq.
  destruct (PyDict.get l (clients s)) as [c|] eqn:Hg; [|apply steps_refl].
  destruct (PyDict.get l (register_queue s)) as [q|] eqn:Hq;
    [|apply steps_refl].
  destruct (pytest_gate env); [apply steps_refl|].
  destruct (String.eqb (status c) STOPPED) eqn:E; [|apply steps_refl].
  apply String.eqb_eq in E. apply steps_one.
  destruct q; cbn [snd].
  - rewrite (set_get_same _ _ _ _ Hq). now apply (elem_start env l c []).
  - now apply (elem_start env l c (r :: q)).
Qed.

Lemma close_client_steps l s : steps s (snd (close_client l s)).
Proof.
  rewrite close_client_eq.
  destruct (PyDict.get l (clients s)) as [c|] eqn:Hg; [|apply steps_refl].
  destruct (String.eqb (status c) RUNNING) eqn:E.
  - apply String.eqb_eq in E.
    destruct (instance c) as [obj|] eqn:Hi; [|apply steps_refl].
    apply steps_one. now apply elem_stop.
  - apply String.eqb_neq in E. apply steps_one. now apply elem_mark.
Qed.

Lemma wrote_talks env l s : talks s (wrote env l s).
Proof.
  destruct s as [cs q n t]. apply talks_call.
  unfold config_writes. destruct (String.eqb l "python"); reflexivity.
Qed.

Lemma update_server_steps env l s : steps s (snd (update_server env l s)).
Proof.
  rewrite update_server_eq. cbv zeta.
  eapply steps_trans; [apply steps_one, elem_talk, (wrote_talks env l)|].
  generalize (wrote env l s). clear s. intros s.
  destruct (PyDict.get l (clients s)) as [c|] eqn:Hg.
  2:{ apply steps_one. now apply elem_register. }
  destruct (restart_needed _ _).
  - destruct (String.eqb (status c) STOPPED) eqn:Est.
    { apply String.eqb_eq in Est. apply steps_one.
      now apply (elem_replace env l c). }
    destruct (String.eqb (status c) RUNNING) eqn:Erun; [|apply steps_refl].
    apply String.eqb_eq in Erun. unfold restart_state.
    destruct (main env) as [[[] co [] p]|]; try apply steps_refl.
    + destruct (instance c) as [obj|] eqn:Hi; cbn [snd].
      * eapply steps_trans; [|apply start_client_steps].
        eapply steps_cons.
        { apply elem_talk.
          apply (talks_call (clients s) (register_queue s) (next_obj s)
                   (trace s)
                   [editor_stop_lsp_services l; projects_stop_lsp_services]).
          reflexivity. }
        destruct s as [cs q n t]. cbn in *.
        eapply steps_cons.
        { apply (elem_stop l c obj); cbn; eauto. }
        cbn. eapply steps_cons; [|apply steps_refl].
        pose proof (elem_replace env l (set_status STOPPED c)
                      {| clients := PyDict.set l (set_status STOPPED c) cs;
                         register_queue := q; next_obj := n;
                         trace := (t ++ [editor_stop_lsp_services l;
                                         projects_stop_lsp_services])
                                  ++ [client_stop obj] |}) as H.
        cbn in H. rewrite get_set_same, set_set, <- app_assoc in H.
        rewrite <- app_assoc. now apply H.
      * apply steps_one, elem_talk. destruct s. now apply talks_call.
    + apply steps_one, elem_talk. destruct s. now apply talks_call.
  - destruct (String.eqb (status c) RUNNING); [|apply steps_refl].
    destruct (instance c); [|apply steps_refl].
    apply steps_one, elem_talk. destruct s. now apply talks_call.
Qed.

(** Every call of a public method is a sequence of steps. *)
Lemma after_steps m s : steps s (after m s).
Proof.
  destruct m; cbn [after].
  - apply register_file_steps.
  - apply start_client_steps.
  - apply close_client_steps.
  - unfold shutdown, bind, gets. apply for_each_steps.
    intros x s0. apply close_client_steps.
  - unfold update_server_list. apply for_each_steps.
    intros x s0. apply update_server_steps.
  - unfold update_client_status, bind, gets. apply for_each_steps.
    intros x s0. destruct (negb _);
      [apply close_client_steps | apply steps_refl].
  - apply steps_one, elem_talk, send_request_talks.
  - apply steps_one, elem_talk, broadcast_request_talks.
  - apply steps_one, elem_talk, reinitialize_all_clients_talks.
  - apply steps_one, elem_talk, report_server_error_talks.
  - apply steps_one, elem_talk, register_client_instance_talks.
Qed.

Lemma reachable_after m s : reachable s -> reachable (after m s).
Proof.
  intros H. destruct m; cbn [after]; now constructor.
Qed.

Lemma reachable_cases s :
  reachable s ->
  (exists env, s = new_plugin env) \/
  (exists m s0, reachable s0 /\ s = after m s0).
Proof.
  intros H. destruct H.
  - left. eauto.
  - right. exists (call_register_file language filename codeeditor), s. auto.
  - right. exists (call_start_client env language), s. auto.
  - right. exists (call_close_client language), s. auto.
  - right. exists call_shutdown, s. auto.
  - right. exists (call_update_server_list env), s. auto.
  - right. exists (call_update_client_status active_set), s. auto.
  - right. exists (call_send_request language request params), s. auto.
  - right. exists (call_broadcast_request request params), s. auto.
  - right. exists (call_reinitialize_all_clients env), s. auto.
  - right. exists (call_report_server_error env error), s. auto.
  - right. exists (call_register_client_instance env obj), s. auto.
Qed.

Lemma steps_keep (Q : manager -> Prop) :
  (forall s s', Q s -> elem s s' -> Q s') ->
  forall s s', steps s s' -> Q s -> Q s'.
Proof.
  intros Hb s s' H. induction H as [|a b c Hab Hbc IH]; eauto.
Qed.

(** What holds of a new plugin and is kept by every step holds in every
    state of the plugin. *)
Lemma reachable_keeps (Q : manager -> Prop) :
  (forall env, Q (new_plugin env)) ->
  (forall s s', Q s -> elem s s' -> Q s') ->
  forall s, reachable s -> Q s.
Proof.
  intros Hinit Hb s H.
  induction H;
    [apply Hinit|..];
    (eapply steps_keep; [exact Hb| |eassumption]).
  - apply (after_steps (call_register_file language filename codeeditor)).
  - apply (after_steps (call_start_client env language)).
  - apply (after_steps (call_close_client language)).
  - apply (after_steps call_shutdown).
  - apply (after_steps (call_update_server_list env)).
  - apply (after_steps (call_update_client_status active_set)).
  - apply (after_steps (call_send_request language request params)).
  - apply (after_steps (call_broadcast_request request params)).
  - apply (after_steps (call_reinitialize_all_clients env)).
  - apply (after_steps (call_report_server_error env error)).
  - apply (after_steps (call_register_client_instance env obj)).
Qed.

(* ================================================================== *)
(** ** The plugin as constructed *)

Lemma init_loop env ls :
  forall s,
    let s' := snd (for_each ls (fun language =>
                     config <- get_language_config env language ;;
                     clients_setitem language {| status := STOPPED;
                                                 config_of := config;
                                                 instance := None |} ;;
                     register_queue_setitem language []) s) in
    next_obj s' = next_obj s /\
    trace s' = trace s ++ flat_map (config_writes env) ls /\
    (forall l, PyDict.get l (clients s') =
               if in_list l ls then Some (fresh_record env l)
               else PyDict.get l (clients s)) /\
    (forall l, PyDict.get l (register_queue s') =
               if in_list l ls then Some []
               else PyDict.get l (register_queue s)).
Proof.
  induction ls as [|x rest IH]; intros s; cbn [for_each flat_map].
  - cbn. rewrite app_nil_r. auto.
  - rewrite (bind_ok _ _ _ _ _ _ _ (init_pass_eq env x s)).
    match goal with |- context [for_each rest ?b ?st] =>
      destruct (IH st) as (Hn & Ht & Hc & Hq) end.
    cbv zeta. cbn [next_obj trace clients register_queue] in Hn, Ht, Hc, Hq.
    rewrite Hn, Ht, <- app_assoc. split; [reflexivity|]. split; [reflexivity|].
    split; intros l; [rewrite Hc | rewrite Hq]; unfold in_list; cbn;
      rewrite get_set; fold (in_list l rest);
      destruct (in_list l rest); destruct (String.eqb_spec l x);
        subst; reflexivity.
Qed.

(** X1: the plugin as [__init__] leaves it.  Every language that
    [get_languages] lists is registered with status ['stopped'], the
    configuration generated for it and no client object, and has an empty
    queue; no other language is registered or has a queue; no client
    object exists and no call has been made: all that has happened
    outside the plugin is that [generate_python_config] has written the
    plugin settings into the shared dictionary of [PYTHON_CONFIG], once
    for each time ['python'] is listed. *)
Theorem new_plugin_registry (env : Env) (l : string) :
  PyDict.get l (clients (new_plugin env)) =
    (if in_list l (get_languages env) then Some (fresh_record env l)
     else None) /\
  PyDict.get l (register_queue (new_plugin env)) =
    (if in_list l (get_languages env) then Some [] else None) /\
  next_obj (new_plugin env) = 0 /\
  trace (new_plugin env) = flat_map (config_writes env) (get_languages env).
Proof.
  rewrite new_plugin_eq.
  destruct (init_loop env (get_languages env) blank) as (Hn & Ht & Hc & Hq).
  cbn zeta in *. rewrite Hc, Hq, Hn, Ht. cbn.
  destruct (in_list l (get_languages env)); auto.
Qed.

(* ================================================================== *)
(** ** The bookkeeping agrees with the calls made *)

Lemma count_app f t1 t2 : count f (t1 ++ t2) = count f t1 + count f t2.
Proof. unfold count. now rewrite filter_app, length_app. Qed.

Lemma count_none f evs :
  (forall e, f e = true -> registry_event e = true) ->
  forallb (fun e => negb (registry_event e)) evs = true ->
  count f evs = 0.
Proof.
  intros Hf. induction evs as [|e rest IH]; cbn; [reflexivity|].
  intros H. apply andb_prop in H as (He & Hrest).
  unfold count in *. cbn. destruct (f e) eqn:E.
  - apply Hf in E. rewrite E in He. discriminate.
  - now apply IH.
Qed.

Lemma creates_registry obj e : creates obj e = true -> registry_event e = true.
Proof. now destruct e. Qed.

Lemma starts_registry obj e : starts obj e = true -> registry_event e = true.
Proof. now destruct e. Qed.

Lemma stops_registry obj e : stops obj e = true -> registry_event e = true.
Proof. now destruct e. Qed.

Lemma count_signal_connections f env n :
  (forall e, f e = true -> registry_event e = true) ->
  count f (signal_connections env n) = 0.
Proof.
  intros Hf. apply count_none; [exact Hf|].
  unfold signal_connections.
  now destruct (main env) as [[[] [] [] p]|].
Qed.

Lemma count_start_events env l cfg n obj :
  count (creates obj) (start_events env l cfg n) = (if Nat.eqb n obj then 1 else 0)
  /\ count (starts obj) (start_events env l cfg n) = (if Nat.eqb n obj then 1 else 0)
  /\ count (stops obj) (start_events env l cfg n) = 0.
Proof.
  unfold start_events.
  change (LSPClient_new n cfg (get_root_path env l) l
          :: signal_connections env n ++ [client_start n])
    with ([LSPClient_new n cfg (get_root_path env l) l]
          ++ signal_connections env n ++ [client_start n]).
  rewrite !count_app.
  rewrite (count_signal_connections _ env n (creates_registry obj)).
  rewrite (count_signal_connections _ env n (starts_registry obj)).
  rewrite (count_signal_connections _ env n (stops_registry obj)).
  unfold count. cbn. destruct (Nat.eqb n obj); auto.
Qed.

Lemma count_config_writes f env ls :
  (forall e, f e = true -> registry_event e = true) ->
  count f (flat_map (config_writes env) ls) = 0.
Proof.
  intros Hf. apply count_none; [exact Hf|].
  induction ls as [|x rest IH]; [reflexivity|].
  cbn [flat_map]. rewrite forallb_app, IH, andb_true_r.
  unfold config_writes. destruct (String.eqb x "python"); reflexivity.
Qed.

Lemma new_plugin_sound env : sound (new_plugin env).
Proof.
  assert (H : forall l,
    PyDict.get l (clients (new_plugin env)) =
      (if in_list l (get_languages env) then Some (fresh_record env l)
       else None) /\
    PyDict.get l (register_queue (new_plugin env)) =
      (if in_list l (get_languages env) then Some [] else None) /\
    next_obj (new_plugin env) = 0 /\
    trace (new_plugin env) = flat_map (config_writes env) (get_languages env)).
  { intros l. rewrite new_plugin_eq.
    destruct (init_loop env (get_languages env) blank) as (Hn & Ht & Hc & Hq).
    cbn zeta in *. rewrite Hc, Hq, Hn, Ht. cbn.
    destruct (in_list l (get_languages env)); auto. }
  split; [|split; [|split; [|split; [|split]]]].
  - apply (new_plugin_inv client_ok client_ok_fresh).
  - intros l. unfold PyDict.contains.
    destruct (H l) as (-> & -> & _).
    now destruct (in_list l (get_languages env)).
  - intros l1 l2 c1 c2 obj H1 _ Hi. destruct (H l1) as (Hc & _).
    rewrite Hc in H1. destruct (in_list l1 _); [|discriminate].
    injection H1 as <-. discriminate.
  - intros l c obj H1 Hi. destruct (H l) as (Hc & _).
    rewrite Hc in H1. destruct (in_list l _); [|discriminate].
    injection H1 as <-. discriminate.
  - intros obj. destruct (H "") as (_ & _ & -> & ->).
    rewrite (count_config_writes _ env _ (creates_registry obj)).
    rewrite (count_config_writes _ env _ (starts_registry obj)).
    rewrite (count_config_writes _ env _ (stops_registry obj)).
    cbn. auto.
  - intros l c obj H1 Hi. destruct (H l) as (Hc & _).
    rewrite Hc in H1. destruct (in_list l _); [|discriminate].
    injection H1 as <-. discriminate.
Qed.

Lemma elem_well_formed s s' : elem s s' -> well_formed s -> well_formed s'.
Proof.
  intros H. destruct H as [s s' (Hsame & _)|l c q entry s Hg Hi Hq
    |l c obj f e s Hg Hi|env l c q s Hg Hst Hq|l c obj s Hg Hst Hi
    |l c s Hg Hst|env l s Hg|env l c s Hg Hst]; intros Hwf.
  - destruct Hsame as (Hc & Hq & Hn). unfold well_formed.
    now rewrite Hc, Hq, Hn.
  - now apply parts_set_queue.
  - exact Hwf.
  - apply parts_set_client.
    + apply (parts_mono client_ok client_ok_mono) with (n := next_obj s);
        [cbn; lia | exact Hwf].
    + apply client_ok_started.
    + eapply parts_queue_bound; eauto.
  - apply parts_set_client; [exact Hwf| |eapply parts_queue_bound; eauto].
    apply client_ok_stopped. eapply parts_client; eauto.
  - apply parts_set_client; [exact Hwf| |eapply parts_queue_bound; eauto].
    apply client_ok_stopped. eapply parts_client; eauto.
  - apply parts_register; [exact Hwf | apply client_ok_fresh].
  - apply parts_set_client; [exact Hwf | apply client_ok_fresh
                            | eapply parts_queue_bound; eauto].
Qed.

Lemma count_single f e : count f [e] = if f e then 1 else 0.
Proof. unfold count. cbn. now destruct (f e). Qed.

Lemma contains_get (V : Type) (l : string) (d : PyDict.t V) (v : V) :
  PyDict.get l d = Some v -> PyDict.contains l d = true.
Proof. unfold PyDict.contains. now intros ->. Qed.

Lemma contains_set_mono (V : Type) (k l : string) (v : V) (d : PyDict.t V) :
  PyDict.contains k d = true -> PyDict.contains k (PyDict.set l v d) = true.
Proof. intros H. rewrite contains_set, H. apply orb_true_r. Qed.

(** The cases of a lookup after an assignment. *)
Ltac get_cases H k l :=
  rewrite get_set in H;
  destruct (String.eqb_spec k l);
  [subst; injection H as <- | idtac].

Lemma elem_sound s s' : elem s s' -> sound s -> sound s'.
Proof.
  intros H Hs.
  pose proof (elem_well_formed s s' H (proj1 Hs)) as Hwf'.
  destruct Hs as (Hwf & Hsub & Hdis & Hprov & Hcnt & Hheld).
  split; [exact Hwf'|]. clear Hwf'.
  destruct H as [s s' ((Hc & Hq & Hn) & evs & Ht & Hev)|l c q entry s Hg Hi Hq
    |l c obj0 f e s Hg Hi|env l c q s Hg Hst Hq|l c obj0 s Hg Hst Hi
    |l c s Hg Hst|env l s Hg|env l c s Hg Hst];
    cbn [clients register_queue next_obj trace].
  - (* talk *)
    rewrite Hc, Hq, Hn, Ht.
    assert (Hz : forall obj,
              count (creates obj) evs = 0 /\ count (starts obj) evs = 0
              /\ count (stops obj) evs = 0).
    { intros obj. repeat split; apply count_none; auto;
        [apply creates_registry | apply starts_registry | apply stops_registry]. }
    split; [exact Hsub|]. split; [exact Hdis|]. split; [|split].
    + intros l c obj H1 H2. destruct (Hprov l c obj H1 H2) as (folder & Hin).
      exists folder. apply in_or_app. now left.
    + intros obj. rewrite !count_app.
      destruct (Hz obj) as (-> & -> & ->). rewrite !Nat.add_0_r. apply Hcnt.
    + intros l c obj H1 H2. rewrite count_app.
      destruct (Hz obj) as (_ & _ & ->). rewrite Nat.add_0_r. eauto.
  - (* queue *)
    split; [|auto].
    intros k. rewrite contains_set.
    destruct (String.eqb_spec k l); cbn; [subst; intros _|apply Hsub].
    eapply contains_get; eauto.
  - (* forward *)
    split; [exact Hsub|]. split; [exact Hdis|]. split; [|split].
    + intros l0 c0 obj H1 H2. destruct (Hprov l0 c0 obj H1 H2) as (folder & Hin).
      exists folder. apply in_or_app. now left.
    + intros obj. rewrite !count_app, !count_single. cbn.
      rewrite !Nat.add_0_r. apply Hcnt.
    + intros l0 c0 obj H1 H2. rewrite count_app, count_single. cbn.
      rewrite Nat.add_0_r. eauto.
  - (* start *)
    assert (Hfresh : forall k ck o,
              PyDict.get k (clients s) = Some ck -> instance ck = Some o ->
              o < next_obj s).
    { intros k ck o H1 H2.
      destruct (parts_client _ _ _ _ _ _ Hwf H1) as (_ & _ & Hlt). auto. }
    split; [|split; [|split; [|split]]].
    + intros k Hk. apply contains_set_mono. auto.
    + intros l1 l2 c1 c2 obj H1 H2 I1 I2.
      rewrite get_set in H1, H2.
      destruct (String.eqb_spec l1 l), (String.eqb_spec l2 l); subst; auto.
      * injection H1 as <-. cbn in I1. injection I1 as <-.
        specialize (Hfresh _ _ _ H2 I2). lia.
      * injection H2 as <-. cbn in I2. injection I2 as <-.
        specialize (Hfresh _ _ _ H1 I1). lia.
      * eauto.
    + intros k ck obj H1 H2. rewrite get_set in H1.
      destruct (String.eqb_spec k l).
      * subst. injection H1 as <-. cbn in H2. injection H2 as <-.
        exists (get_root_path env l). apply in_or_app. right. now left.
      * destruct (Hprov k ck obj H1 H2) as (folder & Hin).
        exists folder. apply in_or_app. now left.
    + intros obj. rewrite !count_app.
      destruct (count_start_events env l (started_config env (config_of c))
                  (next_obj s) obj) as (-> & -> & ->).
      destruct (Hcnt obj) as (-> & -> & Hle).
      destruct (Nat.eqb_spec (next_obj s) obj);
        destruct (Nat.ltb_spec obj (next_obj s));
        destruct (Nat.ltb_spec obj (S (next_obj s))); try lia.
      all: repeat split; lia.
    + intros k ck obj H1 H2. rewrite count_app.
      destruct (count_start_events env l (started_config env (config_of c))
                  (next_obj s) obj) as (_ & _ & ->).
      rewrite Nat.add_0_r. rewrite get_set in H1.
      destruct (String.eqb_spec k l); [|eauto].
      subst. injection H1 as <-. cbn in H2. injection H2 as <-. cbn.
      destruct (Hcnt (next_obj s)) as (_ & Hs0 & Hle).
      rewrite Nat.ltb_irrefl in Hs0. lia.
  - (* stop *)
    assert (Hlt : obj0 < next_obj s).
    { destruct (parts_client _ _ _ _ _ _ Hwf Hg) as (_ & _ & Hlt). auto. }
    assert (H0 : count (stops obj0) (trace s) = 0).
    { rewrite (Hheld l c obj0 Hg Hi), Hst. reflexivity. }
    split; [|split; [|split; [|split]]].
    + intros k Hk. apply contains_set_mono. auto.
    + intros l1 l2 c1 c2 obj H1 H2 I1 I2.
      rewrite get_set in H1, H2.
      destruct (String.eqb_spec l1 l), (String.eqb_spec l2 l); subst; auto.
      * injection H1 as <-. cbn in I1. symmetry. eapply Hdis; eauto.
      * injection H2 as <-. cbn in I2. eapply Hdis; eauto.
      * eauto.
    + intros k ck obj H1 H2. rewrite get_set in H1.
      destruct (String.eqb_spec k l).
      * subst. injection H1 as <-. cbn in H2 |- *.
        destruct (Hprov l c obj Hg H2) as (folder & Hin).
        exists folder. apply in_or_app. now left.
      * destruct (Hprov k ck obj H1 H2) as (folder & Hin).
        exists folder. apply in_or_app. now left.
    + intros obj. rewrite !count_app, !count_single. cbn.
      rewrite !Nat.add_0_r.
      destruct (Hcnt obj) as (Hc1 & Hc2 & Hle).
      split; [exact Hc1|]. split; [exact Hc2|].
      destruct (Nat.eqb_spec obj0 obj); cbn; [|lia].
      subst. rewrite H0, Hc2.
      destruct (Nat.ltb_spec obj (next_obj s)); lia.
    + intros k ck obj H1 H2. rewrite count_app, count_single. cbn.
      rewrite get_set in H1.
      destruct (String.eqb_spec k l).
      * subst. injection H1 as <-. cbn in H2 |- *.
        assert (obj = obj0) by congruence. subst.
        rewrite Nat.eqb_refl, H0. reflexivity.
      * destruct (Nat.eqb_spec obj0 obj).
        -- subst. exfalso. apply n. eapply Hdis; eauto.
        -- cbn. rewrite Nat.add_0_r. eauto.
  - (* mark *)
    split; [|split; [|split; [|split]]].
    + intros k Hk. apply contains_set_mono. auto.
    + intros l1 l2 c1 c2 obj H1 H2 I1 I2.
      rewrite get_set in H1, H2.
      destruct (String.eqb_spec l1 l), (String.eqb_spec l2 l); subst; auto.
      * injection H1 as <-. cbn in I1. symmetry. eapply Hdis; eauto.
      * injection H2 as <-. cbn in I2. eapply Hdis; eauto.
      * eauto.
    + intros k ck obj H1 H2. rewrite get_set in H1.
      destruct (String.eqb_spec k l); [|eauto].
      subst. injection H1 as <-. cbn in H2 |- *. eauto.
    + exact Hcnt.
    + intros k ck obj H1 H2. rewrite get_set in H1.
      destruct (String.eqb_spec k l); [|eauto].
      subst. injection H1 as <-. cbn in H2 |- *.
      rewrite (Hheld l c obj Hg H2).
      apply String.eqb_neq in Hst. now rewrite Hst.
  - (* register *)
    split; [|split; [|split; [|split]]].
    + intros k. rewrite !contains_set.
      destruct (String.eqb k l); cbn; auto.
    + intros l1 l2 c1 c2 obj H1 H2 I1 I2.
      rewrite get_set in H1, H2.
      destruct (String.eqb_spec l1 l), (String.eqb_spec l2 l); subst; auto.
      * injection H1 as <-. discriminate.
      * injection H2 as <-. discriminate.
      * eauto.
    + intros k ck obj H1 H2. rewrite get_set in H1.
      destruct (String.eqb_spec k l); [|eauto].
      subst. injection H1 as <-. discriminate.
    + exact Hcnt.
    + intros k ck obj H1 H2. rewrite get_set in H1.
      destruct (String.eqb_spec k l); [|eauto].
      subst. injection H1 as <-. discriminate.
  - (* replace *)
    split; [|split; [|split; [|split]]].
    + intros k Hk. apply contains_set_mono. auto.
    + intros l1 l2 c1 c2 obj H1 H2 I1 I2.
      rewrite get_set in H1, H2.
      destruct (String.eqb_spec l1 l), (String.eqb_spec l2 l); subst; auto.
      * injection H1 as <-. discriminate.
      * injection H2 as <-. discriminate.
      * eauto.
    + intros k ck obj H1 H2. rewrite get_set in H1.
      destruct (String.eqb_spec k l); [|eauto].
      subst. injection H1 as <-. discriminate.
    + exact Hcnt.
    + intros k ck obj H1 H2. rewrite get_set in H1.
      destruct (String.eqb_spec k l); [|eauto].
      subst. injection H1 as <-. discriminate.
Qed.

Lemma reachable_sound s : reachable s -> sound s.
Proof.
  apply reachable_keeps; [apply new_plugin_sound|].
  intros s0 s' H0 H. now apply (elem_sound s0 s').
Qed.

Lemma demo_closed_reachable : reachable demo_closed.
Proof. apply reach_close_client, demo_both_reachable. Qed.

(** X2: no two languages ever hold the same client object. *)
Theorem languages_never_share_a_client
  (s : manager) (l1 l2 : string) (c1 c2 : client) (obj : nat) :
  reachable s ->
  PyDict.get l1 (clients s) = Some c1 ->
  PyDict.get l2 (clients s) = Some c2 ->
  instance c1 = Some obj ->
  instance c2 = Some obj ->
  l1 = l2.
Proof.
  intros Hr. destruct (reachable_sound s Hr) as (_ & _ & Hdis & _). apply Hdis.
Qed.

Lemma languages_never_share_a_client_witness :
  PyDict.get "python" (clients demo_both) =
    Some {| status := RUNNING;
            config_of := python_config demo_env;
            instance := Some 0 |} /\
  "python" = "python".
Proof.
  split; [reflexivity|].
  exact (languages_never_share_a_client demo_both "python" "python"
           {| status := RUNNING;
              config_of := python_config demo_env;
              instance := Some 0 |}
           {| status := RUNNING;
              config_of := python_config demo_env;
              instance := Some 0 |} 0
           demo_both_reachable eq_refl eq_refl eq_refl eq_refl).
Defined.

(** X3: the client object a record holds was created by the plugin for
    the language of the record, with the very configuration the record
    holds as its server settings; it was created once and started once. *)
Theorem held_client_was_created_for_its_language
  (s : manager) (l : string) (c : client) (obj : nat) :
  reachable s ->
  PyDict.get l (clients s) = Some c ->
  instance c = Some obj ->
  (exists folder, In (LSPClient_new obj (config_of c) folder l) (trace s)) /\
  count (creates obj) (trace s) = 1 /\
  count (starts obj) (trace s) = 1.
Proof.
  intros Hr Hg Hi.
  destruct (reachable_sound s Hr) as (Hwf & _ & _ & Hprov & Hcnt & _).
  split; [eauto|].
  destruct (parts_client _ _ _ _ _ _ Hwf Hg) as (_ & _ & Hlt).
  specialize (Hlt obj Hi). apply Nat.ltb_lt in Hlt.
  destruct (Hcnt obj) as (H1 & H2 & _). now rewrite H1, H2, Hlt.
Qed.

Lemma held_client_was_created_for_its_language_witness :
  (exists folder,
      In (LSPClient_new 1 r_config folder "r") (trace demo_closed)) /\
  count (creates 1) (trace demo_closed) = 1 /\
  count (starts 1) (trace demo_closed) = 1.
Proof.
  exact (held_client_was_created_for_its_language demo_closed "r"
           {| status := RUNNING; config_of := r_config; instance := Some 1 |}
           1 demo_closed_reachable eq_refl eq_refl).
Defined.



(** X5: the status of a record agrees with the calls made on its client
    object: the object of a record with status ['running'] has never been
    stopped, and the object of a record with any other status has been
    stopped exactly once. *)
Theorem status_agrees_with_stop_calls
  (s : manager) (l : string) (c : client) (obj : nat) :
  reachable s ->
  PyDict.get l (clients s) = Some c ->
  instance c = Some obj ->
  (status c = RUNNING -> count (stops obj) (trace s) = 0) /\
  (status c <> RUNNING -> count (stops obj) (trace s) = 1).
Proof.
  intros Hr Hg Hi.
  destruct (reachable_sound s Hr) as (_ & _ & _ & _ & _ & Hheld).
  rewrite (Hheld l c obj Hg Hi). split.
  - intros ->. reflexivity.
  - intros H. apply String.eqb_neq in H. now rewrite H.
Qed.

Lemma status_agrees_with_stop_calls_witness :
  count (stops 0) (trace demo_closed) = 1 /\
  count (stops 1) (trace demo_closed) = 0.
Proof.
  split.
  - apply (status_agrees_with_stop_calls demo_closed "python"
             {| status := STOPPED;
                config_of := python_config demo_env;
                instance := Some 0 |} 0 demo_closed_reachable eq_refl eq_refl).
    discriminate.
  - apply (status_agrees_with_stop_calls demo_closed "r"
             {| status := RUNNING; config_of := r_config; instance := Some 1 |}
             1 demo_closed_reachable eq_refl eq_refl).
    reflexivity.
Defined.

(** X6: [register_queue] has a queue for exactly the languages that
    [clients] registers. *)
Theorem queue_keys_are_client_keys (s : manager) (l : string) :
  reachable s ->
  PyDict.contains l (register_queue s) = PyDict.contains l (clients s).
Proof.
  intros Hr. destruct (reachable_sound s Hr) as (Hwf & Hsub & _).
  destruct Hwf as (_ & _ & Hsup).
  destruct (PyDict.contains l (clients s)) eqn:E.
  - now apply Hsup.
  - destruct (PyDict.contains l (register_queue s)) eqn:E'; [|reflexivity].
    apply Hsub in E'. congruence.
Qed.

Lemma queue_keys_are_client_keys_witness :
  PyDict.contains "julia" (register_queue demo_closed) = false /\
  PyDict.contains "r" (register_queue demo_closed) = true.
Proof.
  split.
  - rewrite (queue_keys_are_client_keys demo_closed "julia"
               demo_closed_reachable). reflexivity.
  - rewrite (queue_keys_are_client_keys demo_closed "r"
               demo_closed_reachable). reflexivity.
Defined.

(* ================================================================== *)
(** ** What no method ever does *)

Lemma extends_refl (A : Type) (l : list A) : extends l l.
Proof. exists []. now rewrite app_nil_r. Qed.

Lemma extends_trans (A : Type) (l1 l2 l3 : list A) :
  extends l1 l2 -> extends l2 l3 -> extends l1 l3.
Proof.
  intros (m1 & ->) (m2 & ->). exists (m1 ++ m2). now rewrite app_assoc.
Qed.

Lemma keys_set_extends (V : Type) (k : string) (v : V) (d : PyDict.t V) :
  extends (PyDict.keys d) (PyDict.keys (PyDict.set k v d)).
Proof.
  destruct (PyDict.get k d) eqn:E.
  - rewrite keys_set_bound by congruence. apply extends_refl.
  - rewrite keys_set_new by exact E. now exists [k].
Qed.

Lemma elem_keys s s' :
  elem s s' ->
  extends (PyDict.keys (clients s)) (PyDict.keys (clients s')) /\
  extends (PyDict.keys (register_queue s))
          (PyDict.keys (register_queue s')).
Proof.
  intros H.
  destruct H as [s s' ((Hc & Hq & Hn) & _)| | | | | | | ];
    cbn [clients register_queue];
    try (split; first [apply extends_refl | apply keys_set_extends]).
  rewrite Hc, Hq. split; apply extends_refl.
Qed.

Lemma steps_keys s s' :
  steps s s' ->
  extends (PyDict.keys (clients s)) (PyDict.keys (clients s')) /\
  extends (PyDict.keys (register_queue s))
          (PyDict.keys (register_queue s')).
Proof.
  induction 1 as [s|s1 s2 s3 H12 H23 (IH1 & IH2)].
  - split; apply extends_refl.
  - destruct (elem_keys s1 s2 H12) as (H1 & H2).
    split; eapply extends_trans; eauto.
Qed.

(** X7: no method ever removes a language or changes the order of the
    languages: after any call, [clients] and [register_queue] have the
    keys they had, in the same order, with the new languages after
    them. *)
Theorem languages_are_never_removed (m : method_call) (s : manager) :
  extends (PyDict.keys (clients s)) (PyDict.keys (clients (after m s))) /\
  extends (PyDict.keys (register_queue s))
          (PyDict.keys (register_queue (after m s))).
Proof. apply steps_keys, after_steps. Qed.

Lemma elem_queue_grows s s' :
  elem s s' ->
  (forall l, PyDict.contains l (register_queue s) = true ->
             PyDict.contains l (clients s) = true) ->
  forall l q,
    PyDict.get l (register_queue s) = Some q ->
    exists q', PyDict.get l (register_queue s') = Some (q ++ q').
Proof.
  intros H Hsub l q Hq.
  destruct H as [s s' ((Hc & Hqq & Hn) & _)|l0 c q0 entry s Hg Hi Hq0
    | | | | |env l0 s Hg| ]; cbn [register_queue];
    try (exists []; now rewrite app_nil_r).
  - exists []. now rewrite Hqq, app_nil_r.
  - rewrite get_set. destruct (String.eqb_spec l l0).
    + subst. exists [entry]. congruence.
    + exists []. now rewrite app_nil_r.
  - rewrite get_set. destruct (String.eqb_spec l l0).
    + subst. apply contains_get, Hsub in Hq.
      unfold PyDict.contains in Hq. rewrite Hg in Hq. discriminate.
    + exists []. now rewrite app_nil_r.
Qed.

Lemma steps_queue_grows s s' :
  steps s s' -> sound s ->
  forall l q,
    PyDict.get l (register_queue s) = Some q ->
    exists q', PyDict.get l (register_queue s') = Some (q ++ q').
Proof.
  induction 1 as [s|s1 s2 s3 H12 H23 IH]; intros Hs l q Hq.
  - exists []. now rewrite app_nil_r.
  - destruct (elem_queue_grows s1 s2 H12 (proj1 (proj2 Hs)) l q Hq)
      as (q1 & Hq1).
    destruct (IH (elem_sound s1 s2 H12 Hs) l _ Hq1) as (q2 & Hq2).
    exists (q1 ++ q2). now rewrite app_assoc.
Qed.

(** X8: a queue only ever grows at its end: whatever method is called,
    the registrations that were queued for a language are still queued
    afterwards, in the same order and before any new one.  In particular
    no method ever empties a queue that holds a registration. *)
Theorem queued_registrations_stay_queued
  (m : method_call) (s : manager) (l : string) (q : list registration) :
  reachable s ->
  PyDict.get l (register_queue s) = Some q ->
  exists q', PyDict.get l (register_queue (after m s)) = Some (q ++ q').
Proof.
  intros Hr. apply steps_queue_grows; [apply after_steps|].
  now apply reachable_sound.
Qed.

Lemma queued_registrations_stay_queued_witness :
  exists q',
    PyDict.get "python"
      (register_queue (after (call_start_client demo_env "python") demo_queued))
    = Some ([("script.py", 7)] ++ q').
Proof.
  exact (queued_registrations_stay_queued (call_start_client demo_env "python")
           demo_queued "python" [("script.py", 7)]
           demo_queued_reachable eq_refl).
Defined.

Lemma for_each_rel (R : manager -> manager -> Prop) (A : Type)
  (body : A -> M unit) (xs : list A) :
  (forall s, R s s) ->
  (forall s1 s2 s3, R s1 s2 -> R s2 s3 -> R s1 s3) ->
  (forall x s, R s (snd (body x s))) ->
  forall s, R s (snd (for_each xs body s)).
Proof.
  intros Hrefl Htrans Hbody. induction xs as [|x rest IH]; intros s; cbn;
    [apply Hrefl|].
  unfold bind. specialize (Hbody x s).
  destruct (body x s) as [[[]|e] s1]; cbn in *; [|exact Hbody].
  eapply Htrans; [exact Hbody | apply IH].
Qed.

Lemma hands_nothing_refl s : hands_nothing s s.
Proof. reflexivity. Qed.

Lemma hands_nothing_trans s1 s2 s3 :
  hands_nothing s1 s2 -> hands_nothing s2 s3 -> hands_nothing s1 s3.
Proof. unfold hands_nothing. congruence. Qed.

Lemma hands_file_registry e : hands_file e = true -> registry_event e = true.
Proof. now destruct e. Qed.

Lemma talks_hands_nothing s s' : talks s s' -> hands_nothing s s'.
Proof.
  intros (_ & evs & Ht & Hev). unfold hands_nothing.
  rewrite Ht, count_app, (count_none hands_file evs hands_file_registry Hev).
  apply Nat.add_0_r.
Qed.

Lemma count_hands_start_events env l cfg n :
  count hands_file (start_events env l cfg n) = 0.
Proof.
  unfold start_events.
  change (LSPClient_new n cfg (get_root_path env l) l
          :: signal_connections env n ++ [client_start n])
    with ([LSPClient_new n cfg (get_root_path env l) l]
          ++ signal_connections env n ++ [client_start n]).
  rewrite !count_app, !count_single.
  now rewrite (count_signal_connections _ env n hands_file_registry).
Qed.

Lemma start_client_hands_nothing env l s :
  hands_nothing s (snd (start_client env l s)).
Proof.
  rewrite start_client_eq. unfold hands_nothing.
  destruct (PyDict.get l (clients s)); [|reflexivity].
  destruct (PyDict.get l (register_queue s)) as [q|]; [|reflexivity].
  destruct (pytest_gate env); [reflexivity|].
  destruct (String.eqb _ STOPPED); [|reflexivity].
  destruct q; cbv zeta; cbn [snd trace].
  all: now rewrite count_app, count_hands_start_events, Nat.add_0_r.
Qed.

Lemma close_client_hands_nothing l s :
  hands_nothing s (snd (close_client l s)).
Proof.
  rewrite close_client_eq. unfold hands_nothing.
  destruct (PyDict.get l (clients s)) as [c|]; [|reflexivity].
  destruct (String.eqb _ RUNNING); [|reflexivity].
  destruct (instance c); [|reflexivity].
  cbn [snd trace]. now rewrite count_app, count_single.
Qed.

Lemma update_server_hands_nothing env l s :
  hands_nothing s (snd (update_server env l s)).
Proof.
  rewrite update_server_eq. cbv zeta.
  eapply hands_nothing_trans;
    [apply talks_hands_nothing, (wrote_talks env l)|].
  generalize (wrote env l s). clear s. intros s.
  destruct (PyDict.get l (clients s)) as [c|]; [|reflexivity].
  destruct (restart_needed _ _).
  - destruct (String.eqb _ STOPPED); [reflexivity|].
    destruct (String.eqb _ RUNNING); [|reflexivity].
    unfold restart_state.
    destruct (main env) as [[[] co [] p]|]; cbn [editor projects];
      try reflexivity.
    + destruct (instance c); cbv beta iota; cbn [snd].
      * eapply hands_nothing_trans; [|apply start_client_hands_nothing].
        unfold hands_nothing. cbn [trace]. now rewrite count_app.
      * unfold hands_nothing. cbn [trace]. now rewrite count_app.
    + unfold hands_nothing. cbv beta iota. cbn [snd trace].
      now rewrite count_app.
  - destruct (String.eqb _ RUNNING); [|reflexivity].
    destruct (instance c); [|reflexivity].
    unfold hands_nothing. cbn [snd trace]. now rewrite count_app.
Qed.

(** X9: [register_file] is the only method that ever hands a file to a
    client: no other call adds a [register_file] call on any client
    object to the calls made.  With the queues only growing, a
    registration that was queued is never handed to any client. *)
Theorem only_register_file_hands_files (m : method_call) (s : manager) :
  not_register_file m = true ->
  count hands_file (trace (after m s)) = count hands_file (trace s).
Proof.
  intros Hm. change (hands_nothing s (after m s)).
  destruct m; try discriminate; cbn [after].
  - apply start_client_hands_nothing.
  - apply close_client_hands_nothing.
  - unfold shutdown, bind, gets.
    apply for_each_rel;
      [exact hands_nothing_refl | exact hands_nothing_trans|].
    intros x s0. apply close_client_hands_nothing.
  - unfold update_server_list.
    apply for_each_rel;
      [exact hands_nothing_refl | exact hands_nothing_trans|].
    intros x s0. apply update_server_hands_nothing.
  - unfold update_client_status, bind, gets.
    apply for_each_rel;
      [exact hands_nothing_refl | exact hands_nothing_trans|].
    intros x s0. destruct (negb _);
      [apply close_client_hands_nothing | apply hands_nothing_refl].
  - apply talks_hands_nothing, send_request_talks.
  - apply talks_hands_nothing, broadcast_request_talks.
  - apply talks_hands_nothing, reinitialize_all_clients_talks.
  - apply talks_hands_nothing, report_server_error_talks.
  - apply talks_hands_nothing, register_client_instance_talks.
Qed.

Lemma only_register_file_hands_files_witness :
  count hands_file
    (trace (after (call_start_client demo_env "python") demo_queued))
  = count hands_file (trace demo_queued).
Proof.
  exact (only_register_file_hands_files (call_start_client demo_env "python")
           demo_queued eq_refl).
Defined.

Lemma start_client_gated env l s :
  pytest_gate env = true -> creates_nothing s (snd (start_client env l s)).
Proof.
  intros Hg. rewrite start_client_eq, Hg. unfold creates_nothing.
  destruct (PyDict.get l (clients s)); [|reflexivity].
  destruct (PyDict.get l (register_queue s)); reflexivity.
Qed.

Lemma close_client_creates_nothing l s :
  creates_nothing s (snd (close_client l s)).
Proof.
  rewrite close_client_eq. unfold creates_nothing.
  destruct (PyDict.get l (clients s)) as [c|]; [|reflexivity].
  destruct (String.eqb _ RUNNING); [|reflexivity].
  destruct (instance c); reflexivity.
Qed.

Lemma creates_nothing_wrote env l s s' :
  creates_nothing (wrote env l s) s' -> creates_nothing s s'.
Proof. intros H. exact H. Qed.

Lemma update_server_gated env l s :
  pytest_gate env = true -> creates_nothing s (snd (update_server env l s)).
Proof.
  intros Hg. rewrite update_server_eq. cbv zeta.
  apply (creates_nothing_wrote env l).
  generalize (wrote env l s). clear s. intros s. unfold creates_nothing.
  destruct (PyDict.get l (clients s)) as [c|]; [|reflexivity].
  destruct (restart_needed _ _).
  - destruct (String.eqb _ STOPPED); [reflexivity|].
    destruct (String.eqb _ RUNNING); [|reflexivity].
    unfold restart_state.
    destruct (main env) as [[[] co [] p]|]; cbn [editor projects];
      try reflexivity.
    destruct (instance c); cbn [snd]; [|reflexivity].
    now rewrite start_client_gated.
  - destruct (String.eqb _ RUNNING); [|reflexivity].
    destruct (instance c); reflexivity.
Qed.

Lemma talks_creates_nothing s s' : talks s s' -> creates_nothing s s'.
Proof. intros ((_ & _ & Hn) & _). exact Hn. Qed.

(** X10: under the test gate nothing is ever started.  When [start_client]
    or [update_server_list] runs in a test session that did not ask for
    introspection (and whenever any other method runs), no client object
    is created and no client is started; [update_server_list] may still
    stop clients. *)
Theorem nothing_starts_under_the_gate
  (m : method_call) (s : manager) (obj : nat) :
  reachable s ->
  under_gate m = true ->
  next_obj (after m s) = next_obj s /\
  count (creates obj) (trace (after m s)) = count (creates obj) (trace s) /\
  count (starts obj) (trace (after m s)) = count (starts obj) (trace s).
Proof.
  intros Hr Hm.
  assert (Hn : creates_nothing s (after m s)).
  { assert (Htrans : forall s1 s2 s3, creates_nothing s1 s2 ->
                       creates_nothing s2 s3 -> creates_nothing s1 s3)
      by (unfold creates_nothing; congruence).
    assert (Hrefl : forall s0, creates_nothing s0 s0) by reflexivity.
    destruct m; cbn [after under_gate] in *.
    - rewrite register_file_eq. unfold creates_nothing.
      destruct (PyDict.get language (clients s)) as [c|]; [|reflexivity].
      destruct (instance c); [reflexivity|].
      destruct (PyDict.get language (register_queue s)); reflexivity.
    - now apply start_client_gated.
    - apply close_client_creates_nothing.
    - unfold shutdown, bind, gets.
      apply for_each_rel; [exact Hrefl | exact Htrans|].
      intros x s0. apply close_client_creates_nothing.
    - unfold update_server_list.
      apply for_each_rel; [exact Hrefl | exact Htrans|].
      intros x s0. now apply update_server_gated.
    - unfold update_client_status, bind, gets.
      apply for_each_rel; [exact Hrefl | exact Htrans|]. intros x s0.
      destruct (negb _); [apply close_client_creates_nothing | apply Hrefl].
    - apply talks_creates_nothing, send_request_talks.
    - apply talks_creates_nothing, broadcast_request_talks.
    - apply talks_creates_nothing, reinitialize_all_clients_talks.
    - apply talks_creates_nothing, report_server_error_talks.
    - apply talks_creates_nothing, register_client_instance_talks. }
  split; [exact Hn|].
  destruct (reachable_sound s Hr) as (_ & _ & _ & _ & Hcnt & _).
  destruct (reachable_sound _ (reachable_after m s Hr))
    as (_ & _ & _ & _ & Hcnt' & _).
  destruct (Hcnt obj) as (-> & -> & _).
  destruct (Hcnt' obj) as (-> & -> & _).
  unfold creates_nothing in Hn. rewrite Hn. auto.
Qed.

Lemma test_started_reachable : reachable test_started.
Proof. apply reach_start_client, reach_init. Qed.

Lemma nothing_starts_under_the_gate_witness :
  next_obj (after (call_update_server_list test_env_gated) test_started)
    = next_obj test_started /\
  count (creates 1)
    (trace (after (call_update_server_list test_env_gated) test_started))
    = count (creates 1) (trace test_started) /\
  count (starts 1)
    (trace (after (call_update_server_list test_env_gated) test_started))
    = count (starts 1) (trace test_started).
Proof.
  exact (nothing_starts_under_the_gate
           (call_update_server_list test_env_gated) test_started 1
           test_started_reachable eq_refl).
Defined.

(* ================================================================== *)
(** ** How the methods compose *)

(** X11: [start_client] can be retried.  Once a call has created the
    client of a stopped language -- whether it then returned or raised on
    a queued registration -- a second call creates nothing: it returns
    [True] and leaves the plugin as the first call left it. *)
Theorem start_client_twice
  (env env' : Env) (l : string) (s : manager) (c : client) :
  reachable s ->
  PyDict.get l (clients s) = Some c ->
  status c = STOPPED ->
  pytest_gate env = false ->
  pytest_gate env' = false ->
  next_obj (snd (start_client env l s)) = S (next_obj s) /\
  start_client env' l (snd (start_client env l s))
  = (Ok true, snd (start_client env l s)).
Proof.
  intros Hr Hg Hst Hgate Hgate'. apply reachable_well_formed in Hr.
  pose proof (parts_queue_bound _ _ _ _ _ _ Hr Hg) as Hq.
  unfold PyDict.contains in Hq.
  destruct (PyDict.get l (register_queue s)) as [q|] eqn:Hqueue;
    [|discriminate].
  rewrite (start_client_eq env l s), Hg, Hqueue, Hgate, Hst.
  change (String.eqb STOPPED STOPPED) with true. cbv iota zeta.
  destruct q as [|entry q]; cbn [snd next_obj]; (split; [reflexivity|]);
    rewrite start_client_eq; cbn [clients register_queue];
    rewrite get_set_same, ?get_set_same, ?Hqueue, Hgate'; reflexivity.
Qed.

Lemma start_client_twice_witness :
  next_obj (snd (start_client demo_env "python" demo_queued)) = 1 /\
  start_client demo_env "python"
    (snd (start_client demo_env "python" demo_queued))
  = (Ok true, snd (start_client demo_env "python" demo_queued)).
Proof.
  exact (start_client_twice demo_env demo_env "python" demo_queued
           (fresh_record demo_env "python") demo_queued_reachable
           eq_refl eq_refl eq_refl eq_refl).
Defined.

(** X12: registrations are queued in the order of the calls.  While the
    record of a language holds no client object, registering a list of
    files one after the other leaves the queue of the language with
    these registrations after the earlier ones, in the same order, and
    changes nothing else. *)
Theorem register_file_queues_in_order
  (files : list registration) (l : string) (s : manager) (c : client)
  (q : list registration) :
  PyDict.get l (clients s) = Some c ->
  instance c = None ->
  PyDict.get l (register_queue s) = Some q ->
  for_each files (fun entry => register_file l (fst entry) (snd entry)) s =
  (Ok tt,
   {| clients := clients s;
      register_queue := PyDict.set l (q ++ files) (register_queue s);
      next_obj := next_obj s;
      trace := trace s |}).
Proof.
  revert s q. induction files as [|[f e] rest IH]; intros s q Hg Hi Hq; cbn.
  - rewrite app_nil_r, (set_get_same _ _ _ _ Hq). now destruct s.
  - unfold bind. rewrite register_file_eq, Hg, Hi, Hq.
    rewrite (IH _ (q ++ [(f, e)])); cbn [clients register_queue]; auto.
    + now rewrite set_set, <- app_assoc.
    + apply get_set_same.
Qed.

Lemma register_file_queues_in_order_witness :
  for_each [("a.py", 1); ("b.py", 2)]
    (fun entry => register_file "python" (fst entry) (snd entry)) demo_queued =
  (Ok tt,
   {| clients := clients demo_queued;
      register_queue :=
        PyDict.set "python" ([("script.py", 7)] ++ [("a.py", 1); ("b.py", 2)])
          (register_queue demo_queued);
      next_obj := next_obj demo_queued;
      trace := trace demo_queued |}).
Proof.
  exact (register_file_queues_in_order [("a.py", 1); ("b.py", 2)] "python"
           demo_queued (fresh_record demo_env "python") [("script.py", 7)]
           eq_refl eq_refl eq_refl).
Defined.

(** X13: [close_client] keeps the client object in the record, so a file
    registered after the client of a language was closed is not queued:
    it is handed to the closed client, on which [stop()] has been
    called. *)
Theorem register_file_after_close
  (l filename : string) (codeeditor : nat) (s : manager) (c : client)
  (obj : nat) :
  reachable s ->
  PyDict.get l (clients s) = Some c ->
  instance c = Some obj ->
  status c = RUNNING ->
  count (stops obj) (trace (snd (close_client l s))) = 1 /\
  register_file l filename codeeditor (snd (close_client l s)) =
  (Ok tt,
   {| clients := clients (snd (close_client l s));
      register_queue := register_queue s;
      next_obj := next_obj s;
      trace := trace s ++ [client_stop obj;
                           client_register_file obj filename codeeditor] |}).
Proof.
  intros Hr Hg Hi Hst.
  destruct (reachable_sound _ (reachable_after (call_close_client l) s Hr))
    as (_ & _ & _ & _ & _ & Hheld).
  cbn [after] in Hheld.
  rewrite close_client_eq, Hg, Hst, Hi in *.
  change (String.eqb RUNNING RUNNING) with true in *. cbv iota in *.
  cbn [snd clients register_queue next_obj trace] in *.
  split.
  - rewrite (Hheld l (set_status STOPPED c) obj); auto using get_set_same.
  - rewrite register_file_eq. cbn [clients register_queue next_obj trace].
    rewrite get_set_same. cbn [instance set_status]. rewrite Hi.
    now rewrite <- app_assoc.
Qed.

Lemma register_file_after_close_witness :
  count (stops 0) (trace (snd (close_client "python" demo_both))) = 1 /\
  register_file "python" "late.py" 9 (snd (close_client "python" demo_both)) =
  (Ok tt,
   {| clients := clients (snd (close_client "python" demo_both));
      register_queue := register_queue demo_both;
      next_obj := next_obj demo_both;
      trace := trace demo_both
               ++ [client_stop 0; client_register_file 0 "late.py" 9] |}).
Proof.
  exact (register_file_after_close "python" "late.py" 9 demo_both
           {| status := RUNNING;
              config_of := python_config demo_env;
              instance := Some 0 |} 0
           demo_both_reachable eq_refl eq_refl eq_refl).
Defined.

Lemma set_status_stopped_same c : status c = STOPPED -> set_status STOPPED c = c.
Proof. destruct c. cbn. now intros ->. Qed.

Lemma close_client_not_running l s :
  (forall c, PyDict.get l (clients s) = Some c -> status c = STOPPED) ->
  close_client l s = (Ok tt, s).
Proof.
  intros H. rewrite close_client_eq.
  destruct (PyDict.get l (clients s)) as [c|] eqn:Hg; [|reflexivity].
  rewrite (H c eq_refl). change (String.eqb STOPPED RUNNING) with false.
  cbv iota. rewrite set_status_stopped_same by auto.
  rewrite (set_get_same _ _ _ _ Hg). now destruct s.
Qed.

Lemma close_loop_not_running (f : string -> bool) (ls : list string) s :
  (forall l c, PyDict.get l (clients s) = Some c -> status c = STOPPED) ->
  for_each ls (fun l => if f l then close_client l else ret tt) s = (Ok tt, s).
Proof.
  intros H. induction ls as [|x rest IH]; cbn; [reflexivity|].
  unfold bind. destruct (f x).
  - rewrite close_client_not_running by eauto. exact IH.
  - exact IH.
Qed.

Lemma shutdown_all_stopped s :
  well_formed s ->
  exists s',
    shutdown s = (Ok tt, s') /\ well_formed s' /\
    forall l c, PyDict.get l (clients s') = Some c -> status c = STOPPED.
Proof.
  intros Hwf.
  destruct (close_loop (fun _ => true) _ (proj1 Hwf) s Hwf)
    as (s' & Hrun & Hwf' & _ & _ & Hg & _).
  exists s'. split; [|split; [exact Hwf'|]].
  - unfold shutdown, bind, gets. cbn. rewrite <- Hrun. now apply for_each_ext.
  - intros l c. rewrite Hg.
    destruct (PyDict.get l (clients s)) as [c0|] eqn:E; [|discriminate].
    cbn. rewrite (in_list_keys _ _ _ _ E). cbn. now intros [= <-].
Qed.

(** X14: after [shutdown] the plugin is quiet.  A second [shutdown]
    returns without a call and without a change, and no request is
    forwarded any more: [send_request] and [broadcast_request] return
    without calling any client. *)
Theorem shutdown_is_final
  (s : manager) (language : pyval) (request : string) (params : params_t) :
  reachable s ->
  shutdown (snd (shutdown s)) = (Ok tt, snd (shutdown s)) /\
  send_request language request params (snd (shutdown s))
    = (Ok tt, snd (shutdown s)) /\
  broadcast_request request params (snd (shutdown s))
    = (Ok (PyDict.remove "language" params), snd (shutdown s)).
Proof.
  intros Hr. apply reachable_well_formed in Hr.
  destruct (shutdown_all_stopped s Hr) as (s' & Hrun & Hwf' & Hst).
  rewrite Hrun. cbn [snd].
  assert (Hnone : forall l, perform_calls (clients_lookup l (clients s'))
                              request (PyDict.remove "language" params) = []).
  { intros l. unfold perform_calls.
    destruct (clients_lookup l (clients s')) as [c|] eqn:E; [|reflexivity].
    destruct l; try discriminate. cbn in E. now rewrite (Hst _ _ E). }
  split; [|split].
  - unfold shutdown, bind, gets. cbn.
    exact (close_loop_not_running (fun _ => true) _ s' Hst).
  - rewrite send_request_eq.
    destruct (clients_lookup language (clients s')) as [c|] eqn:E;
      [|reflexivity].
    destruct language; try discriminate. cbn in E. now rewrite (Hst _ _ E).
  - unfold broadcast_request.
    destruct (truthy _) eqn:Et.
    + unfold bind, ret. rewrite send_request_calls by exact Hwf'.
      rewrite Hnone, app_nil_r. now destruct s'.
    + unfold bind, gets, ret. cbn. rewrite send_loop by exact Hwf'.
      rewrite (flat_map_ext_In _ _ _ (fun _ => []) (PyDict.keys (clients s'))).
      * replace (flat_map (fun _ : string => []) (PyDict.keys (clients s')))
          with (@nil event) by (now induction (PyDict.keys (clients s'))).
        rewrite app_nil_r. now destruct s'.
      * intros l _. exact (Hnone (PStr l)).
Qed.

Lemma shutdown_is_final_witness :
  shutdown (snd (shutdown demo_both)) = (Ok tt, snd (shutdown demo_both)) /\
  send_request (PStr "python") "textDocument/didOpen" [("file", PStr "a.py")]
    (snd (shutdown demo_both)) = (Ok tt, snd (shutdown demo_both)) /\
  broadcast_request "textDocument/didOpen" [("file", PStr "a.py")]
    (snd (shutdown demo_both))
  = (Ok (PyDict.remove "language" [("file", PStr "a.py")]),
     snd (shutdown demo_both)).
Proof.
  exact (shutdown_is_final demo_both (PStr "python") "textDocument/didOpen"
           [("file", PStr "a.py")] demo_both_reachable).
Defined.

(** X15: [update_client_status] with an empty set of active languages is
    [shutdown], and with a set that holds every language of [clients] it
    returns without touching the plugin. *)
Theorem update_client_status_extremes (s : manager) (active_set : list string) :
  update_client_status [] s = shutdown s /\
  ((forall l, In l (PyDict.keys (clients s)) -> In l active_set) ->
   update_client_status active_set s = (Ok tt, s)).
Proof.
  split.
  - unfold update_client_status, shutdown, bind, gets. cbn.
    now apply for_each_ext.
  - intros H. unfold update_client_status, bind, gets. cbn.
    generalize (PyDict.keys (clients s)) H. intros ls Hls.
    assert (Hgen : forall s0,
              for_each ls (fun language =>
                if negb (in_list language active_set)
                then close_client language else ret tt) s0 = (Ok tt, s0)).
    { induction ls as [|x rest IH]; intros s0; cbn; [reflexivity|].
      unfold bind.
      assert (Hx : in_list x active_set = true)
        by (apply in_list_In, Hls; now left).
      rewrite Hx. cbn. apply IH. intros l Hl. apply Hls. now right. }
    apply Hgen.
Qed.

Lemma update_client_status_extremes_witness :
  update_client_status ["r"; "python"] demo_both = (Ok tt, demo_both).
Proof.
  apply (proj2 (update_client_status_extremes demo_both ["r"; "python"])).
  intros l [<-|[<-|[]]]; cbn; auto.
Defined.

(* ================================================================== *)
(** ** Reinitialising the clients *)

Lemma reinitialize_pass env m x s :
  well_formed s ->
  main env = Some m -> editor m = true ->
  (language_client <- clients_getitem x ;;
   if String.eqb (status language_client) RUNNING then
     main_editor_stop_lsp_services env x ;;
     client_reinitialize (instance language_client) (get_root_path env x)
   else ret tt) s =
  (match PyDict.get x (clients s) with
   | Some _ => Ok tt
   | None => Raise (KeyError x)
   end,
   {| clients := clients s; register_queue := register_queue s;
      next_obj := next_obj s;
      trace := trace s
               ++ reinitialize_calls env x (PyDict.get x (clients s)) |}).
Proof.
  intros Hwf Hm He.
  unfold main_editor_stop_lsp_services, client_reinitialize,
    reinitialize_calls.
  rewrite Hm, He. unfold_prims. cbn.
  destruct (PyDict.get x (clients s)) as [c|] eqn:Hg.
  2:{ destruct s; cbn. now rewrite app_nil_r. }
  destruct (parts_client _ _ _ _ _ _ Hwf Hg) as (_ & Hrun & _).
  destruct (String.eqb (status c) RUNNING) eqn:E.
  - apply String.eqb_eq in E. specialize (Hrun E).
    destruct (instance c); [|congruence]. cbn.
    now rewrite <- !app_assoc.
  - destruct s; cbn. now rewrite app_nil_r.
Qed.

Lemma reinitialize_loop env m ls :
  main env = Some m -> editor m = true ->
  forall s,
    well_formed s ->
    (forall l, In l ls -> PyDict.get l (clients s) <> None) ->
    for_each ls (fun language =>
      language_client <- clients_getitem language ;;
      if String.eqb (status language_client) RUNNING then
        main_editor_stop_lsp_services env language ;;
        client_reinitialize (instance language_client)
          (get_root_path env language)
      else ret tt) s =
    (Ok tt,
     {| clients := clients s; register_queue := register_queue s;
        next_obj := next_obj s;
        trace := trace s
                 ++ flat_map (fun l => reinitialize_calls env l
                                         (PyDict.get l (clients s))) ls |}).
Proof.
  intros Hm He. induction ls as [|x rest IH]; intros s Hwf Hin; cbn.
  - destruct s; unfold ret; cbn. now rewrite app_nil_r.
  - unfold bind at 1. rewrite (reinitialize_pass env m x s Hwf Hm He).
    destruct (PyDict.get x (clients s)) as [c|] eqn:Hg.
    2:{ exfalso. apply (Hin x); [now left | exact Hg]. }
    rewrite IH; cbn [clients register_queue next_obj trace].
    + now rewrite <- app_assoc.
    + exact Hwf.
    + intros l Hl. apply Hin. now right.
Qed.

(** X16: [reinitialize_all_clients] never changes the registry.  Without
    a main window, or with a main window that has no projects plugin, it
    raises before any call.  With the projects plugin and the editor
    there, it returns after having stopped the services of the projects
    and, for every running language in the order of [clients], stopped
    the services of the editor for it, set the folder of its client to
    the root path and called [initialize()] on it; stopped languages get
    no call. *)
Theorem reinitialize_all_clients_calls (env : Env) (s : manager) :
  reachable s ->
  same_registry s (snd (reinitialize_all_clients env s)) /\
  (main env = None ->
   reinitialize_all_clients env s = (Raise (AttributeError "projects"), s)) /\
  (forall m, main env = Some m -> projects m = false ->
   reinitialize_all_clients env s
   = (Raise (AttributeError "stop_lsp_services"), s)) /\
  (forall m, main env = Some m -> projects m = true -> editor m = true ->
   reinitialize_all_clients env s =
   (Ok tt,
    {| clients := clients s; register_queue := register_queue s;
       next_obj := next_obj s;
       trace := trace s
                ++ projects_stop_lsp_services
                   :: flat_map (fun l => reinitialize_calls env l
                                           (PyDict.get l (clients s)))
                               (PyDict.keys (clients s)) |})).
Proof.
  intros Hr. apply reachable_well_formed in Hr.
  split; [apply reinitialize_all_clients_same|].
  unfold reinitialize_all_clients, main_projects_stop_lsp_services.
  split; [|split].
  - intros ->. reflexivity.
  - intros m -> Hp. rewrite Hp. reflexivity.
  - intros m Hm Hp He. rewrite Hm, Hp.
    unfold bind at 1. unfold call at 1. unfold bind at 1. unfold gets at 1.
    cbn [clients].
    rewrite (reinitialize_loop env m _ Hm He);
      cbn [clients register_queue next_obj trace].
    + now rewrite <- app_assoc.
    + exact Hr.
    + intros l Hl. now apply get_In_keys.
Qed.

Lemma reinitialize_all_clients_calls_witness :
  reinitialize_all_clients demo_env demo_closed =
  (Ok tt,
   {| clients := clients demo_closed;
      register_queue := register_queue demo_closed;
      next_obj := next_obj demo_closed;
      trace := trace demo_closed
               ++ [projects_stop_lsp_services;
                   editor_stop_lsp_services "r";
                   client_set_folder 1 (lsp_root_path demo_env);
                   client_initialize 1] |}).
Proof.
  exact (proj2 (proj2 (proj2
           (reinitialize_all_clients_calls demo_env demo_closed
              demo_closed_reachable)))
           demo_main eq_refl eq_refl eq_refl).
Defined.

(* ================================================================== *)
(** ** More on updating the list of servers *)

(** X17: [update_server_list] leaves alone every language that
    [get_languages] does not list: a language removed from the
    preferences keeps its record and its queue, and its client, if
    running, is not stopped. *)
Theorem unlisted_languages_are_left_alone
  (env : Env) (s : manager) (l : string) :
  ~ In l (get_languages env) ->
  PyDict.get l (clients (snd (update_server_list env s)))
    = PyDict.get l (clients s) /\
  PyDict.get l (register_queue (snd (update_server_list env s)))
    = PyDict.get l (register_queue s).
Proof.
  intros H. exact (update_loop_same_at env (get_languages env) l H s).
Qed.

Lemma unlisted_languages_are_left_alone_witness :
  PyDict.get "r" (clients (snd (update_server_list demo_env_without_r demo_both)))
  = Some {| status := RUNNING; config_of := r_config; instance := Some 1 |}.
Proof.
  rewrite (proj1 (unlisted_languages_are_left_alone demo_env_without_r
                    demo_both "r"
                    (fun H => match H with
                              | or_introl E => ltac:(discriminate E)
                              | or_intror F => F
                              end))).
  reflexivity.
Defined.

Lemma update_server_without_difference env l s c :
  well_formed s ->
  PyDict.get l (clients s) = Some c ->
  restart_needed (config_of c) (language_config env l) = false ->
  update_server env l s =
  (Ok tt,
   {| clients := clients s; register_queue := register_queue s;
      next_obj := next_obj s;
      trace := trace s ++ config_writes env l
                       ++ configuration_calls env l (Some c) |}).
Proof.
  intros Hwf Hg Hre. rewrite update_server_eq. cbv zeta.
  cbn [wrote clients register_queue next_obj trace].
  rewrite Hg, Hre. unfold configuration_calls.
  destruct (parts_client _ _ _ _ _ _ Hwf Hg) as (_ & Hrun & _).
  destruct (String.eqb (status c) RUNNING) eqn:E.
  - apply String.eqb_eq in E. specialize (Hrun E).
    destruct (instance c); [|congruence].
    rewrite <- app_assoc. reflexivity.
  - unfold wrote. rewrite app_nil_r. reflexivity.
Qed.

Lemma update_loop_without_difference env ls :
  forall s,
    well_formed s ->
    (forall l, In l ls ->
       exists c, PyDict.get l (clients s) = Some c /\
                 restart_needed (config_of c) (language_config env l)
                 = false) ->
    for_each ls (update_server env) s =
    (Ok tt,
     {| clients := clients s; register_queue := register_queue s;
        next_obj := next_obj s;
        trace := trace s
                 ++ flat_map (fun l => config_writes env l
                                       ++ configuration_calls env l
                                            (PyDict.get l (clients s)))
                             ls |}).
Proof.
  induction ls as [|x rest IH]; intros s Hwf H; cbn.
  - destruct s; unfold ret; cbn. now rewrite app_nil_r.
  - destruct (H x (or_introl eq_refl)) as (c & Hg & Hre).
    unfold bind at 1.
    rewrite (update_server_without_difference env x s c Hwf Hg Hre).
    rewrite IH; cbn [clients register_queue next_obj trace].
    + now rewrite Hg, <- !app_assoc.
    + exact Hwf.
    + intros l Hl. apply H. now right.
Qed.

Lemma shared_settings_app t1 t2 :
  shared_settings (t1 ++ t2) =
  match shared_settings t2 with
  | Some written => Some written
  | None => shared_settings t1
  end.
Proof.
  induction t1 as [|e t1 IH]; cbn.
  - now destruct (shared_settings t2).
  - rewrite IH. now destruct (shared_settings t2).
Qed.

Lemma shared_settings_configuration_calls env l entry :
  shared_settings (configuration_calls env l entry) = None.
Proof.
  unfold configuration_calls. destruct entry as [c|]; [|reflexivity].
  destruct (String.eqb (status c) RUNNING); [|reflexivity].
  now destruct (instance c).
Qed.

Lemma shared_settings_without_difference env (entry : string -> option client)
  ls :
  In "python" ls ->
  shared_settings
    (flat_map (fun l => config_writes env l
                        ++ configuration_calls env l (entry l)) ls)
  = Some (python_configurations env).
Proof.
  assert (Hall : forall ls,
    shared_settings
      (flat_map (fun l => config_writes env l
                          ++ configuration_calls env l (entry l)) ls)
    = None \/
    shared_settings
      (flat_map (fun l => config_writes env l
                          ++ configuration_calls env l (entry l)) ls)
    = Some (python_configurations env)).
  { clear ls. induction ls as [|x rest IH]; [now left|].
    cbn [flat_map]. rewrite !shared_settings_app.
    destruct IH as [-> | ->]; [|now right].
    rewrite shared_settings_configuration_calls. unfold config_writes.
    destruct (String.eqb x "python"); [right | left]; reflexivity. }
  induction ls as [|x rest IH]; intros Hin; [destruct Hin|].
  cbn [flat_map]. rewrite !shared_settings_app.
  destruct (Hall rest) as [Hrest | Hrest]; rewrite Hrest; [|reflexivity].
  rewrite shared_settings_configuration_calls.
  destruct Hin as [-> | Hin].
  - reflexivity.
  - rewrite IH in Hrest by exact Hin. discriminate.
Qed.

(** X18: when every language that [get_languages] lists is registered and
    its new configuration differs from the stored one at none of the six
    server keys, [update_server_list] returns, assigns no record and no
    queue and creates no object.  All it does is, for each listed
    language in turn, to write the new plugin settings into the shared
    dictionary of [PYTHON_CONFIG] (for ['python']) and to hand the
    ['configurations'] of the new configuration to the client of a
    running language.  The write is in place: afterwards the dictionary
    holds the new plugin settings, so the Python record that is stored
    shows them under ['configurations'] although it was not assigned. *)
Theorem update_server_list_without_difference (env : Env) (s : manager) :
  reachable s ->
  (forall l, In l (get_languages env) ->
     exists c, PyDict.get l (clients s) = Some c /\
               restart_needed (config_of c) (language_config env l)
               = false) ->
  update_server_list env s =
  (Ok tt,
   {| clients := clients s; register_queue := register_queue s;
      next_obj := next_obj s;
      trace := trace s
               ++ flat_map (fun l => config_writes env l
                                     ++ configuration_calls env l
                                          (PyDict.get l (clients s)))
                           (get_languages env) |}) /\
  shared_settings (trace (snd (update_server_list env s)))
  = Some (python_configurations env).
Proof.
  intros Hr H.
  assert (Hrun := update_loop_without_difference env (get_languages env) s
                    (reachable_well_formed s Hr) H).
  unfold update_server_list. rewrite Hrun. split; [reflexivity|].
  cbn [snd trace]. rewrite shared_settings_app.
  rewrite (shared_settings_without_difference env
             (fun l => PyDict.get l (clients s))); [reflexivity|].
  left. reflexivity.
Qed.

Lemma update_server_list_without_difference_witness :
  update_server_list demo_env_retuned demo_both =
  (Ok tt,
   {| clients := clients demo_both;
      register_queue := register_queue demo_both;
      next_obj := next_obj demo_both;
      trace := trace demo_both
               ++ [PYTHON_CONFIG_write "{pyls: {pyflakes: off}}";
                   client_send_plugin_configurations 0
                     PYTHON_CONFIG_configurations;
                   client_send_plugin_configurations 1
                     (own_settings "{}")] |}) /\
  shared_settings (trace demo_both) = Some "{pyls}" /\
  shared_settings
    (trace (snd (update_server_list demo_env_retuned demo_both)))
  = Some "{pyls: {pyflakes: off}}".
Proof.
  destruct (update_server_list_without_difference demo_env_retuned demo_both
              demo_both_reachable) as (Hrun & Hshared).
  - intros l [<-|[<-|[]]]; eexists; split; reflexivity.
  - split; [exact Hrun|]. split; [reflexivity | exact Hshared].
Defined.

(* ================================================================== *)
(** ** The languages and their configurations *)

Lemma differs_at_false x c1 c2 :
  differs_at x c1 c2 = false <->
  match x with
  | Kcmd => cmd c1 = cmd c2
  | Kargs => args c1 = args c2
  | Khost => host c1 = host c2
  | Kport => port c1 = port c2
  | Kexternal => external c1 = external c2
  | Kstdio => stdio c1 = stdio c2
  end.
Proof.
  destruct x; cbn; rewrite negb_false_iff;
    first [apply String.eqb_eq | apply Z.eqb_eq | apply Bool.eqb_true_iff].
Qed.

(** No restart is needed exactly when the two configurations agree at
    the six server keys. *)
Lemma restart_needed_false (c1 c2 : config) :
  restart_needed c1 c2 = false <->
  cmd c1 = cmd c2 /\ args c1 = args c2 /\ host c1 = host c2 /\
  port c1 = port c2 /\ external c1 = external c2 /\ stdio c1 = stdio c2.
Proof.
  unfold restart_needed, restart_diff. cbn [map existsb].
  rewrite !orb_false_iff.
  rewrite (differs_at_false Kcmd), (differs_at_false Kargs),
    (differs_at_false Khost), (differs_at_false Kport),
    (differs_at_false Kexternal), (differs_at_false Kstdio).
  tauto.
Qed.

Lemma lower_in_list_python env :
  in_list "python" (map lower (LSP_LANGUAGES env)) = false ->
  ~ In "python"
      (filter (fun option => in_list option (map lower (LSP_LANGUAGES env)))
              (conf_options env)).
Proof.
  intros H Hin. apply filter_In in Hin as (_ & Hin). congruence.
Qed.

(** X20: [get_languages] always lists ['python'], first, and after it the
    options of the configuration section that are the lower-case name of
    an LSP language, in the order of the section.  It lists no language
    twice when the section has no option twice and ['python'] is not the
    lower-case name of an LSP language. *)
Theorem get_languages_lists (env : Env) :
  hd_error (get_languages env) = Some "python" /\
  (forall l, In l (get_languages env) <->
             l = "python" \/
             (In l (conf_options env) /\
              exists name, In name (LSP_LANGUAGES env) /\ lower name = l)) /\
  (NoDup (conf_options env) ->
   in_list "python" (map lower (LSP_LANGUAGES env)) = false ->
   NoDup (get_languages env)).
Proof.
  split; [reflexivity|]. split.
  - intros l. unfold get_languages. cbn [In]. rewrite filter_In, in_list_In.
    rewrite in_map_iff. split.
    + intros [<-|(H1 & name & H2 & H3)]; [now left|]. right. eauto.
    + intros [->|(H1 & name & H2 & H3)]; [now left|]. right. eauto.
  - intros Hnd Hpy. unfold get_languages. constructor.
    + now apply lower_in_list_python.
    + now apply NoDup_filter.
Qed.

Lemma get_languages_lists_witness : NoDup (get_languages demo_env).
Proof.
  apply (proj2 (proj2 (get_languages_lists demo_env))).
  - repeat constructor; cbn; intuition discriminate.
  - reflexivity.
Defined.
(* ================================================================== *)
(** ** Brace matching *)

Section BraceMatching.

Local Open Scope nat_scope.

Lemma split_first_some (c : ascii) (l pre post : list ascii) :
  split_first c l = Some (pre, post) ->
  l = pre ++ c :: post /\ ~ In c pre.
Proof.
  revert pre post; induction l as [|x l IH]; intros pre post; simpl.
  - discriminate.
  - destruct (Ascii.eqb_spec x c) as [->|Hne].
    + intros [= <- <-]. split; [reflexivity | intros []].
    + destruct (split_first c l) as [[pre' post']|]; [|discriminate].
      intros [= <- <-]. destruct (IH _ _ eq_refl) as [-> Hpre].
      split; [reflexivity|]. intros [H|H]; [exact (Hne H) | exact (Hpre H)].
Qed.

Lemma split_first_none (c : ascii) (l : list ascii) :
  split_first c l = None -> ~ In c l.
Proof.
  induction l as [|x l IH]; simpl; [intros _ []|].
  destruct (Ascii.eqb_spec x c) as [->|Hne]; [discriminate|].
  destruct (split_first c l) as [[pre' post']|]; [discriminate|].
  intros _ [H|H]; [exact (Hne H) | exact (IH eq_refl H)].
Qed.

Lemma split_last_some (c : ascii) (l pre post : list ascii) :
  split_last c l = Some (pre, post) ->
  l = pre ++ c :: post /\ ~ In c post.
Proof.
  revert pre post; induction l as [|x l IH]; intros pre post; simpl.
  - discriminate.
  - destruct (split_last c l) as [[pre' post']|] eqn:Hl.
    + intros [= <- <-]. destruct (IH _ _ eq_refl) as [-> Hpost].
      split; [reflexivity | exact Hpost].
    + destruct (Ascii.eqb_spec x c) as [->|Hne]; [|discriminate].
      intros [= <- <-]. split; [reflexivity|].
      clear IH. induction l as [|y l IHl]; [intros []|].
      simpl in Hl. destruct (split_last c l) as [[? ?]|]; [discriminate|].
      destruct (Ascii.eqb_spec y c) as [->|Hy]; [discriminate|].
      intros [H|H]; [exact (Hy H) | exact (IHl eq_refl H)].
Qed.

Lemma split_last_none (c : ascii) (l : list ascii) :
  split_last c l = None -> ~ In c l.
Proof.
  induction l as [|x l IH]; simpl; [intros _ []|].
  destruct (split_last c l) as [[? ?]|]; [discriminate|].
  destruct (Ascii.eqb_spec x c) as [->|Hne]; [discriminate|].
  intros _ [H|H]; [exact (Hne H) | exact (IH eq_refl H)].
Qed.

Lemma opens_absent (o : ascii) (l : list ascii) :
  ~ In o l -> opens o l = 0.
Proof. intros H. unfold opens. apply count_occ_not_In. exact H. Qed.

Lemma opens_app (o : ascii) (l l' : list ascii) :
  opens o (l ++ l') = opens o l + opens o l'.
Proof. unfold opens. apply count_occ_app. Qed.

Lemma opens_other (o c : ascii) (l : list ascii) :
  o <> c -> opens o (c :: l) = opens o l.
Proof. intros H. unfold opens. apply count_occ_cons_neq. congruence. Qed.

Lemma opens_same (o : ascii) (l : list ascii) :
  opens o (o :: l) = S (opens o l).
Proof. unfold opens. apply count_occ_cons_eq. reflexivity. Qed.

Lemma opens_rev (o : ascii) (l : list ascii) :
  opens o (rev l) = opens o l.
Proof.
  induction l as [|x l IH]; [reflexivity|].
  simpl rev. rewrite opens_app, IH. unfold opens. simpl.
  destruct (ascii_dec x o); lia.
Qed.

(** What [first_index] and [last_index] find in the middle part of a
    text. *)
Lemma first_index_out (c : ascii) (R : list ascii) (k a b : nat) :
  b <= k -> first_index c R k a b = (-1)%Z.
Proof.
  revert k; induction R as [|x R IH]; intros k Hk; simpl; [reflexivity|].
  replace (k <? b) with false by (symmetry; apply Nat.ltb_ge; lia).
  rewrite andb_false_r. simpl. apply IH. lia.
Qed.

Lemma first_index_in (c : ascii) (Q R : list ascii) (k a : nat) :
  a <= k ->
  first_index c (Q ++ R) k a (k + length Q) =
  match split_first c Q with
  | Some (pre, _) => Z.of_nat (k + length pre)
  | None => (-1)%Z
  end.
Proof.
  revert k; induction Q as [|x Q IH]; intros k Hk; simpl.
  - apply first_index_out. lia.
  - replace (a <=? k) with true by (symmetry; apply Nat.leb_le; lia).
    replace (k <? k + S (length Q)) with true
      by (symmetry; apply Nat.ltb_lt; lia).
    simpl. destruct (Ascii.eqb x c).
    + simpl. f_equal. lia.
    + replace (k + S (length Q)) with (S k + length Q) by lia.
      rewrite IH by lia.
      destruct (split_first c Q) as [[pre post]|]; [|reflexivity].
      simpl. f_equal. lia.
Qed.

Lemma first_index_decomp (c : ascii) (P Q R : list ascii) (k : nat) :
  first_index c (P ++ Q ++ R) k (k + length P) (k + length P + length Q) =
  match split_first c Q with
  | Some (pre, _) => Z.of_nat (k + length P + length pre)
  | None => (-1)%Z
  end.
Proof.
  revert k; induction P as [|x P IH]; intros k; simpl.
  - rewrite !Nat.add_0_r. apply first_index_in. lia.
  - replace (k + S (length P) <=? k) with false
      by (symmetry; apply Nat.leb_gt; lia).
    simpl.
    replace (k + S (length P)) with (S k + length P) by lia.
    apply IH.
Qed.

Lemma last_index_out (c : ascii) (R : list ascii) (k a b : nat) :
  b <= k -> last_index c R k a b = (-1)%Z.
Proof.
  revert k; induction R as [|x R IH]; intros k Hk; simpl; [reflexivity|].
  rewrite IH by lia. simpl.
  replace (k <? b) with false by (symmetry; apply Nat.ltb_ge; lia).
  rewrite andb_false_r. reflexivity.
Qed.

Lemma last_index_in (c : ascii) (Q R : list ascii) (k a : nat) :
  a <= k ->
  last_index c (Q ++ R) k a (k + length Q) =
  match split_last c Q with
  | Some (pre, _) => Z.of_nat (k + length pre)
  | None => (-1)%Z
  end.
Proof.
  revert k; induction Q as [|x Q IH]; intros k Hk; simpl.
  - apply last_index_out. lia.
  - replace (k + S (length Q)) with (S k + length Q) by lia.
    rewrite IH by lia.
    destruct (split_last c Q) as [[pre post]|].
    + replace (Z.of_nat (S k + length pre) >? -1)%Z with true
        by (symmetry; apply Z.gtb_lt; lia).
      simpl. f_equal. lia.
    + simpl.
      replace (a <=? k) with true by (symmetry; apply Nat.leb_le; lia).
      replace (k <? S (k + length Q)) with true
        by (symmetry; apply Nat.ltb_lt; lia).
      simpl. destruct (Ascii.eqb x c); [|reflexivity].
      simpl. f_equal. lia.
Qed.

Lemma last_index_decomp (c : ascii) (P Q R : list ascii) (k : nat) :
  last_index c (P ++ Q ++ R) k (k + length P) (k + length P + length Q) =
  match split_last c Q with
  | Some (pre, _) => Z.of_nat (k + length P + length pre)
  | None => (-1)%Z
  end.
Proof.
  revert k; induction P as [|x P IH]; intros k.
  - simpl. rewrite !Nat.add_0_r. apply last_index_in. lia.
  - cbn [app length last_index].
    replace (k + S (length P)) with (S k + length P) by lia.
    rewrite IH.
    destruct (split_last c Q) as [[pre post]|].
    + replace (Z.of_nat (S k + length P + length pre) >? -1)%Z with true
        by (symmetry; apply Z.gtb_lt; lia).
      reflexivity.
    + replace (S k + length P <=? k) with false
        by (symmetry; apply Nat.leb_gt; lia).
      reflexivity.
Qed.

(** [str.find] and [str.rfind] between two positions of the text. *)
Lemma str_find_decomp (c : ascii) (text P Q R : list ascii) (start stop : Z) :
  text = P ++ Q ++ R ->
  start = Z.of_nat (length P) ->
  stop = Z.of_nat (length P + length Q) ->
  str_find text c start stop =
  match split_first c Q with
  | Some (pre, _) => Z.of_nat (length P + length pre)
  | None => (-1)%Z
  end.
Proof.
  intros -> -> ->. unfold str_find, adjust_start, adjust_end.
  rewrite !length_app.
  replace (Z.of_nat (length P) <? 0)%Z with false
    by (symmetry; apply Z.ltb_ge; lia).
  replace (Z.of_nat (length P + length Q) >?
           Z.of_nat (length P + (length Q + length R)))%Z with false
    by (symmetry; rewrite Z.gtb_ltb; apply Z.ltb_ge; lia).
  replace (Z.of_nat (length P + length Q) <? 0)%Z with false
    by (symmetry; apply Z.ltb_ge; lia).
  rewrite !Nat2Z.id.
  exact (first_index_decomp c P Q R 0).
Qed.

Lemma str_rfind_decomp (c : ascii) (text P Q R : list ascii) (start stop : Z) :
  text = P ++ Q ++ R ->
  start = Z.of_nat (length P) ->
  stop = Z.of_nat (length P + length Q) ->
  str_rfind text c start stop =
  match split_last c Q with
  | Some (pre, _) => Z.of_nat (length P + length pre)
  | None => (-1)%Z
  end.
Proof.
  intros -> -> ->. unfold str_rfind, adjust_start, adjust_end.
  rewrite !length_app.
  replace (Z.of_nat (length P) <? 0)%Z with false
    by (symmetry; apply Z.ltb_ge; lia).
  replace (Z.of_nat (length P + length Q) >?
           Z.of_nat (length P + (length Q + length R)))%Z with false
    by (symmetry; rewrite Z.gtb_ltb; apply Z.ltb_ge; lia).
  replace (Z.of_nat (length P + length Q) <? 0)%Z with false
    by (symmetry; apply Z.ltb_ge; lia).
  rewrite !Nat2Z.id.
  exact (last_index_decomp c P Q R 0).
Qed.

(** The matcher over a stretch of text that has no [other] brace. *)
Lemma depth_scan_skip (o c : ascii) (pre rest : list ascii) (i d : nat) :
  ~ In c pre ->
  depth_scan o c (pre ++ rest) i d =
  depth_scan o c rest (i + length pre) (d + opens o pre).
Proof.
  revert i d; induction pre as [|x pre IH]; intros i d Hpre;
    cbn [app depth_scan length].
  - unfold opens. simpl. f_equal; lia.
  - destruct (Ascii.eqb_spec x c) as [->|Hne].
    + exfalso. apply Hpre. left. reflexivity.
    + assert (Hpre' : ~ In c pre) by (intros H; apply Hpre; right; exact H).
      destruct (Ascii.eqb_spec x o) as [->|Hno].
      * rewrite IH by exact Hpre'.
        rewrite opens_same. f_equal; lia.
      * rewrite IH by exact Hpre'.
        rewrite opens_other by congruence. f_equal; lia.
Qed.

Lemma depth_scan_none (o c : ascii) (rest : list ascii) (i d : nat) :
  ~ In c rest -> depth_scan o c rest i d = None.
Proof.
  intros H. rewrite <- (app_nil_r rest).
  rewrite depth_scan_skip by exact H. reflexivity.
Qed.

Lemma depth_scan_at (o c : ascii) (rest : list ascii) (i d : nat) :
  depth_scan o c (c :: rest) i d =
  match d with
  | O => Some i
  | S d' => depth_scan o c rest (S i) d'
  end.
Proof. simpl. rewrite Ascii.eqb_refl. reflexivity. Qed.

End BraceMatching.

Section BraceLoop.

Local Open Scope nat_scope.

Variables (position : Z) (o c : ascii).
Hypothesis o_c : o <> c.

Ltac lens := repeat (rewrite ?length_app; cbn [length]); lia.

Lemma split_first_opens (l p1 p2 : list ascii) :
  split_first o l = Some (p1, p2) ->
  l = p1 ++ o :: p2 /\ opens o l = S (opens o p2).
Proof.
  intros H. destruct (split_first_some _ _ _ _ H) as [-> Hp1].
  split; [reflexivity|].
  rewrite opens_app, opens_same, (opens_absent _ _ Hp1). reflexivity.
Qed.

Lemma split_last_opens (l p1 p2 : list ascii) :
  split_last o l = Some (p1, p2) ->
  l = p1 ++ o :: p2 /\ opens o l = S (opens o p1).
Proof.
  intros H. destruct (split_last_some _ _ _ _ H) as [-> Hp2].
  split; [reflexivity|].
  rewrite opens_app, opens_same, (opens_absent _ _ Hp2). lia.
Qed.

(** The loop, searching forward.  [T0] is the text before
    [i_start_open], [W] the text from there to [i_start_close] and [U]
    the text that is still to search. *)
Lemma brace_loop_forward (fuel : nat) :
  forall (text T0 W U : list ascii) (i_start_open i_start_close : Z),
    text = T0 ++ W ++ U ->
    i_start_open = Z.of_nat (length T0) ->
    i_start_close = Z.of_nat (length T0 + length W) ->
    length U < fuel ->
    brace_loop fuel true text position o c i_start_open i_start_close =
    Some (option_map (fun i => (position + Z.of_nat i)%Z)
            (depth_scan o c U (length T0 + length W) (opens o W))).
Proof.
  induction fuel as [|fuel IH]; intros text T0 W U iso isc Ht Hiso Hisc Hf;
    [lia|].
  cbn [brace_loop].
  rewrite (str_find_decomp c text (T0 ++ W) U [] isc
             (Z.of_nat (length text))).
  2:{ rewrite Ht, app_nil_r, app_assoc. reflexivity. }
  2:{ rewrite Hisc, length_app. reflexivity. }
  2:{ rewrite Ht, !length_app. f_equal. lia. }
  destruct (split_first c U) as [[pre post]|] eqn:Hc.
  - destruct (split_first_some _ _ _ _ Hc) as [HS Hpre].
    replace (Z.of_nat (length (T0 ++ W) + length pre) >? -1)%Z with true
      by (symmetry; apply Z.gtb_lt; lia).
    rewrite (str_find_decomp o text T0 (W ++ pre) (c :: post)
               iso (Z.of_nat (length (T0 ++ W) + length pre))).
    2:{ rewrite Ht, HS, <- !app_assoc. reflexivity. }
    2:{ exact Hiso. }
    2:{ rewrite !length_app. f_equal. lia. }
    rewrite HS, depth_scan_skip, depth_scan_at by exact Hpre.
    destruct (split_first o (W ++ pre)) as [[p1 p2]|] eqn:Ho.
    + destruct (split_first_opens _ _ _ Ho) as [HW Hn].
      replace (Z.of_nat (length T0 + length p1) >? -1)%Z with true
        by (symmetry; apply Z.gtb_lt; lia).
      rewrite opens_app in Hn.
      replace (opens o W + opens o pre) with (S (opens o p2)) by lia.
      assert (Hlen : length W + length pre = length p1 + S (length p2)).
      { rewrite <- !length_app, HW. simpl. rewrite length_app. reflexivity. }
      rewrite (IH text (T0 ++ p1 ++ [o]) (p2 ++ [c]) post).
      * replace (length (T0 ++ p1 ++ [o]) + length (p2 ++ [c]))
          with (S (length (T0 ++ W) + length pre))
          by (rewrite !length_app; simpl; lia).
        replace (opens o (p2 ++ [c])) with (opens o p2);
          [rewrite ?length_app; reflexivity|].
        rewrite opens_app, (opens_other o c []) by exact o_c.
        unfold opens at 3. simpl. lia.
      * rewrite Ht, HS.
        transitivity (T0 ++ (W ++ pre) ++ c :: post);
          [rewrite <- !app_assoc; reflexivity|].
        rewrite HW, <- !app_assoc. reflexivity.
      * lens.
      * lens.
      * rewrite HS in Hf. revert Hf. lens.
    + apply split_first_none in Ho.
      rewrite <- opens_app, (opens_absent _ _ Ho).
      simpl. do 3 f_equal. rewrite !length_app. lia.
  - apply split_first_none in Hc.
    rewrite (depth_scan_none _ _ _ _ _ Hc). reflexivity.
Qed.

(** The loop, searching backward.  [U] is the text still to search, [W]
    the text after it up to [i_start_open] and [T0] the rest. *)
Lemma brace_loop_backward (fuel : nat) :
  forall (text U W T0 : list ascii) (i_start_open i_start_close : Z),
    text = U ++ W ++ T0 ->
    i_start_open = (Z.of_nat (length U + length W) - 1)%Z ->
    i_start_close = (Z.of_nat (length U) - 1)%Z ->
    length U < fuel ->
    brace_loop fuel false text position o c i_start_open i_start_close =
    Some (option_map (fun j => (position - (Z.of_nat j + 1))%Z)
            (depth_scan o c (rev U) (length W + length T0) (opens o W))).
Proof.
  induction fuel as [|fuel IH]; intros text U W T0 iso isc Ht Hiso Hisc Hf;
    [lia|].
  cbn [brace_loop].
  rewrite (str_rfind_decomp c text [] U (W ++ T0) 0 (isc + 1)).
  2:{ exact Ht. }
  2:{ reflexivity. }
  2:{ rewrite Hisc. simpl. lia. }
  destruct (split_last c U) as [[pre post]|] eqn:Hc.
  - destruct (split_last_some _ _ _ _ Hc) as [HS Hpost].
    cbn [length Nat.add].
    replace (Z.of_nat (length pre) >? -1)%Z with true
      by (symmetry; apply Z.gtb_lt; lia).
    rewrite (str_rfind_decomp o text pre ((c :: post) ++ W) T0
               (Z.of_nat (length pre)) (iso + 1)).
    2:{ rewrite Ht, HS, <- !app_assoc. reflexivity. }
    2:{ reflexivity. }
    2:{ rewrite Hiso, HS. lens. }
    assert (Hrev : ~ In c (rev post)) by (rewrite <- in_rev; exact Hpost).
    rewrite HS, rev_app_distr. simpl rev. rewrite <- app_assoc. simpl app.
    rewrite depth_scan_skip, depth_scan_at by exact Hrev.
    rewrite opens_rev, length_rev.
    change (c :: post ++ W) with ((c :: post) ++ W).
    destruct (split_last o ((c :: post) ++ W)) as [[p1 p2]|] eqn:Ho.
    + destruct (split_last_opens _ _ _ Ho) as [HW Hn].
      replace (Z.of_nat (length pre + length p1) >? -1)%Z with true
        by (symmetry; apply Z.gtb_lt; lia).
      simpl app in Hn. rewrite opens_other, opens_app in Hn by exact o_c.
      replace (opens o W + opens o post) with (S (opens o p1)) by lia.
      assert (Hlen : S (length post + length W) = length p1 + S (length p2)).
      { transitivity (length ((c :: post) ++ W)); [lens|].
        rewrite HW. lens. }
      rewrite (IH text pre p1 (o :: p2 ++ T0)).
      * replace (length p1 + length (o :: p2 ++ T0))
          with (S (length W + length T0 + length post)) by lens.
        reflexivity.
      * rewrite Ht, HS.
        transitivity (pre ++ ((c :: post) ++ W) ++ T0);
          [simpl; rewrite <- !app_assoc; reflexivity|].
        rewrite HW, <- !app_assoc. reflexivity.
      * lens.
      * lens.
      * rewrite HS in Hf. revert Hf. lens.
    + apply split_last_none in Ho.
      assert (Hn : opens o ((c :: post) ++ W) = 0)
        by (apply opens_absent; exact Ho).
      simpl app in Hn. rewrite opens_other, opens_app in Hn by exact o_c.
      replace (opens o W + opens o post) with 0 by lia.
      simpl. do 3 f_equal. rewrite Ht, HS. lens.
  - apply split_last_none in Hc.
    rewrite (depth_scan_none o c (rev U)); [reflexivity|].
    rewrite <- in_rev. exact Hc.
Qed.

End BraceLoop.

Lemma bracemap_differs (forward : bool) (brace other : ascii) :
  bracemap forward brace = Some other -> brace <> other.
Proof.
  unfold bracemap. destruct forward;
    repeat match goal with
      | |- context [Ascii.eqb ?a ?b] =>
          destruct (Ascii.eqb_spec a b) as [->|?]
      end; intros [= <-]; try discriminate.
Qed.

(** The search in terms of the textbook matcher, in both directions. *)
Lemma find_brace_match_scan (text : list ascii) (position : Z)
  (brace : ascii) (forward : bool) :
  find_brace_match text position brace forward =
  Some (match bracemap forward brace with
        | None => Raise (KeyError (String brace EmptyString))
        | Some other =>
            Ok (if forward
                then option_map (fun i => (position + Z.of_nat i)%Z)
                       (depth_scan brace other (tl text) 1 0)
                else option_map (fun j => (position - (Z.of_nat j + 1))%Z)
                       (depth_scan brace other (rev text) 0 0))
        end).
Proof.
  unfold find_brace_match.
  destruct (bracemap forward brace) as [other|] eqn:Hb; [|reflexivity].
  pose proof (bracemap_differs _ _ _ Hb) as Hne.
  destruct forward.
  - destruct text as [|x rest]; [reflexivity|].
    rewrite (brace_loop_forward position brace other Hne
               (S (length (x :: rest))) (x :: rest) [x] [] rest 1 1);
      [reflexivity | reflexivity | reflexivity | reflexivity | simpl; lia].
  - rewrite (brace_loop_backward position brace other Hne
               (S (length text)) text text [] []
               (Z.of_nat (length text) - 1) (Z.of_nat (length text) - 1));
      [reflexivity | now rewrite app_nil_r
      | simpl; now rewrite Nat.add_0_r | reflexivity | lia].
Qed.

(** X21: searching forward, [find_brace_match] always returns, and returns
    what the textbook matcher finds in the text after its first
    character: the first closing brace that is met with no brace of the
    kind [brace] open, as [position] plus its index in the text, and
    [None] when there is none.  A [brace] that is not an opening brace
    raises [KeyError]. *)
Theorem find_brace_match_forward (text : list ascii) (position : Z)
  (brace : ascii) :
  find_brace_match text position brace true =
  Some (match bracemap true brace with
        | None => Raise (KeyError (String brace EmptyString))
        | Some other =>
            Ok (option_map (fun i => (position + Z.of_nat i)%Z)
                  (depth_scan brace other (tl text) 1 0))
        end).
Proof.
  unfold find_brace_match.
  destruct (bracemap true brace) as [other|] eqn:Hb; [|reflexivity].
  pose proof (bracemap_differs _ _ _ Hb) as Hne.
  destruct text as [|x rest].
  - reflexivity.
  - rewrite (brace_loop_forward position brace other Hne
               (S (length (x :: rest))) (x :: rest) [x] [] rest 1 1);
      [reflexivity | reflexivity | reflexivity | reflexivity | simpl; lia].
Qed.

(** X22: searching backward, [find_brace_match] always returns, and
    returns what the textbook matcher finds when it reads the text from
    its end: the first opening brace that is met with no brace of the
    kind [brace] open.  For the brace that is [j] characters before the
    end of the text the result is [position - (j + 1)]; it is [None] when
    there is none.  A [brace] that is not a closing brace raises
    [KeyError]. *)
Theorem find_brace_match_backward (text : list ascii) (position : Z)
  (brace : ascii) :
  find_brace_match text position brace false =
  Some (match bracemap false brace with
        | None => Raise (KeyError (String brace EmptyString))
        | Some other =>
            Ok (option_map (fun j => (position - (Z.of_nat j + 1))%Z)
                  (depth_scan brace other (rev text) 0 0))
        end).
Proof.
  unfold find_brace_match.
  destruct (bracemap false brace) as [other|] eqn:Hb; [|reflexivity].
  pose proof (bracemap_differs _ _ _ Hb) as Hne.
  rewrite (brace_loop_backward position brace other Hne
             (S (length text)) text text [] []
             (Z.of_nat (length text) - 1) (Z.of_nat (length text) - 1)).
  - reflexivity.
  - rewrite app_nil_r. reflexivity.
  - simpl. rewrite Nat.add_0_r. reflexivity.
  - reflexivity.
  - lia.
Qed.

Section Matcher.

Local Open Scope nat_scope.

Variables (o c : ascii).
Hypothesis o_c : o <> c.

(** Where the matcher stops, the braces it has read balance. *)
Lemma depth_scan_found (rest : list ascii) :
  forall (i d j : nat),
    depth_scan o c rest i d = Some j ->
    exists pre post,
      rest = pre ++ c :: post /\ j = i + length pre /\
      d + opens o pre = opens c pre.
Proof.
  induction rest as [|x rest IH]; intros i d j; cbn [depth_scan];
    [discriminate|].
  destruct (Ascii.eqb_spec x c) as [->|Hxc].
  - destruct d as [|d].
    + intros [= <-]. exists [], rest. repeat split. simpl. lia.
    + intros H. destruct (IH _ _ _ H) as (pre & post & -> & -> & Hd).
      exists (c :: pre), post. repeat split.
      * simpl. lia.
      * rewrite opens_other by exact o_c. rewrite opens_same. lia.
  - destruct (Ascii.eqb_spec x o) as [->|Hxo].
    + intros H. destruct (IH _ _ _ H) as (pre & post & -> & -> & Hd).
      exists (o :: pre), post. repeat split.
      * simpl. lia.
      * rewrite opens_same. rewrite opens_other by congruence. lia.
    + intros H. destruct (IH _ _ _ H) as (pre & post & -> & -> & Hd).
      exists (x :: pre), post. repeat split.
      * simpl. lia.
      * rewrite !opens_other by congruence. exact Hd.
Qed.

(** The matcher stops right after [M] exactly when no part of [M] from
    its start on has more [c] braces than are open, and all are closed
    at its end. *)
Lemma depth_scan_stops (M B : list ascii) :
  forall (i d : nat),
    depth_scan o c (M ++ c :: B) i d = Some (i + length M) ->
    (forall P Q, M = P ++ Q -> opens c P <= d + opens o P) /\
    d + opens o M = opens c M.
Proof.
  induction M as [|x M IH]; intros i d; cbn [app depth_scan length].
  - rewrite Ascii.eqb_refl. destruct d as [|d].
    + intros _. split; [|reflexivity].
      intros P Q HPQ. symmetry in HPQ. apply app_eq_nil in HPQ.
      destruct HPQ as [-> _]. unfold opens. simpl. lia.
    + intros H. apply depth_scan_found in H.
      destruct H as (pre & post & _ & Hj & _). lia.
  - replace (i + S (length M)) with (S i + length M) by lia.
    destruct (Ascii.eqb_spec x c) as [->|Hxc].
    + destruct d as [|d]; [intros [= H]; lia|].
      intros H. destruct (IH _ _ H) as [Hpre Hall]. split.
      * intros [|y P] Q HPQ; [unfold opens; simpl; lia|].
        injection HPQ as <- HM.
        rewrite opens_same. rewrite opens_other by exact o_c.
        specialize (Hpre _ _ HM). lia.
      * rewrite opens_same. rewrite opens_other by exact o_c. lia.
    + destruct (Ascii.eqb_spec x o) as [->|Hxo].
      * intros H. destruct (IH _ _ H) as [Hpre Hall]. split.
        -- intros [|y P] Q HPQ; [unfold opens; simpl; lia|].
           injection HPQ as <- HM.
           rewrite opens_same. rewrite opens_other by congruence.
           specialize (Hpre _ _ HM). lia.
        -- rewrite opens_same. rewrite opens_other by congruence. lia.
      * intros H. destruct (IH _ _ H) as [Hpre Hall]. split.
        -- intros [|y P] Q HPQ; [unfold opens; simpl; lia|].
           injection HPQ as <- HM.
           rewrite !opens_other by congruence.
           exact (Hpre _ _ HM).
        -- rewrite !opens_other by congruence. exact Hall.
Qed.

Lemma depth_scan_balanced (M B : list ascii) :
  forall (i d : nat),
    (forall P Q, M = P ++ Q -> opens c P <= d + opens o P) ->
    d + opens o M = opens c M ->
    depth_scan o c (M ++ c :: B) i d = Some (i + length M).
Proof.
  induction M as [|x M IH]; intros i d Hpre Hall; cbn [app depth_scan length].
  - rewrite Ascii.eqb_refl. unfold opens in Hall. simpl in Hall.
    replace d with 0 by lia. f_equal. lia.
  - replace (i + S (length M)) with (S i + length M) by lia.
    destruct (Ascii.eqb_spec x c) as [->|Hxc].
    + pose proof (Hpre [c] M eq_refl) as H1.
      rewrite opens_same in H1. rewrite opens_other in H1 by exact o_c.
      unfold opens in H1. simpl in H1.
      destruct d as [|d]; [lia|].
      rewrite opens_same in Hall. rewrite opens_other in Hall by exact o_c.
      apply IH; [|lia].
      intros P Q HM. specialize (Hpre (c :: P) Q).
      rewrite opens_same in Hpre. rewrite opens_other in Hpre by exact o_c.
      rewrite HM in Hpre. specialize (Hpre eq_refl). lia.
    + destruct (Ascii.eqb_spec x o) as [->|Hxo].
      * rewrite opens_same in Hall. rewrite opens_other in Hall by congruence.
        apply IH; [|lia].
        intros P Q HM. specialize (Hpre (o :: P) Q).
        rewrite opens_same in Hpre. rewrite opens_other in Hpre by congruence.
        rewrite HM in Hpre. specialize (Hpre eq_refl). lia.
      * rewrite !opens_other in Hall by congruence.
        apply IH; [|exact Hall].
        intros P Q HM. specialize (Hpre (x :: P) Q).
        rewrite !opens_other in Hpre by congruence.
        rewrite HM in Hpre. exact (Hpre eq_refl).
Qed.

End Matcher.

Lemma bracemap_back (brace other : ascii) :
  bracemap true brace = Some other -> bracemap false other = Some brace.
Proof.
  unfold bracemap.
  repeat match goal with
    | |- context [Ascii.eqb brace ?b] =>
        destruct (Ascii.eqb_spec brace b) as [->|?]
    end; intros [= <-]; reflexivity.
Qed.

(** X23: the brace that the forward search returns.  When the search from
    an opening brace returns a position, the text holds there the closing
    brace of the same kind, and between the first character of the text
    and that brace there are as many opening as closing braces of this
    kind. *)
Theorem find_brace_match_forward_balanced (text : list ascii) (position q : Z)
  (brace : ascii) :
  find_brace_match text position brace true = Some (Ok (Some q)) ->
  exists other x pre post,
    bracemap true brace = Some other /\
    text = x :: pre ++ other :: post /\
    q = (position + Z.of_nat (1 + length pre))%Z /\
    opens brace pre = opens other pre.
Proof.
  rewrite find_brace_match_scan.
  destruct (bracemap true brace) as [other|] eqn:Hb; [|discriminate].
  intros [= H].
  destruct (depth_scan brace other (tl text) 1 0) as [j|] eqn:Hs;
    [|discriminate].
  injection H as <-.
  apply depth_scan_found in Hs; [|exact (bracemap_differs _ _ _ Hb)].
  destruct Hs as (pre & post & Htl & -> & Hd).
  destruct text as [|x rest]; [destruct pre; discriminate|].
  simpl in Htl. subst rest.
  exists other, x, pre, post. repeat split. exact Hd.
Qed.

Lemma find_brace_match_forward_balanced_witness :
  exists other x pre post,
    bracemap true "(" = Some other /\
    list_ascii_of_string "(a(b)c)d" = x :: pre ++ other :: post /\
    10%Z = (4 + Z.of_nat (1 + length pre))%Z /\
    opens "(" pre = opens other pre.
Proof.
  apply (find_brace_match_forward_balanced
           (list_ascii_of_string "(a(b)c)d") 4 10 "(").
  vm_compute. reflexivity.
Defined.

(** X24: the brace that the backward search returns.  When the search from
    a closing brace returns a position, the text holds the opening brace
    of the same kind as many characters before its end as the position is
    before [position], and between that brace and the end of the text
    there are as many opening as closing braces of this kind. *)
Theorem find_brace_match_backward_balanced (text : list ascii)
  (position q : Z) (brace : ascii) :
  find_brace_match text position brace false = Some (Ok (Some q)) ->
  exists other pre post,
    bracemap false brace = Some other /\
    text = pre ++ other :: post /\
    q = (position - Z.of_nat (1 + length post))%Z /\
    opens brace post = opens other post.
Proof.
  rewrite find_brace_match_scan.
  destruct (bracemap false brace) as [other|] eqn:Hb; [|discriminate].
  intros [= H].
  destruct (depth_scan brace other (rev text) 0 0) as [j|] eqn:Hs;
    [|discriminate].
  injection H as <-.
  apply depth_scan_found in Hs; [|exact (bracemap_differs _ _ _ Hb)].
  destruct Hs as (pre & post & Hrev & -> & Hd).
  exists other, (rev post), (rev pre). repeat split.
  - rewrite <- (rev_involutive text), Hrev, rev_app_distr. simpl.
    rewrite <- app_assoc. reflexivity.
  - rewrite length_rev. simpl. lia.
  - rewrite !opens_rev. exact Hd.
Qed.

Lemma find_brace_match_backward_balanced_witness :
  exists other pre post,
    bracemap false ")" = Some other /\
    list_ascii_of_string "x(a(b)c" = pre ++ other :: post /\
    1%Z = (7 - Z.of_nat (1 + length post))%Z /\
    opens ")" post = opens other post.
Proof.
  apply (find_brace_match_backward_balanced
           (list_ascii_of_string "x(a(b)c") 7 1 ")").
  vm_compute. reflexivity.
Defined.

(** X25: the two searches undo each other.  Let the forward search be run
    on the text of a document from an opening brace at [p] on, and let it
    return [q]; the backward search from [q], run on the text of the
    document before [q], returns [p]. *)
Theorem find_brace_match_round_trip (doc : list ascii) (p q : nat)
  (brace other : ascii) :
  bracemap true brace = Some other ->
  nth_error doc p = Some brace ->
  find_brace_match (skipn p doc) (Z.of_nat p) brace true =
    Some (Ok (Some (Z.of_nat q))) ->
  find_brace_match (firstn q doc) (Z.of_nat q) other false =
    Some (Ok (Some (Z.of_nat p))).
Proof.
  intros Hb Hp Hf.
  pose proof (bracemap_differs _ _ _ Hb) as Hne.
  rewrite find_brace_match_scan, Hb in Hf.
  rewrite find_brace_match_scan, (bracemap_back _ _ Hb).
  destruct (nth_error_split doc p Hp) as (A & rest & Hdoc & HA).
  assert (Hskip : skipn p doc = brace :: rest).
  { rewrite Hdoc, <- HA, skipn_app, skipn_all, Nat.sub_diag. reflexivity. }
  rewrite Hskip in Hf. cbn [tl] in Hf.
  destruct (depth_scan brace other rest 1 0) as [j|] eqn:Hs;
    [|discriminate].
  injection Hf as Hq.
  assert (Hj : q = p + j) by lia. clear Hq.
  destruct (depth_scan_found brace other Hne _ _ _ _ Hs)
    as (M & B & -> & Hjm & _).
  assert (Hfirst : firstn q doc = A ++ brace :: M).
  { rewrite Hdoc.
    change (A ++ brace :: M ++ other :: B)
      with (A ++ (brace :: M) ++ other :: B).
    rewrite app_assoc, firstn_app.
    replace (q - length (A ++ brace :: M)) with 0
      by (rewrite length_app; simpl; lia).
    rewrite firstn_all2 by (rewrite length_app; simpl; lia).
    simpl. rewrite app_nil_r. reflexivity. }
  rewrite Hfirst, rev_app_distr. simpl rev. rewrite <- !app_assoc.
  simpl app.
  replace j with (1 + length M) in Hs by lia.
  destruct (depth_scan_stops brace other Hne _ _ _ _ Hs) as [Hpre Hall].
  rewrite (depth_scan_balanced other brace (not_eq_sym Hne)
             (rev M) (rev A) 0 0).
  - simpl. rewrite length_rev. do 3 f_equal. lia.
  - intros P Q HPQ.
    assert (HM : M = rev Q ++ rev P).
    { rewrite <- (rev_involutive M), HPQ, rev_app_distr. reflexivity. }
    pose proof (Hpre _ _ HM) as H1.
    rewrite HM, !opens_app, !opens_rev in Hall.
    rewrite !opens_rev in H1. lia.
  - rewrite !opens_rev. lia.
Qed.

Lemma find_brace_match_round_trip_witness :
  find_brace_match (firstn 5 (list_ascii_of_string "f(a(b)c)d"))
    (Z.of_nat 5) ")" false = Some (Ok (Some (Z.of_nat 3))) /\
  find_brace_match (firstn 7 (list_ascii_of_string "f(a(b)c)d"))
    (Z.of_nat 7) ")" false = Some (Ok (Some (Z.of_nat 1))).
Proof.
  split.
  - apply (find_brace_match_round_trip
             (list_ascii_of_string "f(a(b)c)d") 3 5 "(" ")");
      vm_compute; reflexivity.
  - exact (find_brace_match_round_trip
             (list_ascii_of_string "f(a(b)c)d") 1 7 "(" ")"
             eq_refl eq_refl eq_refl).
Defined.
(* ================================================================== *)
(** ** [update_server_list], language by language *)

Lemma restart_goes_through_same_at env l s s' :
  same_at l s s' ->
  restart_goes_through env l s -> restart_goes_through env l s'.
Proof.
  intros (Hc & Hq) H c. rewrite Hc, Hq. apply H.
Qed.

Lemma update_server_wf env l s :
  well_formed s -> well_formed (snd (update_server env l s)).
Proof.
  apply (update_server_inv client_ok);
    [exact client_ok_mono | exact client_ok_fresh | exact client_ok_started].
Qed.

Lemma restart_needed_same c : restart_needed c c = false.
Proof. apply restart_needed_false. repeat split. Qed.

Lemma shared_settings_start_events env l cfg obj :
  shared_settings (start_events env l cfg obj) = None.
Proof.
  unfold start_events, signal_connections.
  now destruct (main env) as [[[] [] [] p]|].
Qed.

Lemma count_restarts_start_events env x l cfg obj :
  l <> x -> count (restarts l) (start_events env x cfg obj) = 0.
Proof.
  intros Hne. apply String.eqb_neq in Hne. rewrite String.eqb_sym in Hne.
  unfold start_events, signal_connections, count. cbn [filter restarts].
  rewrite Hne.
  now destruct (main env) as [[[] [] [] p]|].
Qed.

Lemma count_restarts_config_writes env x l :
  count (restarts l) (config_writes env x) = 0.
Proof. unfold config_writes. now destruct (String.eqb x "python"). Qed.

(** One pass of the loop, on the language it is run for. *)
Lemma update_server_pass env x t :
  well_formed t ->
  restart_goes_through env x t ->
  exists t' evs,
    update_server env x t = (Ok tt, t') /\
    trace t' = trace t ++ evs /\
    next_obj t <= next_obj t' /\
    (pytest_gate env = true -> next_obj t' = next_obj t) /\
    shared_settings evs = shared_settings (config_writes env x) /\
    (forall l, l <> x -> count (restarts l) evs = 0) /\
    pass_result env x t evs t'.
Proof.
  intros Hwf Hsafe. unfold restart_goes_through in Hsafe.
  rewrite update_server_eq. cbv zeta. unfold pass_result.
  cbn [wrote clients register_queue next_obj trace].
  destruct (PyDict.get x (clients t)) as [c|] eqn:Hg.
  2:{ eexists. exists (config_writes env x). split; [reflexivity|].
      cbn [clients register_queue next_obj trace].
      rewrite !get_set_same.
      repeat split; auto using count_restarts_config_writes. }
  destruct (parts_client _ _ _ _ _ _ Hwf Hg) as (Hst & Hinst & _).
  pose proof (parts_queue_bound _ _ _ _ _ _ Hwf Hg) as Hq.
  unfold PyDict.contains in Hq.
  destruct (PyDict.get x (register_queue t)) as [queue|] eqn:Hqueue;
    [clear Hq | discriminate].
  destruct (restart_needed (config_of c) (language_config env x)) eqn:Hre.
  - destruct (String.eqb (status c) STOPPED) eqn:Est.
    { apply String.eqb_eq in Est. rewrite Est.
      change (String.eqb STOPPED RUNNING) with false. cbv iota.
      eexists. exists (config_writes env x). split; [reflexivity|].
      cbn [clients register_queue next_obj trace].
      rewrite get_set_same.
      repeat split; auto using count_restarts_config_writes. }
    destruct Hst as [Hst|Erun]; [rewrite Hst in Est; discriminate|].
    rewrite Erun. change (String.eqb RUNNING RUNNING) with true. cbv iota.
    destruct (Hsafe c eq_refl Erun Hre)
      as ((m & Hm & Hed & Hpr) & Hgate).
    specialize (Hinst Erun).
    destruct (instance c) as [old|] eqn:Hold; [|congruence].
    unfold restart_state, wrote. rewrite Hm, Hed, Hpr, Hold.
    rewrite start_client_eq. cbn [clients register_queue next_obj trace].
    rewrite get_set_same, Hqueue.
    destruct (pytest_gate env) eqn:Eg.
    + eexists. exists (config_writes env x ++ restart_events x old).
      split; [reflexivity|].
      cbn [fst snd clients register_queue next_obj trace].
      rewrite get_set_same, <- app_assoc.
      split; [reflexivity|]. split; [lia|]. split; [reflexivity|].
      split; [rewrite shared_settings_app; reflexivity|].
      split.
      { intros l Hne. rewrite count_app, count_restarts_config_writes.
        apply String.eqb_neq in Hne. rewrite String.eqb_sym in Hne.
        unfold count. cbn. now rewrite Hne. }
      exists old. split; [reflexivity|].
      repeat split; apply in_or_app; right; cbn; auto.
    + destruct Hgate as [Hgate|Hgate]; [discriminate|].
      injection Hgate as ->.
      cbn [status fresh_record String.eqb].
      change (String.eqb STOPPED STOPPED) with true. cbv iota zeta.
      eexists.
      exists (config_writes env x ++ restart_events x old
              ++ start_events env x
                   (started_config env (language_config env x))
                   (next_obj t)).
      split; [reflexivity|].
      cbn [fst snd clients register_queue trace next_obj].
      rewrite !get_set_same, <- !app_assoc.
      split; [reflexivity|]. split; [lia|]. split; [discriminate|].
      split.
      { rewrite !shared_settings_app, shared_settings_start_events.
        reflexivity. }
      split.
      { intros l Hne.
        rewrite !count_app, count_restarts_config_writes,
          (count_restarts_start_events env x l _ _ Hne).
        apply String.eqb_neq in Hne. rewrite String.eqb_sym in Hne.
        unfold count. cbn. now rewrite Hne. }
      exists old. split; [reflexivity|].
      repeat split; apply in_or_app; right; cbn; auto.
  - destruct (String.eqb (status c) RUNNING) eqn:Erun.
    2:{ eexists. exists (config_writes env x). split; [reflexivity|].
        cbn [wrote clients register_queue next_obj trace].
        rewrite Hg, Hqueue.
        repeat split; auto using count_restarts_config_writes.
        intros Hrun. rewrite Hrun in Erun. discriminate. }
    apply String.eqb_eq in Erun. specialize (Hinst Erun).
    destruct (instance c) as [old|] eqn:Hold; [|congruence].
    eexists.
    exists (config_writes env x
            ++ [client_send_plugin_configurations old
                  (configurations (language_config env x))]).
    split; [reflexivity|].
    cbn [fst snd clients register_queue next_obj trace].
    rewrite Hg, Hqueue, <- app_assoc.
    split; [reflexivity|]. split; [lia|]. split; [reflexivity|].
    split; [rewrite shared_settings_app; reflexivity|].
    split.
    { intros l _. now rewrite count_app, count_restarts_config_writes. }
    split; [reflexivity|]. split; [reflexivity|].
    split; [now rewrite count_app, count_restarts_config_writes|].
    intros _. exists old. split; [reflexivity|].
    apply in_or_app. right. now left.
Qed.

Lemma in_list_app_one l done x :
  in_list l (done ++ [x]) = in_list l done || String.eqb l x.
Proof.
  unfold in_list. rewrite existsb_app. cbn. now rewrite orb_false_r.
Qed.

(** A pass keeps what the restarts need. *)
Lemma pass_keeps_restart_goes_through env x l t t' evs :
  restart_goes_through env l t ->
  (l <> x -> same_at l t t') ->
  pass_result env x t evs t' ->
  restart_goes_through env l t'.
Proof.
  intros Hsafe Hsame Hpass.
  destruct (String.eqb_spec l x) as [->|Hne];
    [|exact (restart_goes_through_same_at env l t t' (Hsame Hne) Hsafe)].
  clear Hsame. unfold pass_result in Hpass. unfold restart_goes_through.
  intros c' Hg' Hrun' Hre'.
  destruct (PyDict.get x (clients t)) as [c|] eqn:Hg.
  2:{ destruct Hpass as (Hc & _). rewrite Hc in Hg'. injection Hg' as <-.
      discriminate. }
  destruct (restart_needed (config_of c) (language_config env x)) eqn:Hre.
  - destruct (String.eqb (status c) RUNNING) eqn:Erun.
    + apply String.eqb_eq in Erun.
      destruct (Hsafe c Hg Erun Hre) as (Hmain & _).
      destruct Hpass as (old & _ & _ & _ & _ & Hpass).
      destruct (pytest_gate env).
      * rewrite Hpass in Hg'. injection Hg' as <-. discriminate.
      * destruct Hpass as (_ & Hq). split; [exact Hmain | now right].
    + destruct Hpass as (Hc & _). rewrite Hc in Hg'. injection Hg' as <-.
      discriminate.
  - destruct Hpass as (Hc & _). rewrite Hc in Hg'. injection Hg' as <-.
    congruence.
Qed.

(** A pass for [x] brings the loop forward with every language. *)
Lemma progress_step env s x t t' evs evs1 :
  (forall l, l <> x -> same_at l t t') ->
  (forall l, l <> x -> count (restarts l) evs1 = 0) ->
  pass_result env x t evs1 t' ->
  next_obj s <= next_obj t ->
  forall l passed,
    progress env l s passed t evs ->
    progress env l s (passed || String.eqb l x) t' (evs ++ evs1).
Proof.
  intros Hsame Hquiet Hpass Hn l passed H.
  destruct (String.eqb_spec l x) as [->|Hne].
  - rewrite orb_true_r. clear Hsame Hquiet.
    unfold progress in *. unfold pass_result in Hpass.
    destruct (PyDict.get x (clients s)) as [c|] eqn:Hs.
    + destruct (restart_needed (config_of c) (language_config env x)) eqn:Hre.
      * intros Hrun. specialize (H Hrun). destruct passed.
        -- destruct H as (old & Hi & He & Hp & Hstop & H). exists old.
           split; [exact Hi|].
           split; [apply in_or_app; now left|].
           split; [apply in_or_app; now left|].
           split; [apply in_or_app; now left|].
           destruct (pytest_gate env).
           ++ rewrite H in Hpass. cbn [fresh_record config_of status] in Hpass.
              rewrite restart_needed_same in Hpass. apply Hpass.
           ++ destruct H as (obj & Hobj & Hc & Hq). rewrite Hc in Hpass.
              cbn [config_of status] in Hpass.
              change (String.eqb RUNNING RUNNING) with true in Hpass.
              destruct (restart_needed _ _).
              ** destruct Hpass as (old' & _ & _ & _ & _ & Hc' & Hq').
                 exists (next_obj t). split; [lia|]. now split.
              ** destruct Hpass as (Hc' & Hq' & _). exists obj.
                 split; [exact Hobj|]. split; [exact Hc'|]. congruence.
        -- rewrite H, Hre, Hrun in Hpass.
           change (String.eqb RUNNING RUNNING) with true in Hpass.
           destruct Hpass as (old & Hi & He & Hp & Hstop & Hpass).
           exists old. split; [exact Hi|].
           split; [apply in_or_app; now right|].
           split; [apply in_or_app; now right|].
           split; [apply in_or_app; now right|].
           destruct (pytest_gate env); [exact Hpass|].
           exists (next_obj t). split; [lia | exact Hpass].
      * destruct H as (Hc & Hcount & Hsent). rewrite Hc, Hre in Hpass.
        destruct Hpass as (Hc' & _ & Hcount' & Hsent').
        split; [exact Hc'|]. split; [rewrite count_app; lia|].
        intros _ Hrun. destruct (Hsent' Hrun) as (old & Hi & Hin).
        exists old. split; [exact Hi|]. apply in_or_app. now right.
    + destruct passed.
      * destruct H as (Hc & Hq). rewrite Hc in Hpass.
        cbn [fresh_record config_of status] in Hpass.
        rewrite restart_needed_same in Hpass.
        destruct Hpass as (Hc' & Hq' & _). split; congruence.
      * rewrite H in Hpass. exact Hpass.
  - rewrite orb_false_r. clear Hpass.
    destruct (Hsame l Hne) as (Hc & Hq). specialize (Hquiet l Hne).
    unfold progress in *. rewrite Hc, Hq.
    destruct (PyDict.get l (clients s)) as [c|]; [|exact H].
    destruct (restart_needed (config_of c) (language_config env l)).
    + intros Hrun. specialize (H Hrun). destruct passed; [|exact H].
      destruct H as (old & Hi & He & Hp & Hstop & H). exists old.
      split; [exact Hi|].
      split; [apply in_or_app; now left|].
      split; [apply in_or_app; now left|].
      split; [apply in_or_app; now left|]. exact H.
    + destruct H as (Hc' & Hcount & Hsent).
      split; [exact Hc'|]. split; [rewrite count_app; lia|].
      intros Hp Hrun. destruct (Hsent Hp Hrun) as (old & Hi & Hin).
      exists old. split; [exact Hi|]. apply in_or_app. now left.
Qed.

(** The loop of [update_server_list] returns, and keeps [loop_inv]. *)
Lemma update_loop env all s ls :
  forall done t,
    (forall x, In x ls -> In x all) ->
    loop_inv env all s done t ->
    exists t',
      for_each ls (update_server env) t = (Ok tt, t') /\
      loop_inv env all s (done ++ ls) t'.
Proof.
  induction ls as [|x rest IH]; intros done t Hall Hinv.
  - exists t. rewrite app_nil_r. split; [reflexivity | exact Hinv].
  - destruct Hinv as (Hwf & Hsafe & evs & Ht & Hn & Hgate & Hshared & Hprog).
    destruct (update_server_pass env x t Hwf (Hsafe x (Hall x (or_introl eq_refl))))
      as (t1 & evs1 & Hrun & Ht1 & Hn1 & Hgate1 & Hshared1 & Hquiet & Hpass).
    assert (Hsame : forall l, l <> x -> same_at l t t1).
    { intros l Hne. pose proof (update_server_same_at env x l t Hne) as H.
      now rewrite Hrun in H. }
    assert (Hinv1 : loop_inv env all s (done ++ [x]) t1).
    { split.
      { pose proof (update_server_wf env x t Hwf) as H.
        now rewrite Hrun in H. }
      split.
      { intros l Hl.
        apply (pass_keeps_restart_goes_through env x l t t1 evs1);
          auto. }
      exists (evs ++ evs1).
      split; [now rewrite Ht1, Ht, app_assoc|].
      split; [lia|].
      split; [intros Hg; rewrite (Hgate1 Hg); auto|].
      split.
      { rewrite shared_settings_app, Hshared1, Hshared, in_list_app_one.
        unfold config_writes. rewrite (String.eqb_sym x "python").
        destruct (String.eqb "python" x); cbn [shared_settings];
          [now rewrite orb_true_r | now rewrite orb_false_r]. }
      intros l. rewrite in_list_app_one.
      apply (progress_step env s x t t1 evs evs1); auto. }
    destruct (IH (done ++ [x]) t1) as (t' & Hrun' & Hinv').
    { intros y Hy. apply Hall. now right. }
    { exact Hinv1. }
    exists t'. split.
    + cbn [for_each]. unfold bind at 1. rewrite Hrun. exact Hrun'.
    + rewrite <- app_assoc in Hinv'. exact Hinv'.
Qed.

Lemma count_In f e t : In e t -> f e = true -> 1 <= count f t.
Proof.
  intros Hin Hf. unfold count.
  assert (H : In e (filter f t)) by (apply filter_In; auto).
  destruct (filter f t); [destruct H | cbn; lia].
Qed.

Lemma loop_inv_start env all s :
  well_formed s ->
  (forall l, In l all -> restart_goes_through env l s) ->
  loop_inv env all s [] s.
Proof.
  intros Hwf Hsafe. split; [exact Hwf|]. split; [exact Hsafe|].
  exists []. rewrite app_nil_r. split; [reflexivity|]. split; [lia|].
  split; [reflexivity|]. split; [reflexivity|].
  intros l. unfold progress. cbn [in_list existsb].
  destruct (PyDict.get l (clients s)) as [c|]; [|reflexivity].
  destruct (restart_needed _ _); [reflexivity|].
  split; [reflexivity|]. split; [reflexivity | discriminate].
Qed.

(** C4, as the code has it.  Let [update_server_list] run in a state of
    the plugin in which every restart it has to make can go through: for
    each listed language that is running with a configuration that
    differs at one of the six server keys, the main window has its editor
    and projects plugins, and no registration is queued for the language
    unless the test gate applies.  Then the method returns, and with
    [evs] the calls it has made:
    - under the test gate no client object is created and [start()] is
      called on none;
    - [PYTHON_CONFIG['configurations']], the dictionary that every
      Python configuration refers to, holds the new plugin settings;
    - for every language that [get_languages] lists, [language_updated]
      holds.  A running client is stopped, with the services of the
      editor for its language and those of the projects, exactly when the
      new configuration differs from the stored one at ['cmd'], ['args'],
      ['host'], ['port'], ['external'] or ['stdio']; the record is then
      replaced and, unless the test gate applies, a new client is created
      for the language with the new configuration and started.  When the
      configurations differ at none of the keys the record is kept, its
      client is not stopped and none is created for the language, and the
      client is handed the ['configurations'] of the new configuration.
      A language that was not registered gets a stopped record without a
      client object, and an empty queue. *)
Theorem update_server_list_restarts (env : Env) (s : manager) :
  reachable s ->
  (forall l, In l (get_languages env) -> restart_goes_through env l s) ->
  exists s' evs,
    update_server_list env s = (Ok tt, s') /\
    trace s' = trace s ++ evs /\
    (pytest_gate env = true ->
     next_obj s' = next_obj s /\
     forall obj, count (creates obj) evs = 0 /\ count (starts obj) evs = 0) /\
    shared_settings (trace s') = Some (python_configurations env) /\
    forall l, In l (get_languages env) -> language_updated env l s evs s'.
Proof.
  intros Hr Hsafe.
  pose proof (reachable_sound s Hr) as (Hwf & _ & _ & _ & Hcounts & _).
  destruct (update_loop env (get_languages env) s (get_languages env) [] s
              (fun x H => H) (loop_inv_start env _ s Hwf Hsafe))
    as (s' & Hrun & Hinv).
  cbn [app] in Hinv.
  destruct Hinv as (Hwf' & _ & evs & Ht & Hn & Hgate & Hshared & Hprog).
  assert (Hr' : reachable s').
  { pose proof (reach_update_server_list env Hr) as H.
    unfold update_server_list in H. now rewrite Hrun in H. }
  pose proof (reachable_sound s' Hr') as (_ & _ & _ & Hprov' & Hcounts' & Hstop').
  exists s', evs. split; [exact Hrun|]. split; [exact Ht|]. split; [|split].
  - intros Hg. specialize (Hgate Hg). split; [exact Hgate|]. intros obj.
    destruct (Hcounts obj) as (Hc & Hs & _).
    destruct (Hcounts' obj) as (Hc' & Hs' & _).
    rewrite Ht, count_app, Hgate in Hc', Hs'. lia.
  - rewrite Ht, shared_settings_app, Hshared. reflexivity.
  - intros l Hl. specialize (Hprog l).
    apply in_list_In in Hl. rewrite Hl in Hprog.
    unfold progress in Hprog. unfold language_updated.
    destruct (PyDict.get l (clients s)) as [c|] eqn:Hg; [|exact Hprog].
    intros Hrunning.
    destruct (parts_client _ _ _ _ _ _ Hwf Hg) as (_ & Hinst & _).
    specialize (Hinst Hrunning).
    destruct (instance c) as [old|] eqn:Hold; [|congruence].
    exists old. split; [reflexivity|].
    destruct (restart_needed (config_of c) (language_config env l)).
    + destruct (Hprog Hrunning) as (old' & [= <-] & He & Hp & Hstopped & H).
      split; [exact He|]. split; [exact Hp|]. split.
      { pose proof (count_In (stops old) _ _ Hstopped (Nat.eqb_refl old)).
        destruct (Hcounts' old) as (_ & Hs' & Hle).
        rewrite Ht, !count_app in Hle. rewrite Ht, count_app in Hs'.
        destruct (Nat.ltb old (next_obj s')); lia. }
      destruct (pytest_gate env); [exact H|].
      destruct H as (obj & Hobj & Hc' & _).
      destruct (Hprov' l _ obj Hc' eq_refl) as (folder & Hin).
      cbn [config_of] in Hin.
      destruct (parts_client _ _ _ _ _ _ Hwf' Hc') as (_ & _ & Hlt).
      specialize (Hlt obj eq_refl).
      destruct (Hcounts obj) as (Hcr & Hs & _).
      destruct (Hcounts' obj) as (_ & Hs' & _).
      assert (Hnew : Nat.ltb obj (next_obj s) = false)
        by (apply Nat.ltb_ge; lia).
      rewrite Hnew in Hcr, Hs.
      exists obj, folder. split; [exact Hobj|]. split; [exact Hc'|]. split.
      * rewrite Ht in Hin. apply in_app_or in Hin as [Hin|Hin]; [|exact Hin].
        pose proof (count_In (creates obj) _ _ Hin (Nat.eqb_refl obj)). lia.
      * rewrite Ht, count_app in Hs'.
        apply Nat.ltb_lt in Hlt. rewrite Hlt in Hs'. lia.
    + destruct Hprog as (Hc' & Hquiet & Hsent).
      split; [exact Hc'|]. split.
      { pose proof (Hstop' l c old Hc' Hold) as H.
        rewrite Hrunning in H.
        change (String.eqb RUNNING RUNNING) with true in H.
        rewrite Ht, count_app in H. lia. }
      split; [exact Hquiet|].
      destruct (Hsent eq_refl Hrunning) as (old' & [= <-] & Hin).
      exact Hin.
Qed.

Lemma demo_restart_goes_through :
  forall l, In l (get_languages demo_env_edited) ->
            restart_goes_through demo_env_edited l demo_both.
Proof.
  intros l Hl c _ _ _. split.
  - exists demo_main. auto.
  - right. destruct Hl as [<-|[<-|[]]]; reflexivity.
Qed.

Lemma update_server_list_restarts_witness :
  exists s' evs,
    update_server_list demo_env_edited demo_both = (Ok tt, s') /\
    trace s' = trace demo_both ++ evs /\
    shared_settings (trace s')
    = Some (python_configurations demo_env_edited) /\
    language_updated demo_env_edited "python" demo_both evs s' /\
    language_updated demo_env_edited "r" demo_both evs s'.
Proof.
  destruct (update_server_list_restarts demo_env_edited demo_both
              demo_both_reachable demo_restart_goes_through)
    as (s' & evs & Hrun & Ht & _ & Hshared & Hall).
  exists s', evs.
  split; [exact Hrun|]. split; [exact Ht|]. split; [exact Hshared|].
  split; [exact (Hall "python" (or_introl eq_refl))|].
  exact (Hall "r" (or_intror (or_introl eq_refl))).
Defined.

(** C4 as stated fails under the test gate.  In the test session the
    Python client runs and the launch command was changed, so the
    configurations differ at ['cmd']; [update_server_list] stops the
    client and replaces the record, and [start_client] then returns at
    its gate: no new client is started and the record is left stopped,
    without an instance. *)
Lemma update_server_list_gate_counterexample :
  ~ (forall c,
        PyDict.get "python" (clients test_started) = Some c ->
        status c = RUNNING ->
        differs_at Kcmd (config_of c)
          (language_config test_env_gated "python") = true ->
        exists c' obj,
          PyDict.get "python"
            (clients (snd (update_server_list test_env_gated test_started)))
          = Some c' /\
          status c' = RUNNING /\ instance c' = Some obj) /\
  PyDict.get "python" (clients test_started)
    = Some {| status := RUNNING;
              config_of := python_config test_env;
              instance := Some 0 |} /\
  update_server_list test_env_gated test_started =
  (Ok tt,
   {| clients := [("python", fresh_record test_env_gated "python");
                  ("r", fresh_record test_env "r")];
      register_queue := [("python", []); ("r", [])];
      next_obj := 1;
      trace := trace test_started
               ++ PYTHON_CONFIG_write (python_configurations test_env_gated)
                  :: restart_events "python" 0 |}).
Proof.
  split; [|split; reflexivity].
  intros H.
  destruct (H {| status := RUNNING;
                 config_of := python_config test_env;
                 instance := Some 0 |} eq_refl eq_refl eq_refl)
    as (c' & obj & Hg & Hst & _).
  vm_compute in Hg. injection Hg as <-. discriminate.
Qed.
